(** * book-api: a shallow embedding of the Django book service

    The development follows the three source modules

      - [core/models.py]      (users, books, the image path generator),
      - [book/serializers.py] (the two model serializers),
      - [book/views.py]       (the owner-scoped view set),

    and states the properties of the service as theorems over that
    embedding.  Library behaviour the source relies on (Python's [str]
    and [os.path], [uuid.uuid4], Django's managers and model fields, the
    REST framework's serializer fields) is written out next to the code
    that calls it, each definition naming the library routine it follows. *)

From Stdlib Require Import ZArith Ascii String List Lia Bool DecimalString.
From stdpp Require Import gmap strings list fin_maps sorting.

Local Open Scope Z_scope.

(** ** Python text

    A Python [str] is a list of characters.  Characters are the code
    points below 256; string literals are read through a coercion. *)

Abbreviation str := (list ascii).

Coercion String.list_ascii_of_string : string >-> list.

Module PyStr.

Definition code (c : ascii) : Z := Z.of_N (N_of_ascii c).

Definition chr (n : Z) : ascii := ascii_of_N (Z.to_N n).

Definition ch_eqb (a b : ascii) : bool := Ascii.eqb a b.

(** [str.isspace] on one character. *)
Definition is_space (c : ascii) : bool :=
  let n := code c in
  ((9 <=? n) && (n <=? 13)) || ((28 <=? n) && (n <=? 32))
  || (n =? 133) || (n =? 160).

(** [str.isdigit] restricted to the decimal digits [0-9], which is what
    the pattern [\d] can match below code point 256. *)
Definition is_digit (c : ascii) : bool :=
  let n := code c in (48 <=? n) && (n <=? 57).

(** [str.lower] on one character. *)
Definition lower_char (c : ascii) : ascii :=
  let n := code c in
  if ((65 <=? n) && (n <=? 90))
     || ((192 <=? n) && (n <=? 222) && negb (n =? 215))
  then chr (n + 32) else c.

Definition lower (s : str) : str := map lower_char s.

(** [str.lstrip()], [str.rstrip()] and [str.strip()]. *)
Fixpoint lstrip (s : str) : str :=
  match s with
  | c :: s' => if is_space c then lstrip s' else s
  | [] => []
  end.

Definition rstrip (s : str) : str := rev (lstrip (rev s)).

Definition strip (s : str) : str := rstrip (lstrip s).

(** [s.rfind(c)] for a one-character needle: the index of the last
    occurrence, or [-1]. *)
Fixpoint rfind (c : ascii) (s : str) : Z :=
  match s with
  | [] => -1
  | x :: s' =>
      let r := rfind c s' in
      if 0 <=? r then r + 1
      else if ch_eqb x c then 0 else -1
  end.

(** Slices [s[:i]] and [s[i:]] for an index [i >= 0]. *)
Definition upto (i : Z) (s : str) : str := take (Z.to_nat i) s.
Definition from (i : Z) (s : str) : str := drop (Z.to_nat i) s.

(** [s.rsplit(c, 1)]: [None] stands for the one-element answer [[s]],
    which the caller's two-name unpacking turns into [ValueError]. *)
Definition rsplit1 (c : ascii) (s : str) : option (str * str) :=
  let i := rfind c s in
  if 0 <=? i then Some (upto i s, from (i + 1) s) else None.

Definition startswith (c : ascii) (s : str) : bool :=
  match s with x :: _ => ch_eqb x c | [] => false end.

Definition endswith (c : ascii) (s : str) : bool := startswith c (rev s).

Definition is_empty (s : str) : bool :=
  match s with [] => true | _ => false end.

Definition str_eqb (a b : str) : bool := bool_decide (a = b).

End PyStr.

(** ** [os.path] (posixpath) *)

Module OsPath.
Import PyStr.

(** [posixpath.splitext]: the extension starts at the last dot of the
    last path component, unless that component consists of leading
    dots only up to there. *)
Definition splitext (p : str) : str * str :=
  let sepIndex := rfind "/" p in
  let dotIndex := rfind "." p in
  if sepIndex <? dotIndex then
    let filenameIndex := sepIndex + 1 in
    if forallb (fun ch => ch_eqb ch ".")
               (upto (dotIndex - filenameIndex) (from filenameIndex p))
    then (p, [])
    else (upto dotIndex p, from dotIndex p)
  else (p, []).

(** [posixpath.join(a, *p)]. *)
Definition join2 (path b : str) : str :=
  if startswith "/" b then b
  else if is_empty path || endswith "/" path then path ++ b
  else path ++ "/" ++ b.

Definition join (a : str) (p : list str) : str := fold_left join2 p a.

(** [posixpath.basename]. *)
Definition basename (p : str) : str := from (rfind "/" p + 1) p.

End OsPath.

(** ** [uuid] *)

Module Uuid.
Import PyStr.

(** A [UUID] object is its 128-bit integer. *)
Definition UUID := Z.

(** [uuid.uuid4()]: sixteen bytes from the system's random source, read
    as a big-endian integer, stamped with the RFC 4122 variant and
    version 4. *)
Definition uuid4 (urandom16 : Z) : UUID :=
  let i := Z.land urandom16 (Z.lnot (Z.shiftl 0xc000 48)) in
  let i := Z.lor i (Z.shiftl 0x8000 48) in
  let i := Z.land i (Z.lnot (Z.shiftl 0xf000 64)) in
  Z.lor i (Z.shiftl 4 76).

Definition hex_digit (d : Z) : ascii :=
  if d <? 10 then chr (48 + d) else chr (87 + d).

(** ['%0wx' % n] for [0 <= n < 16^w]. *)
Fixpoint hex_fixed (w : nat) (n : Z) : str :=
  match w with
  | O => []
  | S w' => hex_fixed w' (n / 16) ++ [hex_digit (n mod 16)]
  end.

Definition is_hex (c : ascii) : bool :=
  existsb (ch_eqb c) ("0123456789abcdef" : str).

Definition slice (i j : nat) (s : str) : str := take (j - i) (drop i s).

(** [UUID.__str__]. *)
Definition to_str (u : UUID) : str :=
  let hex := hex_fixed 32 u in
  slice 0 8 hex ++ "-" ++ slice 8 12 hex ++ "-" ++ slice 12 16 hex
    ++ "-" ++ slice 16 20 hex ++ "-" ++ drop 20 hex.

End Uuid.


(** ** [datetime.date] and Django's date parser *)

Module Datetime.
Import PyStr.

Record date := Date { year : Z; month : Z; day : Z }.

Global Instance date_eq_dec : EqDecision date.
Proof. solve_decision. Defined.

Definition is_leap (y : Z) : bool :=
  (y mod 4 =? 0) && (negb (y mod 100 =? 0) || (y mod 400 =? 0)).

Definition days_in_month (y m : Z) : Z :=
  if m =? 2 then (if is_leap y then 29 else 28)
  else if (m =? 4) || (m =? 6) || (m =? 9) || (m =? 11) then 30
  else 31.

(** The range check of the [datetime.date] constructor; every [date]
    object the program holds satisfies it. *)
Definition valid_date (d : date) : bool :=
  (1 <=? year d) && (year d <=? 9999)
  && (1 <=? month d) && (month d <=? 12)
  && (1 <=? day d) && (day d <=? days_in_month (year d) (month d)).

(** [datetime.date(y, m, d)]; [None] is [ValueError]. *)
Definition make_date (y m d : Z) : option date :=
  let r := Date y m d in if valid_date r then Some r else None.

Definition dec_digit (d : Z) : ascii := chr (48 + d).

(** ['%0wd' % n] for [0 <= n < 10^w]. *)
Fixpoint dec_fixed (w : nat) (n : Z) : str :=
  match w with
  | O => []
  | S w' => dec_fixed w' (n / 10) ++ [dec_digit (n mod 10)]
  end.

(** [date.isoformat()], that is ['%04d-%02d-%02d']. *)
Definition isoformat (d : date) : str :=
  dec_fixed 4 (year d) ++ "-" ++ dec_fixed 2 (month d)
    ++ "-" ++ dec_fixed 2 (day d).

(** [int(s)] for a string of decimal digits. *)
Definition int_of_digits (s : str) : Z :=
  fold_left (fun acc c => 10 * acc + (code c - 48)) s 0.

(** The longest prefix of decimal digits, and what follows it. *)
Fixpoint span_digits (s : str) : str * str :=
  match s with
  | c :: s' =>
      if is_digit c then let '(ds, r) := span_digits s' in (c :: ds, r)
      else ([], s)
  | [] => ([], [])
  end.

(** The pattern [date_re] of [django.utils.dateparse]: four digits, one
    or two digits, one or two digits, separated by hyphens, a final
    newline allowed by the pattern's dollar.  The answer is the three
    numbers of a match. *)
Definition date_re_match (s : str) : option (Z * Z * Z) :=
  let s := match rev s with
           | c :: r => if ch_eqb c "010" then rev r else s
           | [] => s
           end in
  let '(y, r1) := span_digits s in
  match r1 with
  | sep1 :: r1' =>
      let '(m, r2) := span_digits r1' in
      match r2 with
      | sep2 :: r2' =>
          let '(d, r3) := span_digits r2' in
          if ch_eqb sep1 "-" && ch_eqb sep2 "-"
             && (length y =? 4)%nat
             && ((1 <=? length m) && (length m <=? 2))%nat
             && ((1 <=? length d) && (length d <=? 2))%nat
             && is_empty r3
          then Some (int_of_digits y, int_of_digits m, int_of_digits d)
          else None
      | [] => None
      end
  | [] => None
  end.

(** [django.utils.dateparse.parse_date].  Before Django 4.0 it is the
    pattern and the [date] constructor; since then it tries
    [datetime.date.fromisoformat] first and falls back on the pattern.
    On text the pattern matches, all of these give what the constructor
    makes of the three numbers: [fromisoformat] reads no such text but
    the ten characters [YYYY-MM-DD], and reads them the same way.  On
    any other text the answer is that of the interpreter's
    [fromisoformat], the parameter here: nothing before Python 3.11,
    the compact and the week forms of ISO 8601 since.  A [date] object
    satisfies the constructor's range check, hence the filter.  [None]
    covers the missing match and the [ValueError] alike, as the
    serializer field treats them. *)
Definition parse_date (fromisoformat : str -> option date) (s : str)
  : option date :=
  match date_re_match s with
  | Some (y, m, d) => make_date y m d
  | None =>
      match fromisoformat s with
      | Some r => if valid_date r then Some r else None
      | None => None
      end
  end.

End Datetime.

(** ** Python values, exceptions and the request monad *)

Module Py.
Import Datetime.

(** An uploaded file as the request parser hands it over. *)
Record UploadedFile := { file_name : str; file_content : list Z }.

Definition file_size (f : UploadedFile) : Z :=
  Z.of_nat (length (file_content f)).

(** The values found in request payloads, keyword arguments and
    validated data.  [PUser pk] is a [User] instance with that key. *)
Inductive pyval :=
| PNone
| PBool (b : bool)
| PInt (n : Z)
| PStr (s : str)
| PDate (d : date)
| PFile (f : UploadedFile)
| PUser (pk : Z).

(** A [dict] whose insertion order is kept. *)
Abbreviation pydict := (list (string * pyval)).

Fixpoint dict_get (k : string) (d : pydict) : option pyval :=
  match d with
  | (k', v) :: d' => if String.eqb k k' then Some v else dict_get k d'
  | [] => None
  end.

(** [d[k] = v]. *)
Fixpoint dict_set (k : string) (v : pyval) (d : pydict) : pydict :=
  match d with
  | (k', v') :: d' =>
      if String.eqb k k' then (k', v) :: d' else (k', v') :: dict_set k v d'
  | [] => [(k, v)]
  end.

(** [{**a, **b}]. *)
Definition dict_merge (a b : pydict) : pydict :=
  fold_left (fun acc kv => dict_set kv.1 kv.2 acc) b a.

Definition dict_keys (d : pydict) : list string := map fst d.

Inductive exn :=
| ValueError (msg : string)
| TypeError
| IntegrityError
| MultipleObjectsReturned
| Http404
| NotAuthenticated
| ValidationError (errors : list (string * string)).

End Py.

(** ** [core/models.py] *)

Module Models.
Import PyStr OsPath Uuid Datetime Py.

(** [book_image_file_path(instance, filename)]; the instance is not
    used, and [urandom16] is the draw [uuid.uuid4()] makes. *)
Definition book_image_file_path (urandom16 : Z) (filename : str) : str :=
  let ext := (splitext filename).2 in
  let filename := to_str (uuid4 urandom16) ++ ext in
  join "uploads" ["book" : str; filename].

(** [class User]: the columns of [AbstractBaseUser], [PermissionsMixin]
    and the class body that the service reads or writes. *)
Record User := {
  email : str;
  name : str;
  password : str;
  is_active : bool;
  is_staff : bool;
  is_superuser : bool }.

(** [class Book]; [user_id] is the foreign key, [image] the stored
    file's name, [None] when the book has no image. *)
Record Book := {
  user_id : Z;
  title : str;
  author : str;
  release_date : date;
  genre : str;
  description : str;
  image : option str }.

(** What the deployment configures and the libraries under it compute:
    - the password hasher, [encode(password, salt)];
    - the random strings of [django.utils.crypto];
    - whether Pillow opens and verifies a content as an image;
    - whether Django's [validate_image_file_extension] lets a file name
      pass: the suffix of the name, in lower case, is an extension
      Pillow has registered;
    - the URL the storage gives a stored name, [storage.url(name)];
    - [request.build_absolute_uri], which puts the scheme and the host
      the service is reached under before such a URL; the model has
      one such host for the deployment;
    - the interpreter's [datetime.date.fromisoformat], [None] where it
      raises [ValueError]. *)
Record Env := {
  hasher_encode : str -> str -> str;
  get_random_string : nat -> Z -> str;
  image_verify : list Z -> bool;
  image_extension_allowed : str -> bool;
  storage_url : str -> str;
  build_absolute_uri : str -> str;
  date_fromisoformat : str -> option date }.

(** The database (two tables keyed by primary key, each with its key
    sequence), the stored media files, and the random source with the
    number of draws made so far. *)
Record World := {
  env : Env;
  users : gmap Z User;
  user_seq : Z;
  books : gmap Z Book;
  book_seq : Z;
  media : list (str * UploadedFile);
  urandom : nat -> Z;
  drawn : nat }.

Definition M (A : Type) : Type := World -> (exn + A) * World.

Definition ret {A} (a : A) : M A := fun w => (inr a, w).
Definition raise {A} (e : exn) : M A := fun w => (inl e, w).
Definition bind {A B} (m : M A) (k : A -> M B) : M B :=
  fun w => match m w with
           | (inr a, w') => k a w'
           | (inl e, w') => (inl e, w')
           end.
Definition get : M World := fun w => (inr w, w).

Notation "'let*' x ':=' m 'in' k" := (bind m (fun x => k))
  (at level 10, x name, m at level 100, k at level 200).

(** One draw from the random source. *)
Definition draw : M Z :=
  fun w =>
    (inr (urandom w (drawn w)),
     {| env := env w; users := users w; user_seq := user_seq w;
        books := books w; book_seq := book_seq w; media := media w;
        urandom := urandom w; drawn := S (drawn w) |}).

Definition set_users (us : gmap Z User) (seq : Z) : M unit :=
  fun w =>
    (inr tt,
     {| env := env w; users := us; user_seq := seq;
        books := books w; book_seq := book_seq w; media := media w;
        urandom := urandom w; drawn := drawn w |}).

Definition set_books (bs : gmap Z Book) (seq : Z) : M unit :=
  fun w =>
    (inr tt,
     {| env := env w; users := users w; user_seq := user_seq w;
        books := bs; book_seq := seq; media := media w;
        urandom := urandom w; drawn := drawn w |}).

Definition store_file (path : str) (f : UploadedFile) : M unit :=
  fun w =>
    (inr tt,
     {| env := env w; users := users w; user_seq := user_seq w;
        books := books w; book_seq := book_seq w;
        media := media w ++ [(path, f)];
        urandom := urandom w; drawn := drawn w |}).

(** *** Users *)

(** [BaseUserManager.normalize_email]: lower-case the domain part. *)
Definition normalize_email (email : option str) : str :=
  let email := match email with Some e => e | None => [] end in
  match rsplit1 "@" (strip email) with
  | Some (email_name, domain_part) =>
      email_name ++ "@" ++ lower domain_part
  | None => email
  end.

(** [django.contrib.auth.hashers.make_password]: without a password the
    stored value is an unusable marker, otherwise the hasher's encoding
    of the password under a fresh salt. *)
Definition make_password (password : option str) : M str :=
  let* w := get in
  let* r := draw in
  match password with
  | None => ret ("!" ++ get_random_string (env w) 40 r)
  | Some raw =>
      ret (hasher_encode (env w) raw (get_random_string (env w) 22 r))
  end.

(** The constructor [User( **extra_fields )] on one keyword, for the
    columns [name], [is_active], [is_staff] and [is_superuser] with a
    value of the column's type, and for a keyword that names nothing
    of the model, which the constructor refuses with [TypeError].  The
    other attributes of the model ([id], [pk], [last_login], the
    relations) and values of another type are not modelled: the
    statements about [create_user] are made for keyword arguments
    within the four columns. *)
Definition User_setattr (u : User) (kv : string * pyval) : exn + User :=
  let '(k, v) := kv in
  if String.eqb k "name" then
    match v with
    | PStr s =>
        inr {| email := email u; name := s; password := password u;
               is_active := is_active u; is_staff := is_staff u;
               is_superuser := is_superuser u |}
    | _ => inl TypeError
    end
  else if String.eqb k "is_active" then
    match v with
    | PBool b =>
        inr {| email := email u; name := name u; password := password u;
               is_active := b; is_staff := is_staff u;
               is_superuser := is_superuser u |}
    | _ => inl TypeError
    end
  else if String.eqb k "is_staff" then
    match v with
    | PBool b =>
        inr {| email := email u; name := name u; password := password u;
               is_active := is_active u; is_staff := b;
               is_superuser := is_superuser u |}
    | _ => inl TypeError
    end
  else if String.eqb k "is_superuser" then
    match v with
    | PBool b =>
        inr {| email := email u; name := name u; password := password u;
               is_active := is_active u; is_staff := is_staff u;
               is_superuser := b |}
    | _ => inl TypeError
    end
  else inl TypeError.

Fixpoint User_setattrs (u : User) (kwargs : pydict) : exn + User :=
  match kwargs with
  | [] => inr u
  | kv :: rest =>
      match User_setattr u kv with
      | inr u' => User_setattrs u' rest
      | inl e => inl e
      end
  end.

(** [User(email=..., **extra_fields)] with the column defaults. *)
Definition User_init (email : str) (extra_fields : pydict) : exn + User :=
  User_setattrs
    {| email := email; name := []; password := [];
       is_active := true; is_staff := false; is_superuser := false |}
    extra_fields.

Definition User_set_password (u : User) (encoded : str) : User :=
  {| email := email u; name := name u; password := encoded;
     is_active := is_active u; is_staff := is_staff u;
     is_superuser := is_superuser u |}.

Definition email_taken (e : str) (skip : option Z) (us : gmap Z User)
  : bool :=
  existsb (fun kv => bool_decide (email kv.2 = e)
                     && negb (bool_decide (Some kv.1 = skip)))
          (map_to_list us).

(** [user.save()]: an insert under the next key of the sequence for a
    new instance, an update of its row for a saved one; the unique
    index on [email] refuses a second row with the same address. *)
Definition User_save (pk : option Z) (u : User) : M Z :=
  let* w := get in
  if email_taken (email u) pk (users w) then raise IntegrityError
  else match pk with
       | None =>
           let id := user_seq w + 1 in
           let* done_ := set_users (<[id := u]> (users w)) id in
           ret id
       | Some id =>
           let* done_ := set_users (<[id := u]> (users w)) (user_seq w) in
           ret id
       end.

(** [UserManager.create_user(email, password=None, **extra_fields)]. *)
Definition create_user (email : option str) (password : option str)
    (extra_fields : pydict) : M (Z * User) :=
  if match email with Some e => is_empty e | None => true end
  then raise (ValueError "User must have an email address")
  else
    match User_init (normalize_email email) extra_fields with
    | inl e => raise e
    | inr user =>
        let* encoded := make_password password in
        let user := User_set_password user encoded in
        let* id := User_save None user in
        ret (id, user)
    end.

Definition User_set_super (u : User) : User :=
  {| email := email u; name := name u; password := password u;
     is_active := is_active u; is_staff := true; is_superuser := true |}.

(** [UserManager.create_superuser(email, password)]. *)
Definition create_superuser (email : option str) (password : option str)
  : M (Z * User) :=
  let* created := create_user email password [] in
  let id := created.1 in
  let user := User_set_super created.2 in
  let* saved := User_save (Some id) user in
  ret (id, user).

(** *** Books *)

(** A [Book] object in memory: its key once saved, its column values,
    and the uploaded file assigned to [image] that the next [save()]
    still has to hand to the storage. *)
Record BookInstance := {
  pk : option Z;
  row : Book;
  upload : option UploadedFile }.

Definition with_row (i : BookInstance) (b : Book) : BookInstance :=
  {| pk := pk i; row := b; upload := upload i |}.

(** [setattr(instance, attr, value)] for the attributes of a [Book];
    another name or a value of another type, which no caller passes,
    is refused. *)
Definition Book_setattr (i : BookInstance) (kv : string * pyval)
  : exn + BookInstance :=
  let b := row i in
  let '(k, v) := kv in
  if String.eqb k "user" then
    match v with
    | PUser uid =>
        inr (with_row i (Build_Book uid (title b) (author b)
               (release_date b) (genre b) (description b) (image b)))
    | _ => inl TypeError
    end
  else if String.eqb k "title" then
    match v with
    | PStr s =>
        inr (with_row i (Build_Book (user_id b) s (author b)
               (release_date b) (genre b) (description b) (image b)))
    | _ => inl TypeError
    end
  else if String.eqb k "author" then
    match v with
    | PStr s =>
        inr (with_row i (Build_Book (user_id b) (title b) s
               (release_date b) (genre b) (description b) (image b)))
    | _ => inl TypeError
    end
  else if String.eqb k "release_date" then
    match v with
    | PDate d =>
        inr (with_row i (Build_Book (user_id b) (title b) (author b)
               d (genre b) (description b) (image b)))
    | _ => inl TypeError
    end
  else if String.eqb k "genre" then
    match v with
    | PStr s =>
        inr (with_row i (Build_Book (user_id b) (title b) (author b)
               (release_date b) s (description b) (image b)))
    | _ => inl TypeError
    end
  else if String.eqb k "description" then
    match v with
    | PStr s =>
        inr (with_row i (Build_Book (user_id b) (title b) (author b)
               (release_date b) (genre b) s (image b)))
    | _ => inl TypeError
    end
  else if String.eqb k "image" then
    match v with
    | PFile f => inr {| pk := pk i; row := b; upload := Some f |}
    | PNone =>
        inr {| pk := pk i;
               row := Build_Book (user_id b) (title b) (author b)
                        (release_date b) (genre b) (description b) None;
               upload := None |}
    | _ => inl TypeError
    end
  else inl TypeError.

Fixpoint Book_setattrs (i : BookInstance) (attrs : pydict)
  : exn + BookInstance :=
  match attrs with
  | [] => inr i
  | kv :: rest =>
      match Book_setattr i kv with
      | inr i' => Book_setattrs i' rest
      | inl e => inl e
      end
  end.

Definition has_key (k : string) (d : pydict) : bool :=
  existsb (String.eqb k) (dict_keys d).

(** [Book( **kwargs )] as far as an insert accepts it.  The text
    columns default to the empty string and [image] to no file;
    [user] and [release_date] have no default and their columns are
    not nullable, so an instance built without them is refused
    ([IntegrityError]) and the placeholders below are never stored. *)
Definition Book_init (kwargs : pydict) : exn + BookInstance :=
  match Book_setattrs
          {| pk := None;
             row := Build_Book 0 [] [] (Date 1 1 1) [] [] None;
             upload := None |} kwargs with
  | inl e => inl e
  | inr i =>
      if has_key "user" kwargs && has_key "release_date" kwargs
      then inr i else inl IntegrityError
  end.

(** [instance.save()]: a pending upload is stored first, under the
    name [book_image_file_path] generates (the [upload_to] of the
    [image] column), then the row is inserted or updated. *)
Definition Book_save (i : BookInstance) : M BookInstance :=
  let* b :=
    match upload i with
    | Some f =>
        let* r := draw in
        let path := book_image_file_path r (file_name f) in
        let* stored := store_file path f in
        let b := row i in
        ret (Build_Book (user_id b) (title b) (author b)
               (release_date b) (genre b) (description b) (Some path))
    | None => ret (row i)
    end in
  let* w := get in
  match pk i with
  | None =>
      let id := book_seq w + 1 in
      let* done_ := set_books (<[id := b]> (books w)) id in
      ret {| pk := Some id; row := b; upload := None |}
  | Some id =>
      let* done_ := set_books (<[id := b]> (books w)) (book_seq w) in
      ret {| pk := Some id; row := b; upload := None |}
  end.

(** [Book.objects.create( **kwargs )]. *)
Definition Book_objects_create (kwargs : pydict) : M BookInstance :=
  match Book_init kwargs with
  | inl e => raise e
  | inr i => Book_save i
  end.

(** [instance.delete()]. *)
Definition Book_delete (id : Z) : M unit :=
  let* w := get in
  set_books (delete id (books w)) (book_seq w).

(** [getattr(instance, name)]; the [image] attribute is shown by the
    name of its stored file. *)
Definition Book_getattr (id : Z) (b : Book) (name : string) : pyval :=
  if String.eqb name "id" then PInt id
  else if String.eqb name "user" then PUser (user_id b)
  else if String.eqb name "title" then PStr (title b)
  else if String.eqb name "author" then PStr (author b)
  else if String.eqb name "release_date" then PDate (release_date b)
  else if String.eqb name "genre" then PStr (genre b)
  else if String.eqb name "description" then PStr (description b)
  else if String.eqb name "image" then
    match image b with Some stored => PStr stored | None => PNone end
  else PNone.

(** The declared columns of [Book], with the implicit [id]. *)
Inductive column_type :=
| AutoField
| ForeignKey
| ModelCharField (max_length : Z)
| ModelTextField
| ModelDateField
| ModelImageField.

Record Column := {
  col_name : string;
  col_type : column_type;
  col_null : bool }.

Definition Book_columns : list Column :=
  [ {| col_name := "id"; col_type := AutoField; col_null := false |};
    {| col_name := "user"; col_type := ForeignKey; col_null := false |};
    {| col_name := "title"; col_type := ModelCharField 255;
       col_null := false |};
    {| col_name := "author"; col_type := ModelCharField 255;
       col_null := false |};
    {| col_name := "release_date"; col_type := ModelDateField;
       col_null := false |};
    {| col_name := "genre"; col_type := ModelCharField 255;
       col_null := false |};
    {| col_name := "description"; col_type := ModelTextField;
       col_null := false |};
    {| col_name := "image"; col_type := ModelImageField;
       col_null := true |} ].

End Models.

(** ** The REST framework's model serializers *)

Module RestFramework.
Import PyStr Datetime Py Models.

Inductive field_type :=
| IntegerField
| PrimaryKeyRelatedField
| CharField (max_length : option Z)
| DateField
| ImageField (max_length : Z).

Record Field := {
  field_name : string;
  field_type_of : field_type;
  read_only : bool;
  required : bool;
  allow_null : bool }.

(** The [Meta] class of a [ModelSerializer]; [extra_required] is the
    truth value of the [required] entries of [extra_kwargs]. *)
Record Meta := {
  fields : list string;
  read_only_fields : list string;
  extra_required : list (string * bool) }.

Definition in_names (n : string) (l : list string) : bool :=
  existsb (String.eqb n) l.

Fixpoint assoc_bool (n : string) (l : list (string * bool)) : option bool :=
  match l with
  | (k, v) :: l' => if String.eqb n k then Some v else assoc_bool n l'
  | [] => None
  end.

(** [ModelSerializer.build_field] with [get_field_kwargs] and
    [include_extra_kwargs]: a column that is an [AutoField] is
    read-only; a nullable column is optional and accepts null; the
    file columns carry Django's default [max_length] of 100. *)
Definition build_field (meta : Meta) (c : Column) : Field :=
  let ro := match col_type c with AutoField => true | _ => false end
            || in_names (col_name c) (read_only_fields meta) in
  let req := if ro then false
             else match assoc_bool (col_name c) (extra_required meta) with
                  | Some r => r
                  | None => negb (col_null c)
                  end in
  {| field_name := col_name c;
     field_type_of :=
       match col_type c with
       | AutoField => IntegerField
       | ForeignKey => PrimaryKeyRelatedField
       | ModelCharField n => CharField (Some n)
       | ModelTextField => CharField None
       | ModelDateField => DateField
       | ModelImageField => ImageField 100
       end;
     read_only := ro;
     required := req;
     allow_null := col_null c |}.

Definition find_column (n : string) : option Column :=
  find (fun c => String.eqb n (col_name c)) Book_columns.

(** [ModelSerializer.get_fields]: one field per declared name, in the
    declared order. *)
Definition get_fields (meta : Meta) : list Field :=
  omap (fun n => build_field meta <$> find_column n) (fields meta).

Definition writable_fields (meta : Meta) : list Field :=
  filter (fun f => read_only f = false) (get_fields meta).

(** What a request body looks like to the fields: a JSON object, or a
    form ([html] set) whose values are strings and files. *)
Record RequestData := {
  items : gmap string pyval;
  html : bool }.

(** [Field.get_value(dictionary)]; [None] is the [empty] marker. *)
Definition get_value (f : Field) (data : RequestData) : option pyval :=
  if html data then
    match items data !! field_name f with
    | None => None
    | Some (PStr []) =>
        if allow_null f then Some PNone
        else if negb (required f) then None
        else Some (PStr [])
    | Some v => Some v
    end
  else items data !! field_name f.

Inductive outcome :=
| Valid (v : pyval)
| Skip
| Invalid (code : string).

(** [str(n)] for an integer. *)
Definition str_of_int (n : Z) : str :=
  DecimalString.NilZero.string_of_int (Z.to_int n).

(** [CharField.to_internal_value] followed by the field's validators
    (maximal length, no null characters). *)
Definition char_to_internal (max_length : option Z) (s : str) : outcome :=
  let value := strip s in
  if match max_length with
     | Some n => n <? Z.of_nat (length value)
     | None => false
     end
  then Invalid "max_length"
  else if existsb (fun c => ch_eqb c "000") value
  then Invalid "null_characters_not_allowed"
  else Valid (PStr value).

(** [to_internal_value] and [run_validators] of each field class, for
    data that is neither [empty] nor [None].  The image field is the
    file field's checks (a name, a content, the length of the name),
    then the [clean] of Django's image form field: Pillow's check of
    the content, then the validator of the name's extension. *)
Definition to_internal_value (w : World) (t : field_type) (data : pyval)
  : outcome :=
  match t, data with
  | CharField n, PStr s =>
      if is_empty (strip s) then Invalid "blank" else char_to_internal n s
  | CharField n, PInt k => char_to_internal n (str_of_int k)
  | CharField _, PFile f =>
      if is_empty (strip (file_name f)) then Invalid "blank"
      else Invalid "invalid"
  | CharField _, _ => Invalid "invalid"
  | DateField, PDate d => Valid (PDate d)
  | DateField, PStr s =>
      match parse_date (date_fromisoformat (env w)) s with
      | Some d => Valid (PDate d)
      | None => Invalid "invalid"
      end
  | DateField, _ => Invalid "invalid"
  | ImageField n, PFile f =>
      if is_empty (file_name f) then Invalid "no_name"
      else if file_size f =? 0 then Invalid "empty"
      else if n <? Z.of_nat (length (file_name f)) then Invalid "max_length"
      else if negb (image_verify (env w) (file_content f))
      then Invalid "invalid_image"
      else if negb (image_extension_allowed (env w) (file_name f))
      then Invalid "invalid_extension"
      else Valid (PFile f)
  | ImageField _, _ => Invalid "invalid"
  | PrimaryKeyRelatedField, PInt k =>
      match users w !! k with
      | Some _ => Valid (PUser k)
      | None => Invalid "does_not_exist"
      end
  | PrimaryKeyRelatedField, _ => Invalid "incorrect_type"
  | IntegerField, PInt k => Valid (PInt k)
  | IntegerField, _ => Invalid "invalid"
  end.

(** [Field.run_validation] with [validate_empty_values]. *)
Definition run_validation (w : World) (partial : bool) (f : Field)
    (data : option pyval) : outcome :=
  match data with
  | None =>
      if partial then Skip
      else if required f then Invalid "required"
      else Skip
  | Some PNone =>
      if allow_null f then Valid PNone else Invalid "null"
  | Some v => to_internal_value w (field_type_of f) v
  end.

(** [Serializer.to_internal_value]: every writable field in turn; the
    errors of all fields are collected. *)
Fixpoint validate_fields (w : World) (partial : bool) (fs : list Field)
    (data : RequestData) : list (string * string) * pydict :=
  match fs with
  | [] => ([], [])
  | f :: fs' =>
      let '(errors, ret) := validate_fields w partial fs' data in
      match run_validation w partial f (get_value f data) with
      | Valid v => (errors, (field_name f, v) :: ret)
      | Skip => (errors, ret)
      | Invalid code => ((field_name f, code) :: errors, ret)
      end
  end.

(** [serializer.is_valid()]: the validated data, or the errors. *)
Definition is_valid (w : World) (meta : Meta) (partial : bool)
    (data : RequestData) : list (string * string) + pydict :=
  match validate_fields w partial (writable_fields meta) data with
  | ([], validated_data) => inr validated_data
  | (errors, _) => inl errors
  end.

(** [field.to_representation(attribute)]; an attribute that is
    [None] is rendered as [None] whatever the field.  A file with an
    empty name counts as no file; any other is rendered as its URL,
    made absolute by the request the view set puts in the serializer's
    context. *)
Definition field_to_representation (w : World) (t : field_type)
    (attribute : pyval) : pyval :=
  match t, attribute with
  | _, PNone => PNone
  | PrimaryKeyRelatedField, PUser k => PInt k
  | DateField, PDate d => PStr (isoformat d)
  | ImageField _, PStr stored =>
      if is_empty stored then PNone
      else PStr (build_absolute_uri (env w) (storage_url (env w) stored))
  | _, v => v
  end.

Definition represent (w : World) (id : Z) (b : Book) (f : Field) : pyval :=
  field_to_representation w (field_type_of f)
    (Book_getattr id b (field_name f)).

(** [Serializer.to_representation], the content of [serializer.data]. *)
Definition to_representation (w : World) (meta : Meta) (id : Z) (b : Book)
  : pydict :=
  map (fun f => (field_name f, represent w id b f)) (get_fields meta).

(** [serializer.save( **kwargs )] for a serializer without instance:
    [ModelSerializer.create] on the validated data extended by the
    keyword arguments. *)
Definition save_new (validated_data kwargs : pydict) : M BookInstance :=
  Book_objects_create (dict_merge validated_data kwargs).

(** [serializer.save( **kwargs )] for a serializer with an instance:
    [ModelSerializer.update]. *)
Definition save_existing (i : BookInstance) (validated_data kwargs : pydict)
  : M BookInstance :=
  match Book_setattrs i (dict_merge validated_data kwargs) with
  | inl e => raise e
  | inr i' => Book_save i'
  end.

End RestFramework.

(** ** [book/serializers.py] *)

Module Serializers.
Import RestFramework.

Definition BookSerializer : Meta :=
  {| fields := ["id"; "title"; "author"; "release_date"; "genre";
                "description"; "image"]%string;
     read_only_fields := ["id"%string];
     extra_required := [] |}.

(** The string ['True'] given for [required] is a true value. *)
Definition BookImageSerializer : Meta :=
  {| fields := ["id"; "image"]%string;
     read_only_fields := ["id"%string];
     extra_required := [("image"%string, true)] |}.

End Serializers.

(** ** [book/views.py] *)

Module Views.
Import Py Models RestFramework Serializers.

(** A request after authentication and parsing: [user] is the key of
    the account the token resolved to, or [None]. *)
Record Request := {
  user : option Z;
  data : RequestData }.

Inductive Action :=
| list_action
| create_action
| retrieve_action
| update_action
| partial_update_action
| destroy_action
| upload_image_action.

Inductive Body :=
| NoContent
| Detail (message : string)
| Errors (errors : list (string * string))
| Object (o : pydict)
| Objects (os : list pydict).

Record Response := {
  status_code : Z;
  body : Body }.

(** [order_by("-id")]: rows with larger keys first. *)
Definition id_ge (x y : Z * Book) : Prop := y.1 <= x.1.

Global Instance id_ge_dec : RelDecision id_ge.
Proof. intros x y. unfold id_ge. apply _. Defined.

Definition order_by_id_desc (rows : list (Z * Book)) : list (Z * Book) :=
  merge_sort id_ge rows.

(** [BookViewSet.get_queryset]:
    [self.queryset.filter(user=self.request.user).order_by("-id")]. *)
Definition get_queryset (caller : Z) (w : World) : list (Z * Book) :=
  order_by_id_desc
    (filter (fun r => user_id r.2 = caller) (map_to_list (books w))).

(** [BookViewSet.get_serializer_class]. *)
Definition get_serializer_class (action : Action) : Meta :=
  match action with
  | list_action => BookSerializer
  | upload_image_action => BookImageSerializer
  | _ => BookSerializer
  end.

(** [GenericAPIView.get_object]: the one row of the query set with the
    key of the URL, [Http404] when there is none. *)
Definition get_object (caller : Z) (id : Z) : M BookInstance :=
  let* w := get in
  match filter (fun r => r.1 = id) (get_queryset caller w) with
  | [] => raise Http404
  | [r] => ret {| pk := Some r.1; row := r.2; upload := None |}
  | _ => raise MultipleObjectsReturned
  end.

Definition instance_data (meta : Meta) (i : BookInstance) : M pydict :=
  let* w := get in
  ret (to_representation w meta (default 0 (pk i)) (row i)).

(** [is_valid(raise_exception=True)]. *)
Definition validated (meta : Meta) (partial : bool) (d : RequestData)
  : M pydict :=
  let* w := get in
  match is_valid w meta partial d with
  | inr validated_data => ret validated_data
  | inl errors => raise (ValidationError errors)
  end.

(** [BookViewSet.perform_create]: [serializer.save(user=request.user)]. *)
Definition perform_create (caller : Z) (validated_data : pydict)
  : M BookInstance :=
  save_new validated_data [("user"%string, PUser caller)].

(** [ListModelMixin.list]. *)
Definition list_books (caller : Z) : M Response :=
  let* w := get in
  let meta := get_serializer_class list_action in
  ret {| status_code := 200;
         body := Objects (map (fun r => to_representation w meta r.1 r.2)
                              (get_queryset caller w)) |}.

(** [CreateModelMixin.create]. *)
Definition create (caller : Z) (d : RequestData) : M Response :=
  let meta := get_serializer_class create_action in
  let* validated_data := validated meta false d in
  let* i := perform_create caller validated_data in
  let* o := instance_data meta i in
  ret {| status_code := 201; body := Object o |}.

(** [RetrieveModelMixin.retrieve]. *)
Definition retrieve (caller : Z) (id : Z) : M Response :=
  let* i := get_object caller id in
  let* o := instance_data (get_serializer_class retrieve_action) i in
  ret {| status_code := 200; body := Object o |}.

(** [UpdateModelMixin.update] and [partial_update]; [perform_update]
    is [serializer.save()]. *)
Definition update_with (action : Action) (partial : bool) (caller : Z)
    (id : Z) (d : RequestData) : M Response :=
  let meta := get_serializer_class action in
  let* i := get_object caller id in
  let* validated_data := validated meta partial d in
  let* i' := save_existing i validated_data [] in
  let* o := instance_data meta i' in
  ret {| status_code := 200; body := Object o |}.

Definition update := update_with update_action false.
Definition partial_update := update_with partial_update_action true.

(** [DestroyModelMixin.destroy]. *)
Definition destroy (caller : Z) (id : Z) : M Response :=
  let* i := get_object caller id in
  let* done_ := Book_delete id in
  ret {| status_code := 204; body := NoContent |}.

(** [BookViewSet.upload_image]. *)
Definition upload_image (caller : Z) (id : Z) (d : RequestData)
  : M Response :=
  let meta := get_serializer_class upload_image_action in
  let* book := get_object caller id in
  let* w := get in
  match is_valid w meta false d with
  | inr validated_data =>
      let* book' := save_existing book validated_data [] in
      let* o := instance_data meta book' in
      ret {| status_code := 200; body := Object o |}
  | inl errors =>
      ret {| status_code := 400; body := Errors errors |}
  end.

(** [APIView.handle_exception]: the exceptions the framework answers
    itself; any other one is a server error. *)
Definition exception_response (e : exn) : Response :=
  match e with
  | Http404 => {| status_code := 404; body := Detail "Not found." |}
  | NotAuthenticated =>
      {| status_code := 401;
         body := Detail "Authentication credentials were not provided." |}
  | ValidationError errors => {| status_code := 400; body := Errors errors |}
  | _ => {| status_code := 500; body := NoContent |}
  end.

(** [APIView.dispatch]: [IsAuthenticated] first, then the handler. *)
Definition dispatch (handler : Z -> M Response) (request : Request)
    (w : World) : Response * World :=
  match user request with
  | None => (exception_response NotAuthenticated, w)
  | Some caller =>
      match handler caller w with
      | (inr response, w') => (response, w')
      | (inl e, w') => (exception_response e, w')
      end
  end.

(** The routes of the view set. *)
Definition api_list (request : Request) :=
  dispatch list_books request.
Definition api_create (request : Request) :=
  dispatch (fun caller => create caller (data request)) request.
Definition api_retrieve (id : Z) (request : Request) :=
  dispatch (fun caller => retrieve caller id) request.
Definition api_update (id : Z) (request : Request) :=
  dispatch (fun caller => update caller id (data request)) request.
Definition api_partial_update (id : Z) (request : Request) :=
  dispatch (fun caller => partial_update caller id (data request)) request.
Definition api_destroy (id : Z) (request : Request) :=
  dispatch (fun caller => destroy caller id) request.
Definition api_upload_image (id : Z) (request : Request) :=
  dispatch (fun caller => upload_image caller id (data request)) request.

End Views.

(** ** Vocabulary of the statements, and a sample deployment *)

Module Spec.
Import PyStr Datetime Py Models RestFramework Serializers Views.

(** The Python type a field's validated value has. *)
Definition typed_for (t : field_type) (v : pyval) : Prop :=
  match t with
  | IntegerField => exists k, v = PInt k
  | PrimaryKeyRelatedField => exists k, v = PUser k
  | CharField _ => exists s, v = PStr s
  | DateField => exists d, v = PDate d
  | ImageField _ => exists f, v = PFile f
  end.

(** The fields the two serializers build for the columns of [Book]. *)
Definition char_field (n : string) (max : option Z) : Field :=
  {| field_name := n; field_type_of := CharField max; read_only := false;
     required := true; allow_null := false |}.

Definition image_field (req : bool) : Field :=
  {| field_name := "image"; field_type_of := ImageField 100;
     read_only := false; required := req; allow_null := true |}.

Definition date_field : Field :=
  {| field_name := "release_date"; field_type_of := DateField;
     read_only := false; required := true; allow_null := false |}.

(** Every book of [w] is still there in [w'], with the same owner. *)
Definition owners_kept (w w' : World) : Prop :=
  forall j b, books w !! j = Some b ->
    exists b', books w' !! j = Some b' /\ user_id b' = user_id b.

(** The keys of the object a response carries, if it carries one. *)
Definition body_keys (r : Response) : list string :=
  match body r with
  | Object o => dict_keys o
  | _ => []
  end.

(** The checks of the image field on an uploaded file: a name, of at
    most 100 characters, a non-empty content that Pillow verifies as
    an image, and a name whose extension is an image extension. *)
Definition accepted_file (w : World) (f : UploadedFile) : bool :=
  negb (is_empty (file_name f)) && negb (file_size f =? 0)
  && (Z.of_nat (length (file_name f)) <=? 100)
  && image_verify (env w) (file_content f)
  && image_extension_allowed (env w) (file_name f).

Definition accepted_upload (w : World) (v : pyval) : Prop :=
  exists f, v = PFile f /\ accepted_file w f = true.

(** What the payload literally holds under [image], and whether that
    is an image the deployment can decode. *)
Definition decodable_image (w : World) (v : pyval) : Prop :=
  exists f, v = PFile f /\ image_verify (env w) (file_content f) = true.

(** What the [image] field of the upload serializer reads from the
    request: [None] when the key is absent, [Some PNone] for a JSON
    null or the empty string of a form. *)
Definition image_value (d : RequestData) : option pyval :=
  get_value (image_field true) d.

(** Text as the serializer's character fields hand it on: not blank,
    no white space around it, no null character, within the length
    limit of the column. *)
Definition clean_text (max : option Z) (s : str) : bool :=
  negb (is_empty s) && str_eqb (strip s) s
  && match max with
     | Some n => Z.of_nat (length s) <=? n
     | None => true
     end
  && negb (existsb (fun c => ch_eqb c "000") s).

(** Keyword arguments [create_user] can pass on to the model. *)
Definition valid_extra_fields (extra : pydict) : bool :=
  forallb (fun kv : string * pyval =>
             match kv.2 with
             | PStr _ => String.eqb kv.1 "name"
             | PBool _ => String.eqb kv.1 "is_active"
                          || String.eqb kv.1 "is_staff"
                          || String.eqb kv.1 "is_superuser"
             | _ => false
             end) extra.


(** The value [set_password] stores for a given password. *)
Definition encoded_password (w : World) (password : option str) : str :=
  match password with
  | None => "!" ++ get_random_string (env w) 40 (urandom w (drawn w))
  | Some raw =>
      hasher_encode (env w) raw
        (get_random_string (env w) 22 (urandom w (drawn w)))
  end.

(** A request body that is the JSON object [o]. *)
Definition json (o : pydict) : RequestData :=
  {| items := list_to_map o; html := false |}.

(** The 43 bytes of a GIF image of one pixel. *)
Definition pixel_gif : list Z :=
  [71; 73; 70; 56; 57; 97; 1; 0; 1; 0; 128; 0; 0; 0; 0; 0; 255; 255; 255;
   33; 249; 4; 1; 0; 0; 0; 0; 44; 0; 0; 0; 0; 1; 0; 1; 0; 0; 2; 2; 68; 1;
   0; 59].

(** A name [stem.ext] whose stem does not end in a separator or a dot
    and whose extension is, in lower case, one of four that Pillow
    registers. *)
Definition sample_extension_allowed (name : str) : bool :=
  match rsplit1 "." name with
  | Some (stem, ext) =>
      match rev stem with
      | c :: _ => negb (ch_eqb c "/") && negb (ch_eqb c ".")
      | [] => false
      end
      && existsb (str_eqb (lower ext)) ["gif" : str; "jpg" : str;
                                        "jpeg" : str; "png" : str]
  | None => false
  end.

(** A sample deployment: a hasher that tags and reverses, a random
    string that does not look at its entropy, an image check that
    knows the one-pixel GIF and nothing else, media served under
    [/media/] of the test client's host, an interpreter before
    Python 3.11. *)
Definition sample_env : Env :=
  {| hasher_encode := fun raw salt => "sample$" ++ salt ++ "$" ++ rev raw;
     get_random_string := fun n _ => repeat "x"%char n;
     image_verify := fun content => bool_decide (content = pixel_gif);
     image_extension_allowed := sample_extension_allowed;
     storage_url := fun stored => "/media/" ++ stored;
     build_absolute_uri := fun url => "http://testserver" ++ url;
     date_fromisoformat := fun _ => None |}.

Definition sample_book (owner : Z) (stored : option str) : Book :=
  {| user_id := owner; title := "T"; author := "Au";
     release_date := Date 2030 9 12; genre := "G"; description := "D";
     image := stored |}.

(** A book whose title starts with a blank, as the ORM can store it. *)
Definition padded_book : Book :=
  {| user_id := 1; title := " T"; author := "Au";
     release_date := Date 2030 9 12; genre := "G"; description := "D";
     image := None |}.

Definition sample_user (address : str) : User :=
  {| email := address; name := []; password := "sample$s$wp";
     is_active := true; is_staff := false; is_superuser := false |}.

(** Two accounts; book 1 belongs to account 1, book 2 (with an image)
    to account 2. *)
Definition sample_world : World :=
  {| env := sample_env;
     users := {[ 1 := sample_user "a@example.com";
                 2 := sample_user "b@example.com" ]};
     user_seq := 2;
     books := {[ 1 := sample_book 1 None;
                 2 := sample_book 2 (Some ("uploads/book/old.jpg" : str)) ]};
     book_seq := 2;
     media := [];
     urandom := fun n => Z.of_nat n + 7;
     drawn := 0 |}.

(** The sample database under an interpreter from Python 3.11 on, as
    far as the one compact date below goes. *)
Definition compact_world : World :=
  {| env := {| hasher_encode := hasher_encode sample_env;
               get_random_string := get_random_string sample_env;
               image_verify := image_verify sample_env;
               image_extension_allowed := image_extension_allowed sample_env;
               storage_url := storage_url sample_env;
               build_absolute_uri := build_absolute_uri sample_env;
               date_fromisoformat :=
                 fun s => if str_eqb s "20300912"
                          then Some (Date 2030 9 12) else None |};
     users := users sample_world;
     user_seq := user_seq sample_world;
     books := books sample_world;
     book_seq := book_seq sample_world;
     media := media sample_world;
     urandom := urandom sample_world;
     drawn := drawn sample_world |}.

(** A create payload whose date is in the compact form of ISO 8601. *)
Definition compact_date_payload : RequestData :=
  json [("title"%string, PStr "Sample book title");
        ("author"%string, PStr "sample author name");
        ("release_date"%string, PStr "20300912");
        ("genre"%string, PStr "sample genre");
        ("description"%string, PStr "sample desc")].

(** A JSON body whose [image] is null, and a GIF upload. *)
Definition null_image_payload : RequestData :=
  json [("image"%string, PNone)].

Definition sample_upload : UploadedFile :=
  {| file_name := "photo.gif"; file_content := pixel_gif |}.

(** The payload of [test_create_book]. *)
Definition test_create_payload : RequestData :=
  json [("title"%string, PStr "Sample book title");
        ("author"%string, PStr "sample author name");
        ("release_date"%string, PStr "2000-08-14");
        ("genre"%string, PStr "sample genre");
        ("description"%string, PStr "sample desc")].

(** The form body of [test_upload_image_bad_request]. *)
Definition test_bad_image_payload : RequestData :=
  {| items := {[ "image"%string := PStr "notanimage" ]}; html := true |}.

Definition sample_payload : RequestData :=
  json [("title"%string, PStr "Title"); ("author"%string, PStr "Author");
        ("release_date"%string, PStr "2000-08-14");
        ("genre"%string, PStr "Genre");
        ("description"%string, PStr "Text");
        ("user"%string, PInt 2)].

End Spec.

(** ** The routes of the service, and the vocabulary of its invariants *)

Module Coverage.
Import PyStr OsPath Datetime Py Models RestFramework Serializers Views Spec.

(** The routes the router derives from [BookViewSet]: the collection
    ([GET], [POST]), the item ([GET], [PUT], [PATCH], [DELETE]) and the
    extra action [upload-image] ([POST]). *)
Inductive Route :=
| GetList
| PostList
| GetItem (id : Z)
| PutItem (id : Z)
| PatchItem (id : Z)
| DeleteItem (id : Z)
| PostUploadImage (id : Z).

Definition serve (route : Route) : Request -> World -> Response * World :=
  match route with
  | GetList => api_list
  | PostList => api_create
  | GetItem id => api_retrieve id
  | PutItem id => api_update id
  | PatchItem id => api_partial_update id
  | DeleteItem id => api_destroy id
  | PostUploadImage id => api_upload_image id
  end.

(** The objects a response body carries. *)
Definition response_objects (r : Response) : list pydict :=
  match body r with
  | Object o => [o]
  | Objects os => os
  | _ => []
  end.

(** The errors a response body carries. *)
Definition response_errors (r : Response) : list (string * string) :=
  match body r with
  | Errors errors => errors
  | _ => []
  end.

(** No key of the book table lies beyond the last key the sequence
    handed out. *)
Definition book_keys_in_seq (w : World) : Prop :=
  forall k b, books w !! k = Some b -> k <= book_seq w.

Definition user_keys_in_seq (w : World) : Prop :=
  forall k u, users w !! k = Some u -> k <= user_seq w.

(** No two rows of the user table have the same address. *)
Definition emails_unique (w : World) : Prop :=
  forall k1 k2 u1 u2,
    users w !! k1 = Some u1 -> users w !! k2 = Some u2 ->
    email u1 = email u2 -> k1 = k2.

(** A row as the full serializer writes it. *)
Definition clean_book (b : Book) : bool :=
  clean_text (Some 255) (title b) && clean_text (Some 255) (author b)
  && clean_text (Some 255) (genre b) && clean_text None (description b)
  && valid_date (release_date b).

Definition books_clean (w : World) : Prop :=
  forall k b, books w !! k = Some b -> clean_book b = true.

(** What the full serializer hands on for a column: clean text within
    the column's limit, a calendar date; no condition on the image. *)
Definition clean_value (k : string) (v : pyval) : Prop :=
  if String.eqb k "title" || String.eqb k "author" || String.eqb k "genre"
  then exists s, v = PStr s /\ clean_text (Some 255) s = true
  else if String.eqb k "description"
  then exists s, v = PStr s /\ clean_text None s = true
  else if String.eqb k "release_date"
  then exists dt, v = PDate dt /\ valid_date dt = true
  else True.

(** The characters of a printed integer. *)
Definition dec_char (c : ascii) : bool := is_digit c || ch_eqb c "-".

(** What a parsed request body can hold: JSON values and uploaded
    files, but no [date] objects and no model instances. *)
Definition wire_value (v : pyval) : bool :=
  match v with
  | PDate _ | PUser _ => false
  | _ => true
  end.

Definition wire_payload (d : RequestData) : Prop :=
  forall k v, items d !! k = Some v -> wire_value v = true.

(** The rows of [w] that belong to [C]. *)
Definition owned_by (C : Z) (w : World) : gmap Z Book :=
  filter (fun kv => user_id kv.2 = C) (books w).

(** [str.lstrip(c)] and [str.rstrip(c)] for one character [c]. *)
Fixpoint lstrip_char (c : ascii) (s : str) : str :=
  match s with
  | x :: s' => if ch_eqb x c then lstrip_char c s' else s
  | [] => []
  end.

Definition rstrip_char (c : ascii) (s : str) : str :=
  rev (lstrip_char c (rev s)).

(** [posixpath.dirname]. *)
Definition dirname (p : str) : str :=
  let i := rfind "/" p + 1 in
  let head := upto i p in
  if negb (is_empty head) && negb (forallb (fun x => ch_eqb x "/") head)
  then rstrip_char "/" head
  else head.

(** The columns of a book that hold plain values, by name. *)
Definition plain_columns : list string :=
  ["user"; "title"; "author"; "release_date"; "genre";
   "description"]%string.

(** What a request of caller [C] can do to the book table: nothing, or
    insert one row of [C]'s under the next key, or replace or delete
    one row of [C]'s. *)
Inductive book_effect (C : Z) (w w' : World) : Prop :=
| effect_none :
    books w' = books w -> book_seq w' = book_seq w -> book_effect C w w'
| effect_insert b :
    books w' = <[book_seq w + 1 := b]> (books w) ->
    book_seq w' = book_seq w + 1 -> user_id b = C -> book_effect C w w'
| effect_update id b b' :
    books w !! id = Some b -> user_id b = C -> user_id b' = C ->
    books w' = <[id := b']> (books w) -> book_seq w' = book_seq w ->
    book_effect C w w'
| effect_delete id b :
    books w !! id = Some b -> user_id b = C ->
    books w' = delete id (books w) -> book_seq w' = book_seq w ->
    book_effect C w w'.

(** The key in the URL of an item route. *)
Definition route_item (route : Route) : option Z :=
  match route with
  | GetList | PostList => None
  | GetItem id | PutItem id | PatchItem id | DeleteItem id
  | PostUploadImage id => Some id
  end.

(** The status codes a route answers an authenticated request with. *)
Definition route_statuses (route : Route) : list Z :=
  match route with
  | GetList => [200]
  | PostList => [201; 400]
  | GetItem _ => [200; 404]
  | PutItem _ | PatchItem _ | PostUploadImage _ => [200; 400; 404]
  | DeleteItem _ => [204; 404]
  end.

(** The routes that validate a payload with the full serializer, and
    whether they do so partially. *)
Definition route_partial (route : Route) : option bool :=
  match route with
  | PostList | PutItem _ => Some false
  | PatchItem _ => Some true
  | _ => None
  end.

(** The caller may use the route: a collection route, or an item route
    on a book of the caller's. *)
Definition route_allowed (route : Route) (C : Z) (w : World) : Prop :=
  match route_item route with
  | Some id => exists b, books w !! id = Some b /\ user_id b = C
  | None => True
  end.

Definition required_columns : list string :=
  ["title"; "author"; "release_date"; "genre"; "description"]%string.

Definition bounded_columns : list string :=
  ["title"; "author"; "genre"]%string.

(** The action the router names for a route. *)
Definition route_action (route : Route) : Action :=
  match route with
  | GetList => list_action
  | PostList => create_action
  | GetItem _ => retrieve_action
  | PutItem _ => update_action
  | PatchItem _ => partial_update_action
  | DeleteItem _ => destroy_action
  | PostUploadImage _ => upload_image_action
  end.

(** The keys of a request body a route can write from. *)
Definition payload_keys (route : Route) : list string :=
  map field_name (writable_fields (get_serializer_class (route_action route))).

Definition not_found : Response :=
  {| status_code := 404; body := Detail "Not found." |}.

(** What no book route touches: accounts, configuration, the random
    source; stored files are only ever added. *)
Definition rest_kept (w w' : World) : Prop :=
  users w' = users w /\ user_seq w' = user_seq w /\ env w' = env w
  /\ urandom w' = urandom w /\ exists added, media w' = media w ++ added.

(** The image reference a save leaves, given the validated data. *)
Definition saved_image (w : World) (vd : pydict) (old : option str)
  : option str :=
  match dict_get "image" vd with
  | Some (PFile f) =>
      Some (book_image_file_path (urandom w (drawn w)) (file_name f))
  | Some _ => None
  | None => old
  end.

End Coverage.

(** * Properties *)

Import PyStr OsPath Uuid Datetime Py Models RestFramework Serializers Views Spec.

(** ** Text, paths and UUIDs *)

Section TextLemmas.

Lemma ch_eqb_eq (a b : ascii) : ch_eqb a b = true <-> a = b.
Proof. unfold ch_eqb. apply Ascii.eqb_eq. Qed.

Lemma ch_eqb_neq (a b : ascii) : ch_eqb a b = false <-> a <> b.
Proof. unfold ch_eqb. apply Ascii.eqb_neq. Qed.

Lemma rfind_bounds c s : -1 <= rfind c s < Z.of_nat (length s).
Proof.
  induction s as [|x s IH]; simpl; [lia|].
  destruct (Z.leb_spec 0 (rfind c s)); [lia|].
  destruct (ch_eqb x c); lia.
Qed.

Lemma rfind_absent c s : c ∉ s -> rfind c s = -1.
Proof.
  induction s as [|x s IH]; simpl; [done|].
  intros Hn. apply not_elem_of_cons in Hn as [Hx Hs].
  rewrite (IH Hs). simpl.
  destruct (ch_eqb x c) eqn:E; [|done].
  apply ch_eqb_eq in E. congruence.
Qed.

Lemma rfind_neg_absent c s : rfind c s < 0 -> c ∉ s.
Proof.
  induction s as [|x s IH]; simpl; [intros _; apply not_elem_of_nil|].
  destruct (Z.leb_spec 0 (rfind c s)) as [Hr|Hr].
  - pose proof (rfind_bounds c s). lia.
  - destruct (ch_eqb x c) eqn:E; [lia|]. intros _.
    apply ch_eqb_neq in E. apply not_elem_of_cons. split; [congruence|].
    apply IH. lia.
Qed.

(** Nothing after the last occurrence is the needle. *)
Lemma rfind_after c s i :
  rfind c s < i -> 0 <= i -> c ∉ from i s.
Proof.
  unfold from. revert i.
  induction s as [|x s IH]; intros i Hlt Hi.
  - rewrite drop_nil. apply not_elem_of_nil.
  - simpl in Hlt.
    destruct (Z.to_nat i) as [|n] eqn:En.
    + assert (i = 0) by lia. subst i. rewrite drop_0.
      apply rfind_neg_absent. simpl.
      destruct (Z.leb_spec 0 (rfind c s)); [lia|].
      destruct (ch_eqb x c); lia.
    + simpl. replace n with (Z.to_nat (i - 1)) by lia.
      apply IH; [|lia].
      destruct (Z.leb_spec 0 (rfind c s)); [lia|].
      destruct (ch_eqb x c); lia.
Qed.

(** At the index found the needle stands, for the last time. *)
Lemma rfind_found c s :
  0 <= rfind c s -> exists t, from (rfind c s) s = c :: t /\ c ∉ t.
Proof.
  unfold from. induction s as [|x s IH]; simpl; [lia|].
  destruct (Z.leb_spec 0 (rfind c s)) as [Hr|Hr].
  - intros _. destruct (IH Hr) as (t & Ht & Hn). exists t.
    replace (Z.to_nat (rfind c s + 1)) with (S (Z.to_nat (rfind c s))) by lia.
    by split.
  - destruct (ch_eqb x c) eqn:E; [|lia]. intros _.
    apply ch_eqb_eq in E. subst x. exists s. split; [done|].
    apply rfind_neg_absent. lia.
Qed.

Lemma rfind_app_absent c p x : c ∉ x -> rfind c (p ++ x) = rfind c p.
Proof.
  intros Hx. induction p as [|y p IH]; simpl.
  - by apply rfind_absent.
  - by rewrite IH.
Qed.

(** The two halves [splitext] returns make up the path. *)
Lemma splitext_app p : (splitext p).1 ++ (splitext p).2 = p.
Proof.
  unfold splitext.
  destruct (rfind "/" p <? rfind "." p); [|apply app_nil_r].
  destruct (forallb _ _); [apply app_nil_r|].
  simpl. unfold upto, from. apply take_drop.
Qed.


(** The extension holds no path separator. *)
Lemma splitext_ext_no_sep p : "/"%char ∉ (splitext p).2.
Proof.
  unfold splitext.
  destruct (Z.ltb_spec (rfind "/" p) (rfind "." p)) as [Hlt|Hge];
    [|apply not_elem_of_nil].
  destruct (forallb _ _); [apply not_elem_of_nil|].
  simpl. apply rfind_after; [done|].
  pose proof (rfind_bounds "/" p). lia.
Qed.

Lemma hex_fixed_length w n : length (hex_fixed w n) = w.
Proof.
  revert n. induction w as [|w IH]; intros n; simpl; [done|].
  rewrite length_app, IH. simpl. lia.
Qed.

Lemma small_cases (d : Z) :
  0 <= d < 16 ->
  d = 0 \/ d = 1 \/ d = 2 \/ d = 3 \/ d = 4 \/ d = 5 \/ d = 6 \/ d = 7 \/
  d = 8 \/ d = 9 \/ d = 10 \/ d = 11 \/ d = 12 \/ d = 13 \/ d = 14 \/ d = 15.
Proof. lia. Qed.

Lemma hex_digit_is_hex d : 0 <= d < 16 -> is_hex (hex_digit d) = true.
Proof.
  intros H. apply small_cases in H.
  repeat (destruct H as [->|H]; [reflexivity|]). by subst.
Qed.


Lemma hex_fixed_is_hex w n : forallb is_hex (hex_fixed w n) = true.
Proof.
  revert n. induction w as [|w IH]; intros n; simpl; [done|].
  rewrite forallb_app, IH. simpl.
  rewrite hex_digit_is_hex; [done|].
  apply Z.mod_pos_bound. lia.
Qed.


End TextLemmas.

Section UuidLemmas.


Lemma to_str_unfold u :
  let hex := hex_fixed 32 u in
  to_str u = take 8 hex ++ "-" ++ take 4 (drop 8 hex) ++ "-"
             ++ take 4 (drop 12 hex) ++ "-" ++ take 4 (drop 16 hex)
             ++ "-" ++ drop 20 hex.
Proof. reflexivity. Qed.



Lemma to_str_length u : length (to_str u) = 36%nat.
Proof.
  rewrite to_str_unfold. cbv zeta.
  pose proof (hex_fixed_length 32 u) as Lu.
  rewrite !length_app, !length_take, !length_drop, Lu. simpl. lia.
Qed.

Lemma is_hex_elem c l : forallb is_hex l = true -> c ∈ l -> is_hex c = true.
Proof.
  rewrite forallb_forall. intros H Hc. apply H. by apply list_elem_of_In.
Qed.

Lemma to_str_no_sep u : "/"%char ∉ to_str u.
Proof.
  pose proof (hex_fixed_is_hex 32 u) as H.
  rewrite to_str_unfold. cbv zeta.
  generalize dependent (hex_fixed 32 u). intros hex H.
  assert (Hhex : "/"%char ∉ hex).
  { intros Hc. by pose proof (is_hex_elem _ _ H Hc). }
  simpl. repeat (rewrite not_elem_of_app || rewrite not_elem_of_cons).
  repeat split; try discriminate;
    intros Hc; apply Hhex;
    repeat first [ apply (subseteq_take _ _ _) in Hc
                 | apply (subseteq_drop _ _ _) in Hc ];
    exact Hc.
Qed.

Lemma join_uploads_book (x : str) :
  startswith "/" x = false ->
  join "uploads" ["book" : str; x] = "uploads/book/" ++ x.
Proof.
  intros Hx. unfold join. simpl fold_left.
  change (join2 "uploads" "book") with ("uploads/book" : str).
  unfold join2. rewrite Hx.
  change (is_empty ("uploads/book" : str) || endswith "/" "uploads/book")
    with false.
  reflexivity.
Qed.

Lemma basename_uploads_book (x : str) :
  "/"%char ∉ x -> basename ("uploads/book/" ++ x) = x.
Proof.
  intros Hx. unfold basename. rewrite (rfind_app_absent _ _ _ Hx).
  change (rfind "/" "uploads/book/") with 12. unfold from.
  change (Z.to_nat (12 + 1)) with (length ("uploads/book/" : str)).
  by rewrite drop_app_length.
Qed.






End UuidLemmas.




(** ** The repository's tests on the sample database *)

Section Tests.

(** [test_auth_required]. *)
Example test_auth_required :
  status_code (api_list {| user := None; data := json [] |} sample_world).1
  = 401.
Proof. reflexivity. Qed.

(** [test_book_list_limited_to_user]. *)
Example test_book_list_limited_to_user :
  (api_list {| user := Some 1; data := json [] |} sample_world).1
  = {| status_code := 200;
       body := Objects [to_representation sample_world BookSerializer 1
                          (sample_book 1 None)] |}.
Proof. vm_compute. reflexivity. Qed.

(** [test_create_book]. *)
Example test_create_book :
  let res := api_create {| user := Some 1; data := test_create_payload |}
               sample_world in
  status_code res.1 = 201
  /\ books res.2 !! 3
     = Some {| user_id := 1; title := "Sample book title";
               author := "sample author name";
               release_date := Date 2000 8 14; genre := "sample genre";
               description := "sample desc"; image := None |}.
Proof. split; vm_compute; reflexivity. Qed.

(** [test_upload_image]. *)
Example test_upload_image :
  let res := api_upload_image 1
               {| user := Some 1;
                  data := {| items := {[ "image"%string := PFile sample_upload ]};
                             html := true |} |} sample_world in
  status_code res.1 = 200
  /\ In "image"%string (body_keys res.1)
  /\ (image <$> books res.2 !! 1)
     = Some (Some ("uploads/book/00000000-0000-4000-8000-000000000007.gif"
                   : str))
  /\ In ("uploads/book/00000000-0000-4000-8000-000000000007.gif" : str)
        (map fst (media res.2)).
Proof. repeat split; vm_compute; auto. Qed.

(** [test_upload_image_bad_request]. *)
Example test_upload_image_bad_request :
  (api_upload_image 1 {| user := Some 1; data := test_bad_image_payload |}
     sample_world)
  = ({| status_code := 400;
        body := Errors [("image"%string, "invalid"%string)] |}, sample_world).
Proof. vm_compute. reflexivity. Qed.

(** A date in the compact form is refused where the interpreter's
    [fromisoformat] does not read it, and stored where it does. *)
Example compact_release_date :
  (api_create {| user := Some 1; data := compact_date_payload |}
     sample_world).1
  = {| status_code := 400;
       body := Errors [("release_date"%string, "invalid"%string)] |}
  /\ status_code
       (api_create {| user := Some 1; data := compact_date_payload |}
          compact_world).1 = 201
  /\ (release_date
        <$> books (api_create
                     {| user := Some 1; data := compact_date_payload |}
                     compact_world).2 !! 3)
     = Some (Date 2030 9 12).
Proof. repeat split; vm_compute; reflexivity. Qed.

End Tests.

(** ** The owner-scoped query set *)

Section QuerySet.

Global Instance id_ge_trans : Transitive id_ge.
Proof. intros x y z. unfold id_ge. lia. Qed.

Global Instance id_ge_total : Total id_ge.
Proof. intros x y. unfold id_ge. lia. Qed.

Lemma elem_of_get_queryset caller w i b :
  (i, b) ∈ get_queryset caller w
  <-> books w !! i = Some b /\ user_id b = caller.
Proof.
  unfold get_queryset, order_by_id_desc.
  rewrite merge_sort_Permutation, list_elem_of_filter, elem_of_map_to_list.
  simpl. tauto.
Qed.

Lemma NoDup_filter_fst {A B} (P : A * B -> Prop) `{!forall x, Decision (P x)}
    (l : list (A * B)) :
  NoDup l.*1 -> NoDup (filter P l).*1.
Proof.
  induction l as [|x l IH]; simpl; [done|].
  rewrite NoDup_cons. intros [Hx Hl].
  rewrite filter_cons. destruct (decide (P x)); [|by apply IH].
  simpl. apply NoDup_cons. split; [|by apply IH].
  intros Hin. apply Hx.
  apply list_elem_of_fmap in Hin as (y & -> & Hy).
  apply list_elem_of_filter in Hy as [_ Hy].
  by apply list_elem_of_fmap_2.
Qed.

Lemma NoDup_get_queryset caller w : NoDup (get_queryset caller w).*1.
Proof.
  unfold get_queryset, order_by_id_desc.
  rewrite merge_sort_Permutation.
  apply NoDup_filter_fst, NoDup_fst_map_to_list.
Qed.

(** Descending keys without repetition are strictly descending. *)
Lemma strictly_descending (l : list (Z * Book)) :
  StronglySorted id_ge l -> NoDup l.*1 ->
  StronglySorted (fun x y => y.1 < x.1) l.
Proof.
  induction 1 as [|x l Hs IH Hx]; simpl; [constructor|].
  rewrite NoDup_cons. intros [Hnx Hnl].
  constructor; [by apply IH|].
  rewrite Forall_forall in Hx. apply Forall_forall. intros y Hy.
  specialize (Hx y Hy). unfold id_ge in Hx.
  assert (y.1 <> x.1); [|lia].
  intros E. apply Hnx. rewrite <- E. by apply list_elem_of_fmap_2.
Qed.

Lemma get_queryset_sorted caller w :
  StronglySorted (fun x y => y.1 < x.1) (get_queryset caller w).
Proof.
  apply strictly_descending; [|apply NoDup_get_queryset].
  unfold get_queryset, order_by_id_desc.
  apply StronglySorted_merge_sort; apply _.
Qed.

Lemma filter_key_absent (l : list (Z * Book)) id :
  (forall b, (id, b) ∉ l) -> filter (fun r : Z * Book => r.1 = id) l = [].
Proof.
  induction l as [|[i b] l IH]; intros H; [done|].
  rewrite filter_cons. simpl. destruct (decide (i = id)) as [->|Hne].
  - exfalso. apply (H b). left.
  - apply IH. intros b' Hb'. apply (H b'). by right.
Qed.

Lemma filter_key_present (l : list (Z * Book)) id b :
  NoDup l.*1 -> (id, b) ∈ l ->
  filter (fun r : Z * Book => r.1 = id) l = [(id, b)].
Proof.
  induction l as [|[i c] l IH]; simpl; intros Hnd Hin.
  - by apply elem_of_nil in Hin.
  - apply NoDup_cons in Hnd as [Hi Hnd].
    rewrite filter_cons. simpl. destruct (decide (i = id)) as [->|Hne].
    + apply elem_of_cons in Hin as [E|Hin].
      * injection E as ->. f_equal. apply filter_key_absent.
        intros b' Hb'. apply Hi.
        by apply (list_elem_of_fmap_2 fst) in Hb'.
      * exfalso. apply Hi. by apply (list_elem_of_fmap_2 fst) in Hin.
    + apply elem_of_cons in Hin as [E|Hin]; [congruence|].
      by apply IH.
Qed.

Lemma get_object_owned caller id w b :
  books w !! id = Some b -> user_id b = caller ->
  get_object caller id w
  = (inr {| pk := Some id; row := b; upload := None |}, w).
Proof.
  intros Hb Hu. unfold get_object, bind, get. simpl.
  rewrite (filter_key_present _ id b).
  - reflexivity.
  - apply NoDup_get_queryset.
  - by apply elem_of_get_queryset.
Qed.

Lemma get_object_not_owned caller id w :
  (forall b, books w !! id = Some b -> user_id b <> caller) ->
  get_object caller id w = (inl Http404, w).
Proof.
  intros H. unfold get_object, bind, get. simpl.
  rewrite filter_key_absent; [reflexivity|].
  intros b Hb. apply elem_of_get_queryset in Hb as [Hb Hu].
  by apply (H b).
Qed.

End QuerySet.

(** C2.  As caller [C], retrieving key [i] is answered with the 404
    response whenever no book with key [i] is owned by [C]: both when
    the table has no row [i] and when row [i] belongs to another user.
    The answer (status, body, and the untouched database) is the same
    in the two cases. *)
Theorem retrieve_not_found (C i : Z) (d : RequestData) (w : World) :
  (books w !! i = None ->
   api_retrieve i {| user := Some C; data := d |} w
   = ({| status_code := 404; body := Detail "Not found." |}, w))
  /\ (forall b, books w !! i = Some b -> user_id b <> C ->
      api_retrieve i {| user := Some C; data := d |} w
      = ({| status_code := 404; body := Detail "Not found." |}, w)).
Proof.
  assert (H : (forall b, books w !! i = Some b -> user_id b <> C) ->
              api_retrieve i {| user := Some C; data := d |} w
              = ({| status_code := 404; body := Detail "Not found." |}, w)).
  { intros Hno. unfold api_retrieve, dispatch, retrieve, bind. simpl.
    by rewrite (get_object_not_owned _ _ _ Hno). }
  split.
  - intros Hnone. apply H. intros b Hb. congruence.
  - intros b Hb Hne. apply H. intros b' Hb'. congruence.
Qed.

(** A witness for C2: key 7 is not in the table, book 2 is another
    user's. *)
Lemma retrieve_not_found_witness :
  api_retrieve 7 {| user := Some 1; data := json [] |} sample_world
  = api_retrieve 2 {| user := Some 1; data := json [] |} sample_world.
Proof.
  destruct (retrieve_not_found 1 7 (json []) sample_world) as [H7 _].
  destruct (retrieve_not_found 1 2 (json []) sample_world) as [_ H2].
  rewrite H7 by reflexivity.
  rewrite (H2 (sample_book 2 (Some ("uploads/book/old.jpg" : str))))
    by (reflexivity || (simpl; lia)).
  reflexivity.
Defined.

(** C3.  As caller [C], the list answer shows exactly the rows whose
    owner is [C], each once, in strictly descending order of key. *)
Theorem list_owned_descending (C : Z) (d : RequestData) (w : World) :
  exists rows : list (Z * Book),
    api_list {| user := Some C; data := d |} w
    = ({| status_code := 200;
          body := Objects (map (fun r => to_representation w BookSerializer
                                           r.1 r.2) rows) |}, w)
    /\ (forall i b, (i, b) ∈ rows <-> books w !! i = Some b /\ user_id b = C)
    /\ StronglySorted (fun x y => y.1 < x.1) rows.
Proof.
  exists (get_queryset C w). split; [reflexivity|]. split.
  - intros i b. apply elem_of_get_queryset.
  - apply get_queryset_sorted.
Qed.

(** ** Validation *)

Section Validation.

Lemma writable_BookSerializer :
  writable_fields BookSerializer
  = [char_field "title" (Some 255); char_field "author" (Some 255);
     date_field; char_field "genre" (Some 255);
     char_field "description" None; image_field false].
Proof. reflexivity. Qed.

Lemma writable_BookImageSerializer :
  writable_fields BookImageSerializer = [image_field true].
Proof. reflexivity. Qed.

Lemma to_internal_value_typed w t x v :
  to_internal_value w t x = Valid v -> typed_for t v.
Proof.
  unfold to_internal_value, char_to_internal.
  destruct t, x; simpl; intros H;
    repeat case_match; simplify_eq; eauto.
Qed.

Lemma run_validation_valid w p f x v :
  run_validation w p f x = Valid v ->
  (v = PNone /\ allow_null f = true) \/ typed_for (field_type_of f) v.
Proof.
  unfold run_validation. destruct x as [x|].
  - destruct x;
      try (intros H; right; by apply to_internal_value_typed in H).
    destruct (allow_null f); [|discriminate]. intros [= <-]. by left.
  - destruct p; [discriminate|]. destruct (required f); discriminate.
Qed.

Lemma run_validation_skip w f x :
  run_validation w false f x = Skip -> required f = false /\ x = None.
Proof.
  unfold run_validation. destruct x as [x|].
  - intros H. exfalso.
    unfold to_internal_value, char_to_internal in H.
    destruct x, (field_type_of f); simpl in H;
      repeat case_match; simplify_eq.
  - destruct (required f); [discriminate|done].
Qed.

Lemma validate_fields_cons w p f fs d vd :
  validate_fields w p (f :: fs) d = ([], vd) ->
  exists vd', validate_fields w p fs d = ([], vd') /\
    match run_validation w p f (get_value f d) with
    | Valid v => vd = (field_name f, v) :: vd'
    | Skip => vd = vd'
    | Invalid _ => False
    end.
Proof.
  simpl. destruct (validate_fields w p fs d) as [errors ret].
  destruct (run_validation w p f (get_value f d));
    intros [= -> <-]; eauto.
Qed.

(** The keys of validated data are names of validated fields, and the
    values are what their fields accepted. *)
Lemma validate_fields_entries w p fs d errors vd :
  validate_fields w p fs d = (errors, vd) ->
  Forall (fun kv => exists f, f ∈ fs /\ kv.1 = field_name f
                     /\ run_validation w p f (get_value f d) = Valid kv.2)
         vd.
Proof.
  revert errors vd. induction fs as [|f fs IH]; intros errors vd; simpl.
  - intros [= <- <-]. constructor.
  - destruct (validate_fields w p fs d) as [errors' ret] eqn:E.
    specialize (IH _ _ eq_refl).
    assert (Hret : Forall (fun kv => exists f0, f0 ∈ f :: fs
                     /\ kv.1 = field_name f0
                     /\ run_validation w p f0 (get_value f0 d) = Valid kv.2)
                   ret).
    { eapply Forall_impl; [exact IH|]. intros kv (f0 & ? & ? & ?).
      exists f0. split; [by right|done]. }
    destruct (run_validation w p f (get_value f d)) eqn:R;
      intros [= <- <-]; [|done..].
    constructor; [|done]. exists f. split; [left|done].
Qed.

(** Validated data of the full serializer on a complete (not
    partial) payload: the five required columns, then [image] if the
    payload had it. *)
Lemma is_valid_BookSerializer w d vd :
  is_valid w BookSerializer false d = inr vd ->
  exists t a rd g ds img,
    vd = [("title"%string, PStr t); ("author"%string, PStr a);
          ("release_date"%string, PDate rd); ("genre"%string, PStr g);
          ("description"%string, PStr ds)] ++ img
    /\ (img = [] \/ img = [("image"%string, PNone)]
        \/ exists f, img = [("image"%string, PFile f)]).
Proof.
  unfold is_valid. rewrite writable_BookSerializer.
  destruct (validate_fields _ _ _ _) as [errors vd0] eqn:E.
  destruct errors; [|discriminate]. intros [= <-].
  repeat (apply validate_fields_cons in E as (? & E & ?)).
  simpl in E. injection E as <-.
  repeat match goal with
         | H : match run_validation ?w ?p ?f ?x with _ => _ end |- _ =>
             let R := fresh "R" in
             destruct (run_validation w p f x) eqn:R; [| |destruct H];
             [apply run_validation_valid in R as [[-> R]|[? ->]];
                [try discriminate R|]
             |apply run_validation_skip in R as [R _];
                try discriminate R]
         end; subst; simpl; eauto 12.
Qed.

End Validation.

(** ** Creating and updating books *)

Arguments book_image_file_path : simpl never.
Arguments to_representation : simpl never.

Section Create.

(** The create handler, step by step. *)
Lemma create_steps U d w :
  create U d w
  = match is_valid w BookSerializer false d with
    | inl errors => (inl (ValidationError errors), w)
    | inr vd =>
        match Book_objects_create
                (dict_merge vd [("user"%string, PUser U)]) w with
        | (inl e, w1) => (inl e, w1)
        | (inr i, w1) =>
            (inr {| status_code := 201;
                    body := Object (to_representation w1 BookSerializer
                                      (default 0 (pk i)) (row i)) |}, w1)
        end
    end.
Proof.
  unfold create, perform_create, save_new.
  cbv [bind validated instance_data get ret raise get_serializer_class].
  destruct (is_valid w BookSerializer false d); [done|].
  by destruct (Book_objects_create _ w) as [[e|i] w1].
Qed.

(** Inserting a new instance: the stored row and its key. *)
Lemma Book_save_new i w :
  pk i = None ->
  exists b w',
    Book_save i w
    = (inr {| pk := Some (book_seq w + 1); row := b; upload := None |}, w')
    /\ books w' !! (book_seq w + 1) = Some b
    /\ user_id b = user_id (row i) /\ title b = title (row i)
    /\ author b = author (row i) /\ release_date b = release_date (row i)
    /\ genre b = genre (row i) /\ description b = description (row i)
    /\ image b = match upload i with
                 | Some f => Some (book_image_file_path
                                     (urandom w (drawn w)) (file_name f))
                 | None => image (row i)
                 end.
Proof.
  intros Hpk. unfold Book_save.
  cbv [bind get draw store_file set_books ret].
  rewrite Hpk. destruct (upload i); cbn;
    (eexists _, _; split; [reflexivity|]; cbn;
     split; [apply lookup_insert_eq|done]).
Qed.

End Create.

(** C1.  For a caller [U] and a payload the full serializer accepts, the
    create route answers 201 and has stored a book whose owner is [U],
    whatever the payload says under [user] or any other key; the text
    columns and the date are the validated values, and [image] is the
    stored upload when the payload validated one, otherwise empty. *)
Theorem create_owner_is_caller (U : Z) (d : RequestData) (w : World)
    (vd : pydict) :
  is_valid w BookSerializer false d = inr vd ->
  exists (id : Z) (b : Book) (w' : World),
    api_create {| user := Some U; data := d |} w
    = ({| status_code := 201;
          body := Object (to_representation w' BookSerializer id b) |}, w')
    /\ books w' !! id = Some b
    /\ user_id b = U
    /\ dict_get "title" vd = Some (PStr (title b))
    /\ dict_get "author" vd = Some (PStr (author b))
    /\ dict_get "release_date" vd = Some (PDate (release_date b))
    /\ dict_get "genre" vd = Some (PStr (genre b))
    /\ dict_get "description" vd = Some (PStr (description b))
    /\ match dict_get "image" vd with
       | Some (PFile f) =>
           image b = Some (book_image_file_path (urandom w (drawn w))
                                                (file_name f))
       | _ => image b = None
       end.
Proof.
  intros Hvalid.
  destruct (is_valid_BookSerializer _ _ _ Hvalid)
    as (t & a & rd & g & ds & img & -> & Himg).
  unfold api_create, dispatch. cbn [user data].
  rewrite create_steps, Hvalid. unfold Book_objects_create.
  assert (Hinit : exists i,
             Book_init (dict_merge
                          ([("title"%string, PStr t); ("author"%string, PStr a);
                            ("release_date"%string, PDate rd);
                            ("genre"%string, PStr g);
                            ("description"%string, PStr ds)] ++ img)
                          [("user"%string, PUser U)]) = inr i
             /\ pk i = None
             /\ row i = Build_Book U t a rd g ds None
             /\ upload i = match dict_get "image" img with
                           | Some (PFile f) => Some f
                           | _ => None
                           end).
  { destruct Himg as [->|[->|[f ->]]]; eexists;
      (split; [vm_compute; reflexivity|done]). }
  destruct Hinit as (i & -> & Hpk & Hrow & Hup).
  destruct (Book_save_new i w Hpk)
    as (b & w' & -> & Hb & Hu & Ht & Ha & Hd & Hg & Hds & Hi).
  rewrite Hrow in *. cbn in Hu, Ht, Ha, Hd, Hg, Hds, Hi.
  exists (book_seq w + 1), b, w'. cbn.
  split; [reflexivity|]. split; [exact Hb|]. split; [exact Hu|].
  rewrite Ht, Ha, Hd, Hg, Hds, Hi, Hup.
  repeat split. destruct Himg as [->|[->|[f ->]]]; reflexivity.
Qed.

(** A witness for C1: account 1 posts a payload that names account 2 as
    [user]. *)
Lemma create_owner_is_caller_witness :
  exists id b w',
    (api_create {| user := Some 1; data := sample_payload |} sample_world).2
    = w'
    /\ items sample_payload !! "user"%string = Some (PInt 2)
    /\ books w' !! id = Some b /\ user_id b = 1.
Proof.
  edestruct (create_owner_is_caller 1 sample_payload sample_world)
    as (id & b & w' & H1 & H2 & H3 & _); [vm_compute; reflexivity|].
  exists id, b, w'. rewrite H1.
  split; [reflexivity|]. split; [vm_compute; reflexivity|].
  split; [exact H2|exact H3].
Defined.

Section Update.

Lemma find_column_name n c : find_column n = Some c -> col_name c = n.
Proof.
  unfold find_column. intros H. apply find_some in H as [_ H].
  symmetry. by apply String.eqb_eq.
Qed.

Lemma get_fields_names meta f :
  f ∈ get_fields meta -> field_name f ∈ fields meta.
Proof.
  unfold get_fields. rewrite list_elem_of_omap.
  intros (n & Hn & Hf).
  destruct (find_column n) as [c|] eqn:E; [|discriminate].
  injection Hf as <-. simpl. by rewrite (find_column_name _ _ E).
Qed.

(** Validated data only has keys the serializer declares. *)
Lemma validated_keys_declared w meta p d vd k :
  is_valid w meta p d = inr vd -> k ∈ dict_keys vd -> k ∈ fields meta.
Proof.
  unfold is_valid.
  destruct (validate_fields _ _ _ _) as [errors vd0] eqn:E.
  destruct errors; [|discriminate]. intros [= <-] Hk.
  apply validate_fields_entries in E. rewrite Forall_forall in E.
  unfold dict_keys in Hk. apply list_elem_of_In in Hk.
  apply in_map_iff in Hk as (kv & <- & Hkv).
  apply list_elem_of_In in Hkv.
  destruct (E kv Hkv) as (f & Hf & -> & _).
  apply get_fields_names. unfold writable_fields in Hf.
  by apply list_elem_of_filter in Hf as [_ Hf].
Qed.

Lemma Book_setattr_keeps_owner i k v i' :
  k <> "user"%string -> Book_setattr i (k, v) = inr i' ->
  pk i' = pk i /\ user_id (row i') = user_id (row i).
Proof.
  intros Hk. unfold Book_setattr.
  destruct (String.eqb_spec k "user"); [done|].
  repeat case_match; intros [= <-]; done.
Qed.

Lemma Book_setattrs_keeps_owner attrs : forall i i',
  "user"%string ∉ dict_keys attrs -> Book_setattrs i attrs = inr i' ->
  pk i' = pk i /\ user_id (row i') = user_id (row i).
Proof.
  induction attrs as [|[k v] attrs IH]; intros i i' Hk H;
    cbn [Book_setattrs] in H.
  - by injection H as <-.
  - cbn [dict_keys map fst] in Hk.
    apply not_elem_of_cons in Hk as [Hk Hks].
    destruct (Book_setattr i (k, v)) as [e|i1] eqn:E; [discriminate|].
    apply IH in H as [-> ->]; [|done].
    eapply Book_setattr_keeps_owner; [|exact E]. congruence.
Qed.

Lemma Book_save_existing i id w :
  pk i = Some id ->
  exists b' w',
    Book_save i w = (inr {| pk := Some id; row := b'; upload := None |}, w')
    /\ books w' = <[id := b']> (books w)
    /\ user_id b' = user_id (row i).
Proof.
  intros Hpk. unfold Book_save, bind, get, draw, store_file, set_books, ret.
  rewrite Hpk. destruct (upload i); simpl; eauto.
Qed.

Lemma dict_merge_nil (a : pydict) : dict_merge a [] = a.
Proof. reflexivity. Qed.

Lemma owners_kept_refl w : owners_kept w w.
Proof. intros j b Hb. eauto. Qed.

Lemma owners_kept_insert w w' id b b' :
  books w !! id = Some b -> user_id b' = user_id b ->
  books w' = <[id := b']> (books w) -> owners_kept w w'.
Proof.
  intros Hb Hu Hw j c Hc. rewrite Hw.
  destruct (decide (id = j)) as [->|Hne].
  - rewrite lookup_insert_eq. exists b'. split; [done|]. congruence.
  - rewrite lookup_insert_ne by done. eauto.
Qed.

(** Saving validated data onto an instance of the caller's keeps every
    owner, for either serializer of the view set. *)
Lemma save_existing_keeps_owner w0 meta p d vd id b w :
  is_valid w0 meta p d = inr vd -> "user"%string ∉ fields meta ->
  books w !! id = Some b ->
  owners_kept w
    (save_existing {| pk := Some id; row := b; upload := None |} vd [] w).2.
Proof.
  intros Hvalid Hno Hb. unfold save_existing. rewrite dict_merge_nil.
  destruct (Book_setattrs _ vd) as [e|i'] eqn:E;
    [apply owners_kept_refl|].
  apply Book_setattrs_keeps_owner in E as [Hpk Hu]; cycle 1.
  { intros Hk. apply Hno. eapply validated_keys_declared; eauto. }
  destruct (Book_save_existing i' id w Hpk) as (b' & w' & -> & Hw & Hu').
  simpl. apply (owners_kept_insert w w' id b b' Hb); [|exact Hw].
  rewrite Hu', Hu. reflexivity.
Qed.

End Update.

Section UpdateRoutes.

Lemma no_user_field : "user"%string ∉ fields BookSerializer.
Proof.
  cbn. repeat (rewrite not_elem_of_cons). repeat split; try discriminate.
  apply not_elem_of_nil.
Qed.

Lemma to_representation_keys w id b :
  dict_keys (to_representation w BookSerializer id b)
  = fields BookSerializer.
Proof. reflexivity. Qed.

Lemma Book_setattr_validated w p d i kv :
  (exists f, f ∈ writable_fields BookSerializer /\ kv.1 = field_name f
             /\ run_validation w p f (get_value f d) = Valid kv.2) ->
  exists i', Book_setattr i kv = inr i'.
Proof.
  destruct kv as [k v]. simpl. intros (f & Hf & -> & R).
  rewrite writable_BookSerializer in Hf.
  repeat (apply elem_of_cons in Hf as [->|Hf]);
    [..|by apply elem_of_nil in Hf];
    apply run_validation_valid in R as [[-> Hn]|[x ->]];
    try discriminate Hn; simpl; eauto.
Qed.

Lemma Book_setattrs_validated w p d vd : forall i,
  Forall (fun kv => exists f, f ∈ writable_fields BookSerializer
                      /\ kv.1 = field_name f
                      /\ run_validation w p f (get_value f d) = Valid kv.2)
         vd ->
  exists i', Book_setattrs i vd = inr i'.
Proof.
  induction vd as [|kv vd IH]; intros i H; cbn [Book_setattrs]; [eauto|].
  apply Forall_cons in H as [Hkv Hvd].
  destruct (Book_setattr_validated w p d i kv Hkv) as [i1 ->].
  by apply IH.
Qed.

Lemma is_valid_entries w meta p d vd :
  is_valid w meta p d = inr vd ->
  Forall (fun kv => exists f, f ∈ writable_fields meta
                      /\ kv.1 = field_name f
                      /\ run_validation w p f (get_value f d) = Valid kv.2)
         vd.
Proof.
  unfold is_valid.
  destruct (validate_fields _ _ _ _) as [errors vd0] eqn:E.
  destruct errors; [|discriminate]. intros [= <-].
  by apply validate_fields_entries in E.
Qed.

(** The handler of both update routes, step by step. *)
Lemma update_with_steps action p C id d w :
  get_serializer_class action = BookSerializer ->
  update_with action p C id d w
  = match get_object C id w with
    | (inl e, w1) => (inl e, w1)
    | (inr i, w1) =>
        match is_valid w1 BookSerializer p d with
        | inl errors => (inl (ValidationError errors), w1)
        | inr vd =>
            match save_existing i vd [] w1 with
            | (inl e, w2) => (inl e, w2)
            | (inr i', w2) =>
                (inr {| status_code := 200;
                        body := Object (to_representation w2 BookSerializer
                                          (default 0 (pk i')) (row i')) |},
                 w2)
            end
        end
    end.
Proof.
  intros Hmeta. unfold update_with. rewrite Hmeta.
  cbv [bind validated instance_data get ret raise].
  destruct (get_object C id w) as [[e|i] w1]; [done|].
  destruct (is_valid w1 BookSerializer p d); [done|].
  by destruct (save_existing i _ [] w1) as [[e|i'] w2].
Qed.

Lemma update_with_frame action p C id d w :
  get_serializer_class action = BookSerializer ->
  owners_kept w (update_with action p C id d w).2
  /\ (forall r, (update_with action p C id d w).1 = inr r ->
                status_code r = 200
                /\ body_keys r = fields BookSerializer)
  /\ (forall b vd, books w !! id = Some b -> user_id b = C ->
        is_valid w BookSerializer p d = inr vd ->
        exists r, (update_with action p C id d w).1 = inr r).
Proof.
  intros Hmeta. rewrite (update_with_steps _ _ _ _ _ _ Hmeta).
  assert (Hcase : (exists b, books w !! id = Some b /\ user_id b = C)
                  \/ (forall b, books w !! id = Some b -> user_id b <> C)).
  { destruct (books w !! id) as [b|]; [|by right].
    destruct (decide (user_id b = C)); [left; eauto|right].
    by intros ? [= <-]. }
  destruct Hcase as [(b & Hb & Hu)|Hno].
  - rewrite (get_object_owned _ _ _ _ Hb Hu).
    destruct (is_valid w BookSerializer p d) as [errors|vd] eqn:V.
    + simpl. split; [apply owners_kept_refl|].
      split; [discriminate|]. intros ? ? _ _ [=].
    + pose proof no_user_field as Hno.
      pose proof (save_existing_keeps_owner w BookSerializer p d vd id b w
                    V Hno Hb) as Hk.
      unfold save_existing in *. rewrite dict_merge_nil in *.
      destruct (Book_setattrs_validated w p d vd
                  {| pk := Some id; row := b; upload := None |}
                  (is_valid_entries _ _ _ _ _ V)) as [i' Hi'].
      rewrite Hi' in *.
      assert (Hpk : pk i' = Some id).
      { assert (Hnk : "user"%string ∉ dict_keys vd).
        { intros Hk'. apply Hno. eapply validated_keys_declared; eauto. }
        by destruct (Book_setattrs_keeps_owner vd _ _ Hnk Hi'). }
      destruct (Book_save_existing i' id w Hpk) as (b' & w' & Hs & _ & _).
      rewrite Hs in *. simpl in *.
      split; [exact Hk|]. split.
      * intros r [= <-]. split; reflexivity.
      * intros ? ? _ _ _. eauto.
  - rewrite (get_object_not_owned _ _ _ Hno). simpl.
    split; [apply owners_kept_refl|]. split; [discriminate|].
    intros b vd Hb Hu. by destruct (Hno b Hb).
Qed.

Lemma dispatch_update_frame action p C id d w :
  get_serializer_class action = BookSerializer ->
  let res := dispatch (fun c => update_with action p c id d)
                      {| user := Some C; data := d |} w in
  owners_kept w res.2
  /\ ("user"%string ∉ body_keys res.1)
  /\ (forall b vd, books w !! id = Some b -> user_id b = C ->
        is_valid w BookSerializer p d = inr vd -> status_code res.1 = 200).
Proof.
  intros Hmeta. unfold dispatch. simpl.
  destruct (update_with_frame action p C id d w Hmeta) as (K & B & P).
  destruct (update_with action p C id d w) as [[e|r] w1]; simpl in *.
  - split; [exact K|]. split.
    + destruct e; apply not_elem_of_nil.
    + intros b vd Hb Hu V. by destruct (P b vd Hb Hu V).
  - destruct (B r eq_refl) as [Hs Hb]. split; [exact K|]. split.
    + rewrite Hb. apply no_user_field.
    + intros. exact Hs.
Qed.

End UpdateRoutes.

(** C9.  Whatever the payload of a full or partial update holds, and
    whether or not the request succeeds, every book keeps its owner; the
    answer shows the declared fields only, and [user] is not one of
    them.  An update of a book of the caller's with a payload the
    serializer accepts does succeed. *)
Theorem update_keeps_owner (C id : Z) (d : RequestData) (w : World) :
  let request := {| user := Some C; data := d |} in
  owners_kept w (api_update id request w).2
  /\ owners_kept w (api_partial_update id request w).2
  /\ ("user"%string ∉ body_keys (api_update id request w).1)
  /\ ("user"%string ∉ body_keys (api_partial_update id request w).1)
  /\ ("user"%string ∉ fields BookSerializer)
  /\ (forall b vd, books w !! id = Some b -> user_id b = C ->
        is_valid w BookSerializer false d = inr vd ->
        status_code (api_update id request w).1 = 200)
  /\ (forall b vd, books w !! id = Some b -> user_id b = C ->
        is_valid w BookSerializer true d = inr vd ->
        status_code (api_partial_update id request w).1 = 200).
Proof.
  intros request.
  destruct (dispatch_update_frame update_action false C id d w eq_refl)
    as (K1 & B1 & P1).
  destruct (dispatch_update_frame partial_update_action true C id d w eq_refl)
    as (K2 & B2 & P2).
  repeat split; try assumption. apply no_user_field.
Qed.

(** ** Image upload *)

Section Upload.

(** The upload handler, step by step. *)
Lemma upload_image_steps C id d w :
  upload_image C id d w
  = match get_object C id w with
    | (inl e, w1) => (inl e, w1)
    | (inr book, w1) =>
        match is_valid w1 BookImageSerializer false d with
        | inl errors =>
            (inr {| status_code := 400; body := Errors errors |}, w1)
        | inr vd =>
            match save_existing book vd [] w1 with
            | (inl e, w2) => (inl e, w2)
            | (inr i', w2) =>
                (inr {| status_code := 200;
                        body := Object (to_representation w2
                                          BookImageSerializer
                                          (default 0 (pk i')) (row i')) |},
                 w2)
            end
        end
    end.
Proof.
  unfold upload_image.
  cbv [bind instance_data get ret raise get_serializer_class].
  destruct (get_object C id w) as [[e|i] w1]; [done|].
  destruct (is_valid w1 BookImageSerializer false d); [done|].
  by destruct (save_existing i _ [] w1) as [[e|i'] w2].
Qed.

(** What the upload serializer makes of the [image] value. *)
Lemma is_valid_BookImageSerializer w d :
  is_valid w BookImageSerializer false d
  = match image_value d with
    | None => inl [("image"%string, "required"%string)]
    | Some PNone => inr [("image"%string, PNone)]
    | Some (PFile f) =>
        if accepted_file w f then inr [("image"%string, PFile f)]
        else inl [("image"%string,
                   if is_empty (file_name f) then "no_name"%string
                   else if file_size f =? 0 then "empty"%string
                   else if 100 <? Z.of_nat (length (file_name f))
                   then "max_length"%string
                   else if image_verify (env w) (file_content f)
                   then "invalid_extension"%string
                   else "invalid_image"%string)]
    | Some _ => inl [("image"%string, "invalid"%string)]
    end.
Proof.
  unfold is_valid. rewrite writable_BookImageSerializer.
  unfold image_value. cbn [validate_fields].
  destruct (get_value (image_field true) d) as [[]|]; try reflexivity.
  cbn. unfold accepted_file.
  destruct (is_empty (file_name f)); [reflexivity|].
  destruct (file_size f =? 0); [reflexivity|].
  destruct (Z.ltb_spec 100 (Z.of_nat (length (file_name f))));
    destruct (Z.leb_spec (Z.of_nat (length (file_name f))) 100);
    try lia; [reflexivity|].
  cbn. destruct (image_verify (env w) (file_content f)); [|reflexivity].
  cbn. by destruct (image_extension_allowed (env w) (file_name f)).
Qed.

Lemma upload_image_owned C id d w b :
  books w !! id = Some b -> user_id b = C ->
  let res := api_upload_image id {| user := Some C; data := d |} w in
  match image_value d with
  | None => status_code res.1 = 400 /\ res.2 = w
  | Some PNone =>
      status_code res.1 = 200
      /\ exists b', books res.2 !! id = Some b' /\ image b' = None
  | Some (PFile f) =>
      if accepted_file w f
      then status_code res.1 = 200
           /\ exists b', books res.2 !! id = Some b'
                /\ image b' = Some (book_image_file_path
                                      (urandom w (drawn w)) (file_name f))
      else status_code res.1 = 400 /\ res.2 = w
  | Some _ => status_code res.1 = 400 /\ res.2 = w
  end.
Proof.
  intros Hb Hu. unfold api_upload_image, dispatch. cbn [user data].
  rewrite upload_image_steps, (get_object_owned _ _ _ _ Hb Hu).
  rewrite is_valid_BookImageSerializer.
  destruct (image_value d) as [[]|]; try (split; reflexivity).
  - cbn. split; [reflexivity|]. eexists. split; [apply lookup_insert_eq|].
    reflexivity.
  - destruct (accepted_file w f); [|split; reflexivity].
    cbn. split; [reflexivity|]. eexists.
    split; [apply lookup_insert_eq|]. reflexivity.
Qed.

Lemma upload_rejected w (ov : option pyval) (st : Z) (P Q : Prop) :
  st = 400 -> P ->
  (ov = None
   \/ exists v, ov = Some v /\ v <> PNone /\ ~ accepted_upload w v) ->
  ov <> Some PNone ->
  (st = 400
   <-> ov = None
       \/ exists v, ov = Some v /\ v <> PNone /\ ~ accepted_upload w v)
  /\ (st = 400 -> P) /\ (st <> 400 -> st = 200) /\ (ov = Some PNone -> Q).
Proof. intros Hs HP Hbad Hn. repeat split; try done. Qed.

Lemma upload_accepted w (ov : option pyval) (st : Z) (P Q : Prop) :
  st = 200 ->
  ~ (ov = None
     \/ exists v, ov = Some v /\ v <> PNone /\ ~ accepted_upload w v) ->
  (ov = Some PNone -> Q) ->
  (st = 400
   <-> ov = None
       \/ exists v, ov = Some v /\ v <> PNone /\ ~ accepted_upload w v)
  /\ (st = 400 -> P) /\ (st <> 400 -> st = 200) /\ (ov = Some PNone -> Q).
Proof.
  intros Hs Hok HQ. repeat split; try done; try (intros; lia).
Qed.

End Upload.

(** C4, as the code has it.  For a book of the caller's, the upload
    route answers 400 exactly when the [image] key is absent or holds a
    value other than null that the image field does not accept: not an
    uploaded file, or a file without name, with a name of more than 100
    characters, without content, with a content that Pillow does not
    verify as an image, or with a name whose extension is not an image
    extension.  Then nothing at all is changed.  Every other request is
    answered 200; in particular a null [image] (the empty string in a
    form) is accepted and clears the book's image. *)
Theorem upload_image_rejects (C id : Z) (d : RequestData) (w : World)
    (b : Book) :
  books w !! id = Some b -> user_id b = C ->
  let res := api_upload_image id {| user := Some C; data := d |} w in
  (status_code res.1 = 400
   <-> image_value d = None
       \/ exists v, image_value d = Some v /\ v <> PNone
                    /\ ~ accepted_upload w v)
  /\ (status_code res.1 = 400 -> res.2 = w)
  /\ (status_code res.1 <> 400 -> status_code res.1 = 200)
  /\ (image_value d = Some PNone ->
      status_code res.1 = 200
      /\ exists b', books res.2 !! id = Some b' /\ image b' = None).
Proof.
  intros Hb Hu res. pose proof (upload_image_owned C id d w b Hb Hu) as H.
  fold res in H.
  destruct (image_value d) as [v|] eqn:Hv; cycle 1.
  { destruct H. apply upload_rejected; auto. }
  destruct v;
    try (destruct H; apply upload_rejected; [done|done| |discriminate];
         right; eexists; split; [reflexivity|]; split; [discriminate|];
         by intros (f & [=] & _)).
  - destruct H as [Hs Hc]. apply upload_accepted; [exact Hs| |done].
    intros [[=]|(v & [= <-] & Hn & _)]. done.
  - destruct (accepted_file w f) eqn:Hf; destruct H as [Hs Hc].
    + apply upload_accepted; [exact Hs| |discriminate].
      intros [[=]|(v & [= <-] & _ & Hn)]. apply Hn. by exists f.
    + apply upload_rejected; [done|done| |discriminate].
      right. exists (PFile f). split; [done|]. split; [discriminate|].
      intros (f' & [= <-] & Hf'). congruence.
Qed.

(** A witness for C4: account 2 uploads a GIF to its book 2. *)
Lemma upload_image_rejects_witness :
  status_code
    (api_upload_image 2
       {| user := Some 2;
          data := json [("image"%string, PFile sample_upload)] |}
       sample_world).1 <> 400
  /\ status_code
       (api_upload_image 2
          {| user := Some 2; data := json [("image"%string, PStr "notanimage")] |}
          sample_world).1 = 400.
Proof.
  split.
  - destruct (upload_image_rejects 2 2
                (json [("image"%string, PFile sample_upload)]) sample_world
                (sample_book 2 (Some ("uploads/book/old.jpg" : str)))
                eq_refl eq_refl) as ([H _] & _).
    intros E. destruct (H E) as [Hn|(v & Hv & _ & Hna)].
    + vm_compute in Hn. discriminate Hn.
    + vm_compute in Hv. injection Hv as <-. apply Hna.
      exists sample_upload. split; reflexivity.
  - destruct (upload_image_rejects 2 2
                (json [("image"%string, PStr "notanimage")]) sample_world
                (sample_book 2 (Some ("uploads/book/old.jpg" : str)))
                eq_refl eq_refl) as ([_ H] & _).
    apply H. right. eexists. split; [vm_compute; reflexivity|].
    split; [discriminate|]. by intros (f & [=] & _).
Defined.

(** C4 as stated fails: a null [image] is not a decodable image, yet
    the request is answered 200, not 400, and the stored image reference
    of the book is gone; and a decodable image under the name
    [photo.txt] is answered 400. *)
Lemma upload_image_null_counterexample :
  items null_image_payload !! "image"%string = Some PNone
  /\ ~ decodable_image sample_world PNone
  /\ status_code
       (api_upload_image 2 {| user := Some 2; data := null_image_payload |}
          sample_world).1 = 200
  /\ books sample_world !! 2
     = Some (sample_book 2 (Some ("uploads/book/old.jpg" : str)))
  /\ books (api_upload_image 2
              {| user := Some 2; data := null_image_payload |}
              sample_world).2 !! 2
     = Some (sample_book 2 None)
  /\ ~ (status_code
          (api_upload_image 2 {| user := Some 2; data := null_image_payload |}
             sample_world).1 = 400
        <-> (items null_image_payload !! "image"%string = None
             \/ exists v, items null_image_payload !! "image"%string = Some v
                          /\ ~ decodable_image sample_world v))
  /\ decodable_image sample_world
       (PFile {| file_name := "photo.txt"; file_content := pixel_gif |})
  /\ (api_upload_image 2
        {| user := Some 2;
           data := json [("image"%string,
                          PFile {| file_name := "photo.txt";
                                   file_content := pixel_gif |})] |}
        sample_world).1
     = {| status_code := 400;
          body := Errors [("image"%string, "invalid_extension"%string)] |}.
Proof.
  assert (Hn : ~ decodable_image sample_world PNone).
  { by intros (f & [=] & _). }
  split; [vm_compute; reflexivity|]. split; [exact Hn|].
  split; [vm_compute; reflexivity|]. split; [vm_compute; reflexivity|].
  split; [vm_compute; reflexivity|].
  split; [|split; [eexists; split; reflexivity|vm_compute; reflexivity]].
  intros [_ H].
  assert (E : status_code
                (api_upload_image 2
                   {| user := Some 2; data := null_image_payload |}
                   sample_world).1 = 400).
  { apply H. right. exists PNone. split; [vm_compute; reflexivity|exact Hn]. }
  vm_compute in E. discriminate E.
Qed.

(** ** Dates and the serializer round trip *)

Section Dates.

Lemma digit_cases (d : Z) :
  0 <= d < 10 ->
  d = 0 \/ d = 1 \/ d = 2 \/ d = 3 \/ d = 4 \/ d = 5 \/ d = 6 \/ d = 7 \/
  d = 8 \/ d = 9.
Proof. lia. Qed.

Lemma dec_digit_spec d :
  0 <= d < 10 ->
  is_digit (dec_digit d) = true /\ code (dec_digit d) - 48 = d.
Proof.
  intros H. apply digit_cases in H.
  repeat (destruct H as [->|H]; [by vm_compute|]). subst. by vm_compute.
Qed.

Lemma is_digit_not_newline c : is_digit c = true -> ch_eqb c "010" = false.
Proof.
  intros H. apply ch_eqb_neq. intros ->. vm_compute in H. discriminate H.
Qed.

Lemma dec_fixed_length w n : length (dec_fixed w n) = w.
Proof.
  revert n. induction w as [|w IH]; intros n; simpl; [done|].
  rewrite length_app, IH. simpl. lia.
Qed.

Lemma dec_fixed_digits w n : forallb is_digit (dec_fixed w n) = true.
Proof.
  revert n. induction w as [|w IH]; intros n; simpl; [done|].
  rewrite forallb_app, IH. simpl.
  destruct (dec_digit_spec (n mod 10)) as [-> _]; [|done].
  apply Z.mod_pos_bound. lia.
Qed.

Lemma int_of_digits_snoc s c :
  int_of_digits (s ++ [c]) = 10 * int_of_digits s + (code c - 48).
Proof. unfold int_of_digits. by rewrite fold_left_app. Qed.

Lemma int_of_dec_fixed w n :
  0 <= n < 10 ^ Z.of_nat w -> int_of_digits (dec_fixed w n) = n.
Proof.
  revert n. induction w as [|w IH]; intros n Hn.
  - simpl in *. unfold int_of_digits. simpl. lia.
  - simpl dec_fixed. rewrite int_of_digits_snoc.
    rewrite Nat2Z.inj_succ, Z.pow_succ_r in Hn by lia.
    rewrite IH; cycle 1.
    { split; [apply Z.div_pos|apply Z.div_lt_upper_bound]; lia. }
    destruct (dec_digit_spec (n mod 10)) as [_ ->].
    { apply Z.mod_pos_bound. lia. }
    rewrite (Z.div_mod n 10) at 3 by lia. lia.
Qed.

Lemma span_digits_all s :
  forallb is_digit s = true -> span_digits s = (s, []).
Proof.
  induction s as [|c s IH]; simpl; [done|].
  intros H. apply andb_true_iff in H as [-> H]. by rewrite (IH H).
Qed.

Lemma span_digits_stop s c r :
  forallb is_digit s = true -> is_digit c = false ->
  span_digits (s ++ c :: r) = (s, c :: r).
Proof.
  intros Hs Hc. induction s as [|x s IH]; simpl.
  - by rewrite Hc.
  - simpl in Hs. apply andb_true_iff in Hs as [-> Hs]. by rewrite (IH Hs).
Qed.

Lemma valid_date_bounds d :
  valid_date d = true ->
  1 <= year d <= 9999 /\ 1 <= month d <= 12 /\ 1 <= day d <= 31.
Proof.
  unfold valid_date, days_in_month. intros H.
  repeat (apply andb_true_iff in H as [H ?]).
  repeat case_match; lia.
Qed.

(** The pattern reads the ISO text of a date. *)
Lemma date_re_match_isoformat d :
  valid_date d = true ->
  date_re_match (isoformat d) = Some (year d, month d, day d).
Proof.
  intros Hv. destruct (valid_date_bounds d Hv) as (Hy & Hm & Hd).
  unfold date_re_match, isoformat.
  set (Y := dec_fixed 4 (year d)). set (M := dec_fixed 2 (month d)).
  assert (Hlast : exists X, Y ++ "-" ++ M ++ "-" ++ dec_fixed 2 (day d)
                            = X ++ [dec_digit (day d mod 10)]).
  { exists (Y ++ "-" ++ M ++ "-" ++ dec_fixed 1 (day d / 10)).
    change (dec_fixed 2 (day d))
      with (dec_fixed 1 (day d / 10) ++ [dec_digit (day d mod 10)]).
    by rewrite !(assoc (++)). }
  destruct Hlast as [X HX]. rewrite HX at 1. rewrite rev_app_distr.
  simpl rev at 1. cbn [app].
  rewrite is_digit_not_newline; cycle 1.
  { apply dec_digit_spec, Z.mod_pos_bound. lia. }
  set (D := dec_fixed 2 (day d)).
  change (Y ++ "-" ++ M ++ "-" ++ D)
    with (Y ++ "-"%char :: (M ++ "-"%char :: D)).
  rewrite span_digits_stop; [|apply dec_fixed_digits|reflexivity].
  rewrite span_digits_stop; [|apply dec_fixed_digits|reflexivity].
  rewrite span_digits_all by apply dec_fixed_digits.
  unfold Y, M, D. rewrite !dec_fixed_length.
  rewrite !int_of_dec_fixed by (simpl; lia).
  reflexivity.
Qed.

(** Parsing the ISO text of a date gives the date back, whatever the
    interpreter. *)
Lemma parse_date_isoformat fromisoformat d :
  valid_date d = true -> parse_date fromisoformat (isoformat d) = Some d.
Proof.
  intros Hv. unfold parse_date. rewrite (date_re_match_isoformat d Hv).
  unfold make_date. destruct d as [y m dd]. simpl in *. by rewrite Hv.
Qed.

End Dates.

Section RoundTrip.

Lemma lookup_json (o : pydict) (k : string) :
  items (json o) !! k = dict_get k o.
Proof.
  unfold json. cbn [items].
  induction o as [|[k' v] o IH]; [apply lookup_empty|].
  cbn [list_to_map foldr dict_get uncurry fst snd].
  rewrite lookup_insert. destruct (String.eqb_spec k k') as [->|Hne].
  - by rewrite decide_True.
  - rewrite decide_False by congruence. exact IH.
Qed.

Lemma get_value_json f o :
  get_value f (json o) = dict_get (field_name f) o.
Proof. unfold get_value. cbn [html json]. apply lookup_json. Qed.

Lemma to_representation_BookSerializer w id b :
  to_representation w BookSerializer id b
  = [("id"%string, PInt id); ("title"%string, PStr (title b));
     ("author"%string, PStr (author b));
     ("release_date"%string, PStr (isoformat (release_date b)));
     ("genre"%string, PStr (genre b));
     ("description"%string, PStr (description b));
     ("image"%string,
      match image b with
      | Some stored =>
          if is_empty stored then PNone
          else PStr (build_absolute_uri (env w) (storage_url (env w) stored))
      | None => PNone
      end)].
Proof.
  unfold to_representation.
  change (get_fields BookSerializer)
    with ({| field_name := "id"; field_type_of := IntegerField;
             read_only := true; required := false; allow_null := false |}
          :: writable_fields BookSerializer).
  rewrite writable_BookSerializer. unfold represent.
  cbn [map field_name field_type_of char_field date_field image_field].
  unfold Book_getattr. cbn. by destruct (image b).
Qed.

Lemma clean_text_valid w n max s :
  clean_text max s = true ->
  run_validation w false (char_field n max) (Some (PStr s))
  = Valid (PStr s).
Proof.
  unfold clean_text, str_eqb. intros H.
  repeat (apply andb_true_iff in H as [H ?]).
  apply bool_decide_eq_true in H2.
  cbn [run_validation char_field field_type_of to_internal_value].
  unfold char_to_internal. rewrite !H2.
  apply negb_true_iff in H. rewrite H.
  apply negb_true_iff in H0. rewrite H0.
  destruct max as [m|]; [|done].
  apply Z.leb_le in H1. destruct (Z.ltb_spec m (Z.of_nat (length s))); [lia|done].
Qed.

End RoundTrip.

(** C7, as the code has it.  For a book without image whose date is a
    calendar date and whose text columns are as the character fields
    store them, validating the serialized book gives the book's column
    values back ([id] is read-only and dropped), and writing them to the
    book changes nothing. *)
Theorem serializer_round_trip (w : World) (id : Z) (b : Book) :
  image b = None ->
  valid_date (release_date b) = true ->
  clean_text (Some 255) (title b) = true ->
  clean_text (Some 255) (author b) = true ->
  clean_text (Some 255) (genre b) = true ->
  clean_text None (description b) = true ->
  let vd := [("title"%string, PStr (title b));
             ("author"%string, PStr (author b));
             ("release_date"%string, PDate (release_date b));
             ("genre"%string, PStr (genre b));
             ("description"%string, PStr (description b));
             ("image"%string, PNone)] in
  is_valid w BookSerializer false (json (to_representation w BookSerializer id b))
  = inr vd
  /\ Book_setattrs {| pk := Some id; row := b; upload := None |} vd
     = inr {| pk := Some id; row := b; upload := None |}.
Proof.
  intros Hi Hd Ht Ha Hg Hs vd. split.
  - unfold is_valid. rewrite writable_BookSerializer.
    rewrite to_representation_BookSerializer, Hi.
    cbn [validate_fields]. rewrite !get_value_json.
    cbn [dict_get field_name char_field date_field image_field String.eqb
         Ascii.eqb Bool.eqb].
    rewrite !clean_text_valid by assumption.
    cbn [run_validation date_field field_type_of to_internal_value
         image_field allow_null].
    rewrite parse_date_isoformat by assumption. reflexivity.
  - destruct b as [u t a rd g ds im]. simpl in Hi. subst im. reflexivity.
Qed.

(** A witness for C7: book 1 of the sample database. *)
Lemma serializer_round_trip_witness :
  is_valid sample_world BookSerializer false
    (json (to_representation sample_world BookSerializer 1
             (sample_book 1 None)))
  = inr [("title"%string, PStr "T"); ("author"%string, PStr "Au");
         ("release_date"%string, PDate (Date 2030 9 12));
         ("genre"%string, PStr "G"); ("description"%string, PStr "D");
         ("image"%string, PNone)].
Proof.
  exact (proj1 (serializer_round_trip sample_world 1 (sample_book 1 None)
                  eq_refl eq_refl eq_refl eq_refl eq_refl eq_refl)).
Defined.

(** C7 as stated fails: the serialized form of a book with an image
    carries the image's URL, which the image field refuses, so
    deserializing gives errors instead of the book's values; and a title
    with a leading blank comes back without it. *)
Lemma serializer_round_trip_counterexample :
  is_valid sample_world BookSerializer false
    (json (to_representation sample_world BookSerializer 2
             (sample_book 2 (Some ("uploads/book/old.jpg" : str)))))
  = inl [("image"%string, "invalid"%string)]
  /\ dict_get "title"
       (match is_valid sample_world BookSerializer false
                (json (to_representation sample_world BookSerializer 3
                         padded_book)) with
        | inr vd => vd
        | inl _ => []
        end)
     = Some (PStr "T")
  /\ title padded_book <> ("T" : str).
Proof.
  split; [vm_compute; reflexivity|]. split; [vm_compute; reflexivity|].
  vm_compute. discriminate.
Qed.

(** ** Accounts *)

Section Accounts.

Lemma email_taken_true e skip (us : gmap Z User) :
  email_taken e skip us = true
  <-> exists k u, us !! k = Some u /\ email u = e /\ Some k <> skip.
Proof.
  unfold email_taken. rewrite existsb_exists. split.
  - intros ([k u] & Hin & H). apply andb_true_iff in H as [H1 H2].
    apply bool_decide_eq_true in H1. apply negb_true_iff in H2.
    apply bool_decide_eq_false in H2.
    apply list_elem_of_In, elem_of_map_to_list in Hin. eauto.
  - intros (k & u & Hk & He & Hs). exists (k, u). split.
    + by apply list_elem_of_In, elem_of_map_to_list.
    + simpl. apply andb_true_iff. split; [by apply bool_decide_eq_true|].
      apply negb_true_iff. by apply bool_decide_eq_false.
Qed.

Lemma email_taken_false e skip (us : gmap Z User) :
  email_taken e skip us = false
  <-> forall k u, us !! k = Some u -> email u = e -> Some k = skip.
Proof.
  rewrite <- not_true_iff_false, email_taken_true. split.
  - intros H k u Hk He. destruct (decide (Some k = skip)); [done|].
    exfalso. apply H. eauto.
  - intros H (k & u & Hk & He & Hs). apply Hs. eauto.
Qed.

Lemma User_setattr_valid u kv :
  valid_extra_fields [kv] = true ->
  exists u', User_setattr u kv = inr u'
             /\ email u' = email u /\ password u' = password u.
Proof.
  destruct kv as [k v]. unfold valid_extra_fields, User_setattr. simpl.
  rewrite andb_true_r. destruct v; try discriminate.
  - intros H. destruct (String.eqb_spec k "name") as [->|_];
      [discriminate H|].
    destruct (String.eqb k "is_active"); [eauto|].
    destruct (String.eqb k "is_staff"); [eauto|].
    destruct (String.eqb k "is_superuser"); [eauto|discriminate].
  - intros ->. eauto.
Qed.

Lemma User_setattrs_valid extra : forall u,
  valid_extra_fields extra = true ->
  exists u', User_setattrs u extra = inr u'
             /\ email u' = email u /\ password u' = password u.
Proof.
  induction extra as [|kv extra IH]; intros u H; cbn [User_setattrs].
  - eauto.
  - unfold valid_extra_fields in H. cbn [forallb] in H.
    apply andb_true_iff in H as [Hkv Hrest].
    destruct (User_setattr_valid u kv) as (u1 & -> & He & Hp).
    { unfold valid_extra_fields. cbn [forallb]. by rewrite Hkv. }
    destruct (IH u1 Hrest) as (u' & -> & He' & Hp').
    exists u'. split; [done|]. split; congruence.
Qed.

Lemma create_user_empty password extra w :
  create_user None password extra w
  = (inl (ValueError "User must have an email address"), w)
  /\ create_user (Some []) password extra w
     = (inl (ValueError "User must have an email address"), w).
Proof. split; reflexivity. Qed.

Lemma create_user_steps e password extra w u0 :
  e <> [] ->
  User_init (normalize_email (Some e)) extra = inr u0 ->
  let u := User_set_password u0 (encoded_password w password) in
  if email_taken (email u0) None (users w)
  then (create_user (Some e) password extra w).1 = inl IntegrityError
       /\ users (create_user (Some e) password extra w).2 = users w
  else exists w',
      create_user (Some e) password extra w
      = (inr (user_seq w + 1, u), w')
      /\ users w' = <[user_seq w + 1 := u]> (users w)
      /\ user_seq w' = user_seq w + 1
      /\ env w' = env w.
Proof.
  intros He Hinit u. unfold create_user.
  destruct e as [|c e]; [done|]. cbn [is_empty]. rewrite Hinit.
  unfold make_password, User_save.
  cbv [bind get draw set_users ret raise].
  assert (Hu : u = User_set_password u0 (encoded_password w password))
    by reflexivity.
  clearbody u. unfold encoded_password in Hu.
  destruct password as [raw|]; cbn in *; rewrite <- Hu;
    replace (email u) with (email u0) by (by subst u);
    destruct (email_taken (email u0) None (users w)); cbn; eauto.
Qed.

End Accounts.

Section NormalizeEmail.

Lemma lstrip_app_nonspace n c d :
  is_space c = false -> lstrip (n ++ c :: d) = lstrip n ++ c :: d.
Proof.
  intros Hc. induction n as [|x n IH]; simpl.
  - by rewrite Hc.
  - by destruct (is_space x).
Qed.

Lemma rstrip_app_nonspace x c d :
  is_space c = false -> rstrip (x ++ c :: d) = x ++ c :: rstrip d.
Proof.
  intros Hc. unfold rstrip.
  rewrite rev_app_distr. simpl rev at 2.
  rewrite <- (assoc (++)). simpl app at 2.
  rewrite lstrip_app_nonspace by done.
  rewrite rev_app_distr. simpl rev at 1.
  rewrite rev_involutive, <- (assoc (++)). reflexivity.
Qed.

Lemma lstrip_subseteq s : lstrip s ⊆ s.
Proof.
  induction s as [|x s IH]; simpl; [done|].
  destruct (is_space x); [|done].
  intros y Hy. right. by apply IH.
Qed.

Lemma rstrip_absent c d : c ∉ d -> c ∉ rstrip d.
Proof.
  intros Hc Hin. apply Hc. unfold rstrip in Hin.
  apply list_elem_of_In, in_rev in Hin.
  apply list_elem_of_In, lstrip_subseteq in Hin.
  by apply list_elem_of_In, in_rev, list_elem_of_In in Hin.
Qed.

Lemma rfind_app_cons c p d :
  c ∉ d -> rfind c (p ++ c :: d) = Z.of_nat (length p).
Proof.
  intros Hd. induction p as [|x p IH]; simpl.
  - rewrite (rfind_absent _ _ Hd). simpl.
    by rewrite (proj2 (ch_eqb_eq c c) eq_refl).
  - rewrite IH. destruct (Z.leb_spec 0 (Z.of_nat (length p))); lia.
Qed.

Lemma rsplit1_app_cons c p d :
  c ∉ d -> rsplit1 c (p ++ c :: d) = Some (p, d).
Proof.
  intros Hd. unfold rsplit1, upto, from. rewrite (rfind_app_cons _ _ _ Hd).
  destruct (Z.leb_spec 0 (Z.of_nat (length p))); [|lia].
  rewrite Nat2Z.id.
  replace (Z.to_nat (Z.of_nat (length p) + 1)) with (length p + 1)%nat
    by lia.
  rewrite take_app_length.
  by rewrite <- drop_drop, drop_app_length.
Qed.

(** The address is trimmed and its domain part lower-cased. *)
Lemma normalize_email_at n d :
  "@"%char ∉ d ->
  normalize_email (Some (n ++ "@" ++ d))
  = lstrip n ++ "@" ++ lower (rstrip d).
Proof.
  intros Hd. unfold normalize_email, strip.
  change (n ++ "@" ++ d) with (n ++ "@"%char :: d).
  rewrite lstrip_app_nonspace by reflexivity.
  rewrite rstrip_app_nonspace by reflexivity.
  by rewrite rsplit1_app_cons by (by apply rstrip_absent).
Qed.

Lemma is_space_lower c : is_space (lower_char c) = is_space c.
Proof. destruct c as [[] [] [] [] [] [] [] []]; reflexivity. Qed.

Lemma lower_lstrip s : lower (lstrip s) = lstrip (lower s).
Proof.
  induction s as [|x s IH]; simpl; [done|].
  rewrite is_space_lower. by destruct (is_space x).
Qed.

Lemma lower_rstrip s : lower (rstrip s) = rstrip (lower s).
Proof.
  unfold rstrip, lower. rewrite map_rev. fold (lower (lstrip (rev s))).
  rewrite lower_lstrip. unfold lower. by rewrite map_rev.
Qed.

(** Addresses that differ in the letter case of the domain only are
    normalized to the same address. *)
Lemma normalize_email_case n d1 d2 :
  "@"%char ∉ d1 -> "@"%char ∉ d2 -> lower d1 = lower d2 ->
  normalize_email (Some (n ++ "@" ++ d1))
  = normalize_email (Some (n ++ "@" ++ d2)).
Proof.
  intros H1 H2 E. rewrite !normalize_email_at by done.
  by rewrite !lower_rstrip, E.
Qed.

End NormalizeEmail.

Section CreateUser.

Lemma User_init_valid e extra :
  valid_extra_fields extra = true ->
  exists u0, User_init e extra = inr u0 /\ email u0 = e /\ password u0 = [].
Proof. intros H. unfold User_init. by apply User_setattrs_valid. Qed.

Lemma create_user_success e pw extra w :
  e <> [] -> valid_extra_fields extra = true ->
  email_taken (normalize_email (Some e)) None (users w) = false ->
  exists u w',
    create_user (Some e) pw extra w = (inr (user_seq w + 1, u), w')
    /\ users w' = <[user_seq w + 1 := u]> (users w)
    /\ email u = normalize_email (Some e)
    /\ password u = encoded_password w pw
    /\ (forall u0, User_init (normalize_email (Some e)) extra = inr u0 ->
                   u = User_set_password u0 (encoded_password w pw)).
Proof.
  intros He Hx Hfree.
  destruct (User_init_valid (normalize_email (Some e)) extra Hx)
    as (u0 & Hinit & Hemail & _).
  pose proof (create_user_steps e pw extra w u0 He Hinit) as H.
  cbv zeta in H. rewrite Hemail, Hfree in H.
  destruct H as (w' & Hc & Hu & _).
  eexists _, w'. split; [exact Hc|]. split; [exact Hu|].
  split; [exact Hemail|]. split; [reflexivity|].
  intros u1 Hu1. congruence.
Qed.

Lemma create_user_collision e pw extra w :
  e <> [] -> valid_extra_fields extra = true ->
  email_taken (normalize_email (Some e)) None (users w) = true ->
  (create_user (Some e) pw extra w).1 = inl IntegrityError
  /\ users (create_user (Some e) pw extra w).2 = users w.
Proof.
  intros He Hx Htaken.
  destruct (User_init_valid (normalize_email (Some e)) extra Hx)
    as (u0 & Hinit & Hemail & _).
  pose proof (create_user_steps e pw extra w u0 He Hinit) as H.
  cbv zeta in H. by rewrite Hemail, Htaken in H.
Qed.

Lemma email_taken_after_insert e id u (us : gmap Z User) :
  email u = e -> email_taken e None (<[id := u]> us) = true.
Proof.
  intros He. apply email_taken_true. exists id, u.
  split; [apply lookup_insert_eq|]. done.
Qed.

Lemma email_free_for_own_row e id u (us : gmap Z User) :
  email_taken e None us = false ->
  email_taken e (Some id) (<[id := u]> us) = false.
Proof.
  rewrite !email_taken_false. intros H k u' Hk He.
  destruct (decide (id = k)) as [->|Hne]; [done|].
  rewrite lookup_insert_ne in Hk by done.
  by specialize (H k u' Hk He).
Qed.

Lemma create_superuser_success e pw w :
  e <> [] ->
  email_taken (normalize_email (Some e)) None (users w) = false ->
  exists id u0 w0 w',
    create_user (Some e) pw [] w = (inr (id, u0), w0)
    /\ create_superuser (Some e) pw w
       = (inr (id, User_set_super u0), w')
    /\ users w' !! id = Some (User_set_super u0)
    /\ email u0 = normalize_email (Some e)
    /\ password u0 = encoded_password w pw.
Proof.
  intros He Hfree.
  destruct (create_user_success e pw [] w He eq_refl Hfree)
    as (u0 & w0 & Hc & Hu & Hemail & Hpw & _).
  exists (user_seq w + 1), u0, w0.
  unfold create_superuser. cbv [bind]. rewrite Hc. cbn [fst snd].
  unfold User_save. cbv [bind get set_users ret raise].
  cbn [email User_set_super]. rewrite Hu, Hemail.
  rewrite (email_free_for_own_row _ _ _ _ Hfree).
  eexists. split; [reflexivity|]. split; [reflexivity|]. cbn [users].
  split; [apply lookup_insert_eq|]. done.
Qed.

End CreateUser.




(** C8, as the code has it.  For a non-empty address whose normalized
    form no account has yet, [create_superuser] creates the account as
    [create_user] does (same key, same hashed password), then saves it
    with both flags set and returns it.  When the address is in use the
    account creation fails and so does [create_superuser]: it raises
    [IntegrityError], returns no user, and the user table is as it
    was, so the account that has the address is not elevated. *)
Theorem create_superuser_flags (e raw : str) (w : World) :
  e <> [] ->
  (email_taken (normalize_email (Some e)) None (users w) = false ->
   exists id u0 w0 u w',
     create_user (Some e) (Some raw) [] w = (inr (id, u0), w0)
     /\ create_superuser (Some e) (Some raw) w = (inr (id, u), w')
     /\ users w' !! id = Some u
     /\ is_staff u = true /\ is_superuser u = true
     /\ email u = email u0 /\ password u = password u0
     /\ password u
        = hasher_encode (env w) raw
            (get_random_string (env w) 22 (urandom w (drawn w))))
  /\ (email_taken (normalize_email (Some e)) None (users w) = true ->
      (create_superuser (Some e) (Some raw) w).1 = inl IntegrityError
      /\ users (create_superuser (Some e) (Some raw) w).2 = users w).
Proof.
  intros He. split.
  - intros Hfree.
    destruct (create_superuser_success e (Some raw) w He Hfree)
      as (id & u0 & w0 & w' & Hc & Hs & Hu & Hemail & Hpw).
    exists id, u0, w0, (User_set_super u0), w'.
    split; [exact Hc|]. split; [exact Hs|]. split; [exact Hu|].
    repeat split. exact Hpw.
  - intros Htaken.
    destruct (create_user_collision e (Some raw) [] w He eq_refl Htaken)
      as [Hc Hu].
    unfold create_superuser. cbv [bind].
    destruct (create_user (Some e) (Some raw) [] w) as [[x|x] w0];
      simpl in Hc, Hu; [by rewrite Hc|discriminate Hc].
Qed.

(** A witness for C8: a new address in the sample database. *)
Lemma create_superuser_flags_witness :
  exists id u w',
    create_superuser (Some ("root@example.com" : str))
      (Some ("secret" : str)) sample_world = (inr (id, u), w')
    /\ users w' !! id = Some u
    /\ is_staff u = true /\ is_superuser u = true.
Proof.
  destruct (create_superuser_flags "root@example.com" "secret" sample_world)
    as [H _]; [discriminate|].
  destruct H as (id & u0 & w0 & u & w' & _ & Hs & Hu & H1 & H2 & _);
    [reflexivity|].
  exists id, u, w'. split; [exact Hs|]. split; [exact Hu|].
  split; [exact H1|exact H2].
Defined.

(** C8 as stated fails: the address of account 1 is not empty, yet
    [create_superuser] returns no user for it, and account 1 stays
    without the flags. *)
Lemma create_superuser_counterexample :
  (create_superuser (Some ("a@example.com" : str)) (Some ("secret" : str))
     sample_world).1 = inl IntegrityError
  /\ users (create_superuser (Some ("a@example.com" : str))
              (Some ("secret" : str)) sample_world).2
     = users sample_world.
Proof. split; vm_compute; reflexivity. Qed.

(** C10.  Whenever [create_user] stores a user for a non-empty address
    [E], the stored address is the normalized form of [E]; for an
    address [n@d] that is [n] and [d] trimmed, with [d] in lower case.
    After an account was created for [n@d1], a call for [n@d2], where
    [d2] differs from [d1] in letter case only, is refused by the unique
    index and adds no user. *)
Theorem create_user_normalizes_email :
  (forall (e : str) pw extra w,
      e <> [] -> valid_extra_fields extra = true ->
      email_taken (normalize_email (Some e)) None (users w) = false ->
      exists id u w',
        create_user (Some e) pw extra w = (inr (id, u), w')
        /\ users w' !! id = Some u
        /\ email u = normalize_email (Some e))
  /\ (forall (e : str) pw extra w id u w',
        create_user (Some e) pw extra w = (inr (id, u), w') ->
        email u = normalize_email (Some e))
  /\ (forall n d : str,
        "@"%char ∉ d ->
        normalize_email (Some (n ++ "@" ++ d))
        = lstrip n ++ "@" ++ lower (rstrip d))
  /\ (forall (n d1 d2 : str) pw1 pw2 extra1 extra2 w,
        "@"%char ∉ d1 -> "@"%char ∉ d2 -> lower d1 = lower d2 ->
        valid_extra_fields extra1 = true ->
        valid_extra_fields extra2 = true ->
        email_taken (normalize_email (Some (n ++ "@" ++ d1))) None (users w)
        = false ->
        exists id u w1,
          create_user (Some (n ++ "@" ++ d1)) pw1 extra1 w
          = (inr (id, u), w1)
          /\ (create_user (Some (n ++ "@" ++ d2)) pw2 extra2 w1).1
             = inl IntegrityError
          /\ users (create_user (Some (n ++ "@" ++ d2)) pw2 extra2 w1).2
             = users w1).
Proof.
  split; [|split; [|split]].
  - intros e pw extra w He Hx Hfree.
    destruct (create_user_success e pw extra w He Hx Hfree)
      as (u & w' & Hc & Hu & Hemail & _).
    exists (user_seq w + 1), u, w'. split; [exact Hc|].
    split; [rewrite Hu; apply lookup_insert_eq|exact Hemail].
  - intros e pw extra w id u w' Hc. unfold create_user in Hc.
    destruct (is_empty e); [discriminate Hc|].
    destruct (User_init (normalize_email (Some e)) extra) as [x|u0] eqn:Hi;
      [discriminate Hc|].
    assert (He : email u0 = normalize_email (Some e)).
    { unfold User_init in Hi. 
      assert (G : forall kw v v', User_setattrs v kw = inr v' ->
                                  email v' = email v).
      { induction kw as [|kv kw IH]; intros v v' H; cbn [User_setattrs] in H.
        - by injection H as <-.
        - destruct (User_setattr v kv) as [x|v1] eqn:E; [discriminate H|].
          rewrite (IH _ _ H). unfold User_setattr in E. destruct kv as [k x].
          repeat case_match; simplify_eq; done. }
      by rewrite (G _ _ _ Hi). }
    revert Hc. unfold make_password, User_save.
    cbv [bind get draw set_users ret raise].
    destruct pw; cbn; destruct (email_taken (email u0) None (users w)); cbn;
      intros Hc; simplify_eq; exact He.
  - intros n d Hd. by apply normalize_email_at.
  - intros n d1 d2 pw1 pw2 extra1 extra2 w H1 H2 Hl Hx1 Hx2 Hfree.
    assert (Hne : forall d : str, n ++ "@" ++ d <> []).
    { intros d. by destruct n. }
    destruct (create_user_success _ pw1 extra1 w (Hne d1) Hx1 Hfree)
      as (u & w1 & Hc & Hu & Hemail & _).
    exists (user_seq w + 1), u, w1. split; [exact Hc|].
    apply create_user_collision; [apply Hne|exact Hx2|].
    rewrite Hu. apply email_taken_after_insert.
    rewrite Hemail. by apply normalize_email_case.
Qed.

(** A witness for C10: the same address with the domain in two
    spellings. *)
Lemma create_user_normalizes_email_witness :
  exists id u w1,
    create_user (Some ("new@Example.COM" : str)) (Some ("one" : str)) []
      sample_world = (inr (id, u), w1)
    /\ email u = ("new@example.com" : str)
    /\ (create_user (Some ("new@EXAMPLE.com" : str)) (Some ("two" : str)) []
          w1).1 = inl IntegrityError.
Proof.
  destruct create_user_normalizes_email as (_ & Hstored & _ & H).
  assert (A1 : "@"%char ∉ ("Example.COM" : str)).
  { apply rfind_neg_absent. reflexivity. }
  assert (A2 : "@"%char ∉ ("EXAMPLE.com" : str)).
  { apply rfind_neg_absent. reflexivity. }
  destruct (H "new" "Example.COM" "EXAMPLE.com" (Some ("one" : str))
              (Some ("two" : str)) [] [] sample_world A1 A2
              eq_refl eq_refl eq_refl eq_refl)
    as (id & u & w1 & Hc & Hi & _).
  exists id, u, w1. split; [exact Hc|]. split; [|exact Hi].
  rewrite (Hstored _ _ _ _ _ _ _ Hc). reflexivity.
Defined.

(** * Further properties of the routes *)

Import Coverage.

(** ** What saving does *)

Section Saving.

(** [save()] stores the instance's columns under its key, or under the
    next key of the sequence when it has none; a pending upload goes to
    the media store and becomes the image reference.  Nothing else
    changes. *)
Lemma Book_save_spec i w :
  let k := match pk i with Some id => id | None => book_seq w + 1 end in
  let stored := match upload i with
                | Some f => Some (book_image_file_path (urandom w (drawn w))
                                    (file_name f))
                | None => image (row i)
                end in
  let b := Build_Book (user_id (row i)) (title (row i)) (author (row i))
             (release_date (row i)) (genre (row i)) (description (row i))
             stored in
  exists w',
    Book_save i w = (inr {| pk := Some k; row := b; upload := None |}, w')
    /\ books w' = <[k := b]> (books w)
    /\ book_seq w' = match pk i with
                     | Some _ => book_seq w
                     | None => book_seq w + 1
                     end
    /\ users w' = users w /\ user_seq w' = user_seq w /\ env w' = env w
    /\ urandom w' = urandom w
    /\ media w' = media w ++ match upload i with
                             | Some f =>
                                 [(book_image_file_path (urandom w (drawn w))
                                     (file_name f), f)]
                             | None => []
                             end.
Proof.
  unfold Book_save. cbv [bind get draw store_file set_books ret].
  destruct i as [[id|] [u t a rd g ds im] [f|]]; cbn;
    eexists; (split; [reflexivity|]); cbn; rewrite ?app_nil_r; done.
Qed.

Lemma Book_setattr_keeps_pk i kv i' :
  Book_setattr i kv = inr i' -> pk i' = pk i.
Proof.
  destruct kv as [k v]. unfold Book_setattr.
  repeat case_match; intros [= <-]; done.
Qed.

Lemma Book_setattrs_keeps_pk attrs : forall i i',
  Book_setattrs i attrs = inr i' -> pk i' = pk i.
Proof.
  induction attrs as [|kv attrs IH]; intros i i' H;
    cbn [Book_setattrs] in H.
  - by injection H as <-.
  - destruct (Book_setattr i kv) as [e|i1] eqn:E; [discriminate|].
    rewrite (IH _ _ H). by apply Book_setattr_keeps_pk in E.
Qed.

(** One assignment sets the named column and leaves the others. *)
Lemma Book_setattr_column i k v i' id name :
  Book_setattr i (k, v) = inr i' ->
  name ∈ ["user"; "title"; "author"; "release_date"; "genre";
          "description"]%string ->
  Book_getattr id (row i') name
  = if String.eqb name k then v else Book_getattr id (row i) name.
Proof.
  intros H Hname. unfold Book_setattr in H.
  repeat (apply elem_of_cons in Hname as [->|Hname]);
    [..|by apply elem_of_nil in Hname];
    repeat (match type of H with
            | context [String.eqb k ?s] =>
                destruct (String.eqb_spec k s) as [->|?]
            end);
    repeat case_match; simplify_eq; try reflexivity;
    cbn; repeat case_match; try reflexivity;
    match goal with
    | E : String.eqb ?a ?b = true |- _ =>
        apply String.eqb_eq in E; congruence
    end.
Qed.

End Saving.

Section Assignments.

Lemma dict_get_absent k (d : pydict) : k ∉ dict_keys d -> dict_get k d = None.
Proof.
  induction d as [|[k' v] d IH]; [done|]. cbn [dict_keys map fst dict_get].
  intros H. apply not_elem_of_cons in H as [Hk Hd].
  destruct (String.eqb_spec k k'); [done|]. by apply IH.
Qed.

Lemma dict_get_present k v (d : pydict) :
  dict_get k d = Some v -> k ∈ dict_keys d.
Proof.
  induction d as [|[k' v'] d IH]; [done|]. cbn [dict_keys map fst dict_get].
  destruct (String.eqb_spec k k') as [->|_]; [intros _; left|].
  intros H. right. by apply IH.
Qed.

(** After a run of assignments with distinct names, a column holds the
    value assigned to it, or its old value when none was. *)
Lemma Book_setattrs_column attrs id name : forall i i',
  NoDup (dict_keys attrs) ->
  Book_setattrs i attrs = inr i' ->
  name ∈ ["user"; "title"; "author"; "release_date"; "genre";
          "description"]%string ->
  Book_getattr id (row i') name
  = match dict_get name attrs with
    | Some v => v
    | None => Book_getattr id (row i) name
    end.
Proof.
  induction attrs as [|[k v] attrs IH]; intros i i' Hnd H Hname;
    cbn [Book_setattrs] in H.
  - by injection H as <-.
  - cbn [dict_keys map fst] in Hnd. apply NoDup_cons in Hnd as [Hk Hnd].
    destruct (Book_setattr i (k, v)) as [e|i1] eqn:E; [discriminate|].
    rewrite (IH _ _ Hnd H Hname).
    rewrite (Book_setattr_column _ _ _ _ id name E Hname).
    cbn [dict_get]. destruct (String.eqb_spec name k) as [->|_]; [|done].
    by rewrite (dict_get_absent _ _ Hk).
Qed.

Lemma Book_setattr_image i k v i' :
  Book_setattr i (k, v) = inr i' ->
  (upload i', image (row i'))
  = if String.eqb k "image"
    then match v with
         | PFile f => (Some f, image (row i))
         | _ => (None, None)
         end
    else (upload i, image (row i)).
Proof.
  intros H. unfold Book_setattr in H.
  repeat (match type of H with
          | context [String.eqb k ?s] =>
              destruct (String.eqb_spec k s) as [->|?]
          end);
    try (destruct (String.eqb_spec k "image"); [congruence|]);
    simpl; repeat case_match; simplify_eq; reflexivity.
Qed.

(** The same for [image]: an uploaded file is pending, a null clears. *)
Lemma Book_setattrs_image attrs : forall i i',
  NoDup (dict_keys attrs) ->
  Book_setattrs i attrs = inr i' ->
  (upload i', image (row i'))
  = match dict_get "image" attrs with
    | Some (PFile f) => (Some f, image (row i))
    | Some _ => (None, None)
    | None => (upload i, image (row i))
    end.
Proof.
  induction attrs as [|[k v] attrs IH]; intros i i' Hnd H;
    cbn [Book_setattrs] in H.
  - by injection H as <-.
  - cbn [dict_keys map fst] in Hnd. apply NoDup_cons in Hnd as [Hk Hnd].
    destruct (Book_setattr i (k, v)) as [e|i1] eqn:E; [discriminate|].
    rewrite (IH _ _ Hnd H). apply Book_setattr_image in E.
    cbn [dict_get]. rewrite (String.eqb_sym "image" k).
    destruct (String.eqb_spec k "image") as [->|_].
    + rewrite (dict_get_absent _ _ Hk).
      destruct v; by injection E as -> ->.
    + injection E as -> ->. reflexivity.
Qed.

(** The names of validated data come in the order of the fields. *)
Lemma validate_fields_keys_sublist w p fs d errors vd :
  validate_fields w p fs d = (errors, vd) ->
  sublist (dict_keys vd) (map field_name fs).
Proof.
  revert errors vd. induction fs as [|f fs IH]; intros errors vd; simpl.
  - intros [= <- <-]. constructor.
  - destruct (validate_fields w p fs d) as [errors' ret] eqn:E.
    specialize (IH _ _ eq_refl).
    destruct (run_validation w p f (get_value f d));
      intros [= <- <-]; simpl; by constructor.
Qed.

Lemma is_valid_keys_NoDup w meta p d vd :
  NoDup (map field_name (writable_fields meta)) ->
  is_valid w meta p d = inr vd -> NoDup (dict_keys vd).
Proof.
  intros Hnd. unfold is_valid.
  destruct (validate_fields _ _ _ _) as [errors vd0] eqn:E.
  destruct errors; [|discriminate]. intros [= <-].
  eapply sublist_NoDup; [exact Hnd|].
  eapply validate_fields_keys_sublist. exact E.
Qed.

Lemma writable_names_BookSerializer :
  NoDup (map field_name (writable_fields BookSerializer)).
Proof.
  rewrite writable_BookSerializer. cbn.
  repeat (apply NoDup_cons; split;
          [repeat (rewrite not_elem_of_cons); repeat split;
           try discriminate; apply not_elem_of_nil|]).
  apply NoDup_nil_2.
Qed.

Lemma writable_names_BookImageSerializer :
  NoDup (map field_name (writable_fields BookImageSerializer)).
Proof.
  rewrite writable_BookImageSerializer. cbn.
  apply NoDup_cons. split; [apply not_elem_of_nil|apply NoDup_nil_2].
Qed.

(** A key the payload does not have is not validated. *)
Lemma absent_key_not_validated w meta p d vd k :
  is_valid w meta p d = inr vd -> items d !! k = None ->
  k ∉ dict_keys vd.
Proof.
  intros Hvalid Habs Hk. apply is_valid_entries in Hvalid.
  rewrite Forall_forall in Hvalid.
  unfold dict_keys in Hk. apply list_elem_of_In, in_map_iff in Hk
    as ([k' v] & <- & Hkv). apply list_elem_of_In in Hkv.
  destruct (Hvalid _ Hkv) as (f & _ & Hname & R). simpl in Hname, R, Habs.
  assert (G : get_value f d = None).
  { unfold get_value. rewrite <- Hname, Habs. by destruct (html d). }
  rewrite G in R. unfold run_validation in R.
  destruct p; [discriminate|]. destruct (required f); discriminate.
Qed.

End Assignments.

(** ** What each handler does *)

Section Outcomes.

Lemma rest_kept_refl w : rest_kept w w.
Proof. repeat split. exists []. by rewrite app_nil_r. Qed.

Lemma Book_setattr_validated_image w p d i kv :
  (exists f, f ∈ writable_fields BookImageSerializer /\ kv.1 = field_name f
             /\ run_validation w p f (get_value f d) = Valid kv.2) ->
  exists i', Book_setattr i kv = inr i'.
Proof.
  destruct kv as [k v]. simpl. intros (f & Hf & -> & R).
  rewrite writable_BookImageSerializer in Hf.
  apply list_elem_of_singleton in Hf as ->.
  apply run_validation_valid in R as [[-> Hn]|[x ->]]; simpl; eauto.
Qed.

Lemma Book_setattrs_validated_any w meta p d vd i :
  meta = BookSerializer \/ meta = BookImageSerializer ->
  is_valid w meta p d = inr vd ->
  exists i', Book_setattrs i vd = inr i'.
Proof.
  intros Hmeta Hvalid. apply is_valid_entries in Hvalid.
  revert i. induction vd as [|kv vd IH]; intros i; cbn [Book_setattrs];
    [eauto|].
  apply Forall_cons in Hvalid as [Hkv Hvd].
  assert (Hstep : exists i1, Book_setattr i kv = inr i1).
  { destruct Hmeta as [->| ->];
      [by eapply Book_setattr_validated
      |by eapply Book_setattr_validated_image]. }
  destruct Hstep as [i1 ->]. by apply IH.
Qed.

Lemma meta_names_NoDup meta :
  meta = BookSerializer \/ meta = BookImageSerializer ->
  NoDup (map field_name (writable_fields meta)).
Proof.
  intros [->| ->];
    [apply writable_names_BookSerializer
    |apply writable_names_BookImageSerializer].
Qed.

Lemma meta_no_user meta :
  meta = BookSerializer \/ meta = BookImageSerializer ->
  "user"%string ∉ fields meta.
Proof.
  intros [->| ->]; [apply no_user_field|].
  cbn. repeat (rewrite not_elem_of_cons). repeat split; try discriminate.
  apply not_elem_of_nil.
Qed.

(** Saving validated data onto a stored book: the row is replaced by
    one with the same owner, the validated values in the columns the
    data names, and the old values elsewhere. *)
Lemma save_existing_outcome w0 meta p d vd id b w :
  meta = BookSerializer \/ meta = BookImageSerializer ->
  is_valid w0 meta p d = inr vd ->
  exists b' w',
    save_existing {| pk := Some id; row := b; upload := None |} vd [] w
    = (inr {| pk := Some id; row := b'; upload := None |}, w')
    /\ books w' = <[id := b']> (books w)
    /\ book_seq w' = book_seq w
    /\ rest_kept w w'
    /\ user_id b' = user_id b
    /\ (forall name, name ∈ plain_columns ->
          Book_getattr id b' name
          = match dict_get name vd with
            | Some v => v
            | None => Book_getattr id b name
            end)
    /\ image b' = saved_image w vd (image b)
    /\ media w' = media w
                  ++ match dict_get "image" vd with
                     | Some (PFile f) =>
                         [(book_image_file_path (urandom w (drawn w))
                             (file_name f), f)]
                     | _ => []
                     end.
Proof.
  intros Hmeta Hvalid. unfold save_existing. rewrite dict_merge_nil.
  destruct (Book_setattrs_validated_any w0 meta p d vd
              {| pk := Some id; row := b; upload := None |} Hmeta Hvalid)
    as [i' Hi'].
  rewrite Hi'.
  pose proof (is_valid_keys_NoDup _ _ _ _ _ (meta_names_NoDup _ Hmeta) Hvalid)
    as Hnd.
  pose proof (Book_setattrs_keeps_pk _ _ _ Hi') as Hpk. cbn in Hpk.
  pose proof (Book_setattrs_image _ _ _ Hnd Hi') as Him. cbn in Him.
  assert (Hcols : forall name, name ∈ plain_columns ->
             Book_getattr id (row i') name
             = match dict_get name vd with
               | Some v => v
               | None => Book_getattr id b name
               end).
  { intros name Hname. by apply (Book_setattrs_column vd id name _ _ Hnd Hi'). }
  assert (Hu : user_id (row i') = user_id b).
  { assert (Hnk : "user"%string ∉ dict_keys vd).
    { intros Hk. apply (meta_no_user _ Hmeta).
      eapply validated_keys_declared; eauto. }
    by destruct (Book_setattrs_keeps_owner vd _ _ Hnk Hi'). }
  destruct (Book_save_spec i' w)
    as (w' & Hs & Hb & Hseq & Hus & Huseq & Henv & Hur & Hmedia).
  rewrite Hpk in Hs, Hb, Hseq. cbv zeta in Hs, Hb.
  eexists _, w'. split; [exact Hs|]. split; [exact Hb|].
  split; [exact Hseq|]. split.
  { repeat split; try done. eexists. exact Hmedia. }
  cbn [user_id image]. split; [exact Hu|]. split.
  { intros name Hname. rewrite <- (Hcols name Hname).
    unfold plain_columns in Hname.
    repeat (apply elem_of_cons in Hname as [->|Hname]);
      [..|by apply elem_of_nil in Hname]; reflexivity. }
  unfold saved_image. rewrite Hmedia.
  destruct (dict_get "image" vd) as [[]|]; injection Him as Hup Him';
    rewrite ?Hup, ?Him'; done.
Qed.

End Outcomes.

Section Handlers.

Lemma owned_cases C id w :
  (exists b, books w !! id = Some b /\ user_id b = C)
  \/ (forall b, books w !! id = Some b -> user_id b <> C).
Proof.
  destruct (books w !! id) as [b|]; [|by right].
  destruct (decide (user_id b = C)); [left; eauto|right].
  by intros ? [= <-].
Qed.

Lemma retrieve_steps C id w :
  retrieve C id w
  = match get_object C id w with
    | (inl e, w1) => (inl e, w1)
    | (inr i, w1) =>
        (inr {| status_code := 200;
                body := Object (to_representation w1 BookSerializer
                                  (default 0 (pk i)) (row i)) |}, w1)
    end.
Proof.
  unfold retrieve. cbv [bind instance_data get ret get_serializer_class].
  by destruct (get_object C id w) as [[e|i] w1].
Qed.

Lemma destroy_steps C id w :
  destroy C id w
  = match get_object C id w with
    | (inl e, w1) => (inl e, w1)
    | (inr i, w1) =>
        (inr {| status_code := 204; body := NoContent |},
         (set_books (delete id (books w1)) (book_seq w1) w1).2)
    end.
Proof.
  unfold destroy, Book_delete. cbv [bind get ret].
  by destruct (get_object C id w) as [[e|i] w1].
Qed.

(** A payload the full serializer accepts always makes an instance that
    can be inserted: owned by the caller, with the validated columns. *)
Lemma Book_init_validated w d vd C :
  is_valid w BookSerializer false d = inr vd ->
  exists t a rd g ds,
    Book_init (dict_merge vd [("user"%string, PUser C)])
    = inr {| pk := None; row := Build_Book C t a rd g ds None;
             upload := match dict_get "image" vd with
                       | Some (PFile f) => Some f
                       | _ => None
                       end |}
    /\ dict_get "title" vd = Some (PStr t)
    /\ dict_get "author" vd = Some (PStr a)
    /\ dict_get "release_date" vd = Some (PDate rd)
    /\ dict_get "genre" vd = Some (PStr g)
    /\ dict_get "description" vd = Some (PStr ds).
Proof.
  intros Hvalid.
  destruct (is_valid_BookSerializer _ _ _ Hvalid)
    as (t & a & rd & g & ds & img & -> & Himg).
  exists t, a, rd, g, ds.
  destruct Himg as [->|[->|[f ->]]]; repeat split; vm_compute; reflexivity.
Qed.

(** The create handler on an accepted payload. *)
Lemma create_outcome C d w vd :
  is_valid w BookSerializer false d = inr vd ->
  exists b w',
    create C d w
    = (inr {| status_code := 201;
              body := Object (to_representation w' BookSerializer
                                (book_seq w + 1) b) |}, w')
    /\ books w' = <[book_seq w + 1 := b]> (books w)
    /\ book_seq w' = book_seq w + 1
    /\ rest_kept w w'
    /\ user_id b = C
    /\ dict_get "title" vd = Some (PStr (title b))
    /\ dict_get "author" vd = Some (PStr (author b))
    /\ dict_get "release_date" vd = Some (PDate (release_date b))
    /\ dict_get "genre" vd = Some (PStr (genre b))
    /\ dict_get "description" vd = Some (PStr (description b))
    /\ image b = saved_image w vd None.
Proof.
  intros Hvalid. rewrite create_steps, Hvalid. unfold Book_objects_create.
  destruct (Book_init_validated w d vd C Hvalid)
    as (t & a & rd & g & ds & -> & Ht & Ha & Hrd & Hg & Hds).
  match goal with
  | |- context [Book_save ?i w] =>
      destruct (Book_save_spec i w)
        as (w' & -> & Hb & Hseq & Hus & Huseq & Henv & Hur & Hmedia)
  end.
  cbn in Hb, Hseq, Hmedia |- *.
  eexists _, w'. split; [reflexivity|]. split; [exact Hb|].
  split; [exact Hseq|]. split.
  { repeat split; try done. eexists. exact Hmedia. }
  cbn. repeat (split; [done|]). unfold saved_image.
  by destruct (dict_get "image" vd) as [[]|].
Qed.

End Handlers.

Section Routes.

Lemma item_route_cases route id :
  route_item route = Some id ->
  route = GetItem id \/ route = PutItem id \/ route = PatchItem id
  \/ route = DeleteItem id \/ route = PostUploadImage id.
Proof. destruct route; intros [= <-]; auto 6. Qed.

Lemma serve_not_owned route C id d w :
  route_item route = Some id ->
  (forall b, books w !! id = Some b -> user_id b <> C) ->
  serve route {| user := Some C; data := d |} w = (not_found, w).
Proof.
  intros Hr Hno. pose proof (get_object_not_owned _ _ _ Hno) as Hg.
  apply item_route_cases in Hr as [->|[->|[->|[->| ->]]]];
    unfold serve, api_retrieve, api_update, api_partial_update, api_destroy,
      api_upload_image, update, partial_update, dispatch; cbn [user data].
  - by rewrite retrieve_steps, Hg.
  - by rewrite (update_with_steps update_action _ _ _ _ _ eq_refl), Hg.
  - by rewrite (update_with_steps partial_update_action _ _ _ _ _ eq_refl), Hg.
  - by rewrite destroy_steps, Hg.
  - by rewrite upload_image_steps, Hg.
Qed.

(** An item route on a book of the caller's, once the instance is
    fetched: the result of validating and saving with [meta]. *)
Lemma save_route_facts meta p d id b C w (statuses : list Z) res :
  meta = BookSerializer \/ meta = BookImageSerializer ->
  books w !! id = Some b -> user_id b = C ->
  200 ∈ statuses -> 400 ∈ statuses ->
  res = match is_valid w meta p d with
        | inl errors =>
            ({| status_code := 400; body := Errors errors |}, w)
        | inr vd =>
            match save_existing
                    {| pk := Some id; row := b; upload := None |} vd [] w with
            | (inl e, w2) => (exception_response e, w2)
            | (inr i', w2) =>
                ({| status_code := 200;
                    body := Object (to_representation w2 meta
                                      (default 0 (pk i')) (row i')) |}, w2)
            end
        end ->
  status_code res.1 ∈ statuses
  /\ book_effect C w res.2 /\ rest_kept w res.2
  /\ (status_code res.1 ∈ [400; 404] -> res.2 = w).
Proof.
  intros Hmeta Hb Hu H200 H400 ->.
  destruct (is_valid w meta p d) as [errors|vd] eqn:V.
  - cbn. split; [done|]. split; [by apply effect_none|].
    split; [apply rest_kept_refl|done].
  - destruct (save_existing_outcome w meta p d vd id b w Hmeta V)
      as (b' & w' & -> & Hbooks & Hseq & Hrest & Hu' & _).
    cbn. split; [done|]. split.
    { apply (effect_update C w w' id b b' Hb Hu);
        [congruence|exact Hbooks|exact Hseq]. }
    split; [exact Hrest|].
    intros H. repeat (apply elem_of_cons in H as [H|H]; [discriminate H|]).
    by apply elem_of_nil in H.
Qed.

Lemma serve_facts route C d w :
  let res := serve route {| user := Some C; data := d |} w in
  status_code res.1 ∈ route_statuses route
  /\ book_effect C w res.2 /\ rest_kept w res.2
  /\ (status_code res.1 ∈ [400; 404] -> res.2 = w).
Proof.
  assert (Hnone : forall (statuses : list Z) r,
             status_code r ∈ statuses ->
             status_code (r, w).1 ∈ statuses
             /\ book_effect C w (r, w).2 /\ rest_kept w (r, w).2
             /\ (status_code (r, w).1 ∈ [400; 404] -> (r, w).2 = w)).
  { intros statuses r Hr. cbn. split; [done|].
    split; [by apply effect_none|]. split; [apply rest_kept_refl|done]. }
  assert (H404 : forall route' id,
             route_item route' = Some id -> 404 ∈ route_statuses route' ->
             (forall b, books w !! id = Some b -> user_id b <> C) ->
             let res := serve route' {| user := Some C; data := d |} w in
             status_code res.1 ∈ route_statuses route'
             /\ book_effect C w res.2 /\ rest_kept w res.2
             /\ (status_code res.1 ∈ [400; 404] -> res.2 = w)).
  { intros route' id Hr H Hno. cbv zeta.
    rewrite (serve_not_owned _ _ _ _ _ Hr Hno). by apply Hnone. }
  destruct route as [| |id|id|id|id|id]; cbv zeta.
  - apply Hnone. cbn. left.
  - unfold serve, api_create, dispatch. cbn [user data].
    destruct (is_valid w BookSerializer false d) as [errors|vd] eqn:V.
    + rewrite create_steps, V. apply Hnone. cbn. right. left.
    + destruct (create_outcome C d w vd V)
        as (b & w' & -> & Hb & Hseq & Hrest & Hu & _).
      cbn. split; [left|]. split; [by eapply effect_insert|].
      split; [exact Hrest|].
      intros H. repeat (apply elem_of_cons in H as [H|H]; [discriminate H|]).
      by apply elem_of_nil in H.
  - destruct (owned_cases C id w) as [(b & Hb & Hu)|Hno];
      [|apply (H404 (GetItem id) id eq_refl); [cbn; right; left|done]].
    unfold serve, api_retrieve, dispatch. cbn [user data].
    rewrite retrieve_steps, (get_object_owned _ _ _ _ Hb Hu).
    apply Hnone. cbn. left.
  - destruct (owned_cases C id w) as [(b & Hb & Hu)|Hno];
      [|apply (H404 (PutItem id) id eq_refl); [cbn; do 2 right; left|done]].
    unfold serve, api_update, update, dispatch. cbn [user data].
    rewrite (update_with_steps update_action _ _ _ _ _ eq_refl),
      (get_object_owned _ _ _ _ Hb Hu).
    apply (save_route_facts BookSerializer false d id b C w); auto.
    + cbn. left.
    + cbn. right. left.
    + destruct (is_valid w BookSerializer false d); [done|].
      by destruct (save_existing _ _ _ _) as [[e|i'] w2].
  - destruct (owned_cases C id w) as [(b & Hb & Hu)|Hno];
      [|apply (H404 (PatchItem id) id eq_refl); [cbn; do 2 right; left|done]].
    unfold serve, api_partial_update, partial_update, dispatch.
    cbn [user data].
    rewrite (update_with_steps partial_update_action _ _ _ _ _ eq_refl),
      (get_object_owned _ _ _ _ Hb Hu).
    apply (save_route_facts BookSerializer true d id b C w); auto.
    + cbn. left.
    + cbn. right. left.
    + destruct (is_valid w BookSerializer true d); [done|].
      by destruct (save_existing _ _ _ _) as [[e|i'] w2].
  - destruct (owned_cases C id w) as [(b & Hb & Hu)|Hno];
      [|apply (H404 (DeleteItem id) id eq_refl); [cbn; right; left|done]].
    unfold serve, api_destroy, dispatch. cbn [user data].
    rewrite destroy_steps, (get_object_owned _ _ _ _ Hb Hu).
    cbn. split; [left|]. split; [by eapply effect_delete|].
    split; [repeat split; exists []; by rewrite app_nil_r|].
    intros H. repeat (apply elem_of_cons in H as [H|H]; [discriminate H|]).
    by apply elem_of_nil in H.
  - destruct (owned_cases C id w) as [(b & Hb & Hu)|Hno];
      [|apply (H404 (PostUploadImage id) id eq_refl);
        [cbn; do 2 right; left|done]].
    unfold serve, api_upload_image, dispatch. cbn [user data].
    rewrite upload_image_steps, (get_object_owned _ _ _ _ Hb Hu).
    apply (save_route_facts BookImageSerializer false d id b C w); auto.
    + cbn. left.
    + cbn. right. left.
    + destruct (is_valid w BookImageSerializer false d); [done|].
      by destruct (save_existing _ _ _ _) as [[e|i'] w2].
Qed.

End Routes.

(** X1.  Every route answers a request without credentials with 401,
    and a request with credentials with one of the route's own status
    codes: 200 for the list, 201 or 400 for create, 200 or 404 for
    retrieve, 200, 400 or 404 for the updates and the image upload, 204
    or 404 for delete.  In particular no handler ends in a server error,
    and a request answered 400, 401 or 404 has changed nothing. *)
Theorem route_status_codes (route : Route) (request : Request) (w : World) :
  let res := serve route request w in
  (user request = None -> res = (exception_response NotAuthenticated, w))
  /\ (user request <> None -> status_code res.1 ∈ route_statuses route)
  /\ (status_code res.1 ∈ [400; 401; 404] -> res.2 = w)
  /\ status_code res.1 <> 500.
Proof.
  destruct request as [[C|] d]; cbv zeta.
  - destruct (serve_facts route C d w) as (Hs & _ & _ & Hw).
    split; [done|]. split; [done|]. split.
    + intros H. apply Hw. rewrite !elem_of_cons in H.
      destruct H as [H|[H|[H|H]]].
      * rewrite H. left.
      * exfalso. rewrite H in Hs. destruct route; cbn in Hs;
          repeat (apply elem_of_cons in Hs as [Hs|Hs]; [discriminate Hs|]);
          by apply elem_of_nil in Hs.
      * rewrite H. right. left.
      * by apply elem_of_nil in H.
    + intros H. rewrite H in Hs. destruct route; cbn in Hs;
        repeat (apply elem_of_cons in Hs as [Hs|Hs]; [discriminate Hs|]);
        by apply elem_of_nil in Hs.
  - assert (E : serve route {| user := None; data := d |} w
                = (exception_response NotAuthenticated, w)).
    { by destruct route. }
    rewrite E. cbn. split; [done|]. split; [done|]. split; [done|].
    discriminate.
Qed.

(** X2.  An item route (retrieve, update, partial update, delete, image
    upload) whose key is not a book of the caller's, because there is no
    such row or because it is another user's, answers 404 and changes
    nothing. *)
Theorem item_routes_not_found (route : Route) (C id : Z) (d : RequestData)
    (w : World) :
  route_item route = Some id ->
  (forall b, books w !! id = Some b -> user_id b <> C) ->
  serve route {| user := Some C; data := d |} w = (not_found, w).
Proof. apply serve_not_owned. Qed.

(** A witness for X2: account 1 tries to delete book 2 of account 2. *)
Lemma item_routes_not_found_witness :
  serve (DeleteItem 2) {| user := Some 1; data := json [] |} sample_world
  = (not_found, sample_world).
Proof.
  apply (item_routes_not_found (DeleteItem 2) 1 2); [reflexivity|].
  intros b [= <-]. discriminate.
Defined.

(** X3.  Retrieve answers 200 exactly for a book of the caller's, and
    then with the projection of the stored row; it never changes
    anything. *)
Theorem retrieve_owned (C id : Z) (d : RequestData) (w : World) :
  let res := api_retrieve id {| user := Some C; data := d |} w in
  (forall b, books w !! id = Some b -> user_id b = C ->
     res.1 = {| status_code := 200;
                body := Object (to_representation w BookSerializer id b) |})
  /\ (status_code res.1 = 200
      <-> exists b, books w !! id = Some b /\ user_id b = C)
  /\ res.2 = w.
Proof.
  cbv zeta. unfold api_retrieve, dispatch. cbn [user data].
  rewrite retrieve_steps.
  destruct (owned_cases C id w) as [(b & Hb & Hu)|Hno].
  - rewrite (get_object_owned _ _ _ _ Hb Hu). cbn.
    split; [intros b' Hb' _; congruence|]. split; [|done].
    split; [eauto|done].
  - rewrite (get_object_not_owned _ _ _ Hno). cbn.
    split; [intros b Hb Hu; by destruct (Hno b Hb)|]. split; [|done].
    split; [discriminate|]. intros (b & Hb & Hu). by destruct (Hno b Hb).
Qed.

(** X4.  Delete of a book of the caller's answers 204 and removes that
    row and nothing else: the other rows, the key sequence, the accounts
    and the stored files stay.  Afterwards every item route on that key
    answers 404, for every caller. *)
Theorem destroy_removes_own_book (C id : Z) (d : RequestData) (w : World)
    (b : Book) :
  books w !! id = Some b -> user_id b = C ->
  let res := api_destroy id {| user := Some C; data := d |} w in
  status_code res.1 = 204
  /\ books res.2 = delete id (books w)
  /\ book_seq res.2 = book_seq w /\ users res.2 = users w
  /\ media res.2 = media w
  /\ (forall route C' d', route_item route = Some id ->
        serve route {| user := Some C'; data := d' |} res.2
        = (not_found, res.2)).
Proof.
  intros Hb Hu. cbv zeta. unfold api_destroy, dispatch. cbn [user data].
  rewrite destroy_steps, (get_object_owned _ _ _ _ Hb Hu). cbn.
  repeat (split; [reflexivity|]).
  intros route C' d' Hr. eapply serve_not_owned; [exact Hr|].
  cbn. intros b'. by rewrite lookup_delete_eq.
Qed.

(** A witness for X4: account 2 deletes its book 2. *)
Lemma destroy_removes_own_book_witness :
  books (api_destroy 2 {| user := Some 2; data := json [] |}
           sample_world).2 !! 2 = None
  /\ books (api_destroy 2 {| user := Some 2; data := json [] |}
              sample_world).2 !! 1 = Some (sample_book 1 None).
Proof.
  destruct (destroy_removes_own_book 2 2 (json []) sample_world
              (sample_book 2 (Some ("uploads/book/old.jpg" : str)))
              eq_refl eq_refl) as (_ & -> & _).
  split; reflexivity.
Defined.

Section Isolation.

Lemma book_effect_foreign C w w' k b :
  book_effect C w w' -> book_keys_in_seq w ->
  books w !! k = Some b -> user_id b <> C -> books w' !! k = Some b.
Proof.
  intros [Hb _|b0 Hb _ _|id b0 b' H0 Hu0 _ Hb _|id b0 H0 Hu0 Hb _] Hseq Hk Hne;
    rewrite Hb.
  - exact Hk.
  - rewrite lookup_insert_ne; [exact Hk|].
    specialize (Hseq k b Hk). lia.
  - rewrite lookup_insert_ne; [exact Hk|]. intros ->. congruence.
  - rewrite lookup_delete_ne; [exact Hk|]. intros ->. congruence.
Qed.

Lemma book_effect_seq C w w' :
  book_effect C w w' -> book_keys_in_seq w -> book_keys_in_seq w'.
Proof.
  intros [Hb Hs|b0 Hb Hs _|id b0 b' H0 _ _ Hb Hs|id b0 H0 _ Hb Hs] Hseq k b;
    rewrite Hb, Hs.
  - apply Hseq.
  - destruct (decide (book_seq w + 1 = k)) as [<-|Hne]; [lia|].
    rewrite lookup_insert_ne by done. intros Hk.
    specialize (Hseq k b Hk). lia.
  - destruct (decide (id = k)) as [<-|Hne].
    + intros _. by apply (Hseq id b0).
    + rewrite lookup_insert_ne by done. apply Hseq.
  - destruct (decide (id = k)) as [<-|Hne].
    + by rewrite lookup_delete_eq.
    + rewrite lookup_delete_ne by done. apply Hseq.
Qed.

Lemma sample_world_keys_in_seq : book_keys_in_seq sample_world.
Proof.
  intros k b Hk. unfold sample_world in *. cbn [books book_seq] in *.
  destruct (decide (k = 1)) as [->|?]; [lia|].
  destruct (decide (k = 2)) as [->|?]; [lia|].
  rewrite lookup_insert_ne, lookup_singleton_ne in Hk by done.
  discriminate Hk.
Qed.

End Isolation.

(** X5.  Whatever a caller [C] requests on whatever route, the books of
    other users stay exactly as they are, and so do the accounts; files
    in the media store are only ever added.  (The key sequence must not
    lag behind the table, which the next property shows it never
    does.) *)
Theorem routes_leave_foreign_books (route : Route) (C : Z) (d : RequestData)
    (w : World) :
  book_keys_in_seq w ->
  let w' := (serve route {| user := Some C; data := d |} w).2 in
  (forall k b, books w !! k = Some b -> user_id b <> C ->
               books w' !! k = Some b)
  /\ users w' = users w
  /\ exists added, media w' = media w ++ added.
Proof.
  intros Hseq. cbv zeta.
  destruct (serve_facts route C d w) as (_ & He & (Hu & _ & _ & _ & Hm) & _).
  split; [|by split].
  intros k b Hk Hne. by eapply book_effect_foreign.
Qed.

(** A witness for X5: account 1 creates a book; book 2 is untouched. *)
Lemma routes_leave_foreign_books_witness :
  books (serve PostList {| user := Some 1; data := test_create_payload |}
           sample_world).2 !! 2
  = Some (sample_book 2 (Some ("uploads/book/old.jpg" : str))).
Proof.
  destruct (routes_leave_foreign_books PostList 1 test_create_payload
              sample_world sample_world_keys_in_seq) as [H _].
  apply H; [reflexivity|]. cbn. lia.
Defined.

(** X6.  No route ever leaves a key in the book table that the key
    sequence has not reached; so the key a create hands out is new: the
    row is added to the table, and no earlier row is replaced. *)
Theorem book_keys_stay_in_seq (route : Route) (request : Request)
    (w : World) :
  book_keys_in_seq w ->
  book_keys_in_seq (serve route request w).2
  /\ (forall C vd, route = PostList -> user request = Some C ->
        is_valid w BookSerializer false (data request) = inr vd ->
        let w' := (serve route request w).2 in
        books w !! (book_seq w + 1) = None
        /\ (exists b, books w' !! (book_seq w + 1) = Some b
                      /\ user_id b = C)
        /\ (forall k b, books w !! k = Some b -> books w' !! k = Some b)).
Proof.
  intros Hseq. split.
  - destruct request as [[C|] d].
    + destruct (serve_facts route C d w) as (_ & He & _).
      by eapply book_effect_seq.
    + by destruct route.
  - intros C vd -> Hu Hvalid. destruct request as [u d]. cbn in Hu, Hvalid.
    subst u. cbv zeta. unfold serve, api_create, dispatch. cbn [user data].
    destruct (create_outcome C d w vd Hvalid)
      as (b & w' & -> & Hb & _ & _ & HuC & _).
    cbn. assert (Hfree : books w !! (book_seq w + 1) = None).
    { destruct (books w !! (book_seq w + 1)) as [x|] eqn:E; [|done].
      specialize (Hseq _ _ E). lia. }
    split; [exact Hfree|]. rewrite Hb. split.
    + exists b. by rewrite lookup_insert_eq.
    + intros k x Hk. rewrite lookup_insert_ne; [done|]. congruence.
Qed.

(** A witness for X6 on the sample database. *)
Lemma book_keys_stay_in_seq_witness :
  book_keys_in_seq
    (serve PostList {| user := Some 1; data := test_create_payload |}
       sample_world).2.
Proof.
  apply book_keys_stay_in_seq. apply sample_world_keys_in_seq.
Defined.

(** ** What a caller sees *)

Section Views.

Lemma to_representation_env w1 w2 meta id b :
  env w1 = env w2 ->
  to_representation w1 meta id b = to_representation w2 meta id b.
Proof.
  intros H. unfold to_representation, represent, field_to_representation.
  by rewrite H.
Qed.

Lemma strictly_sorted_NoDup (l : list (Z * Book)) :
  StronglySorted (fun x y => y.1 < x.1) l -> NoDup l.
Proof.
  induction 1 as [|x l Hs IH Hx]; [apply NoDup_nil_2|].
  apply NoDup_cons. split; [|exact IH].
  intros Hin. rewrite Forall_forall in Hx. specialize (Hx x Hin). lia.
Qed.

(** The query set is the one strictly descending list of the caller's
    rows. *)
Lemma get_queryset_unique C w (l : list (Z * Book)) :
  StronglySorted (fun x y => y.1 < x.1) l ->
  (forall i b, (i, b) ∈ l <-> books w !! i = Some b /\ user_id b = C) ->
  get_queryset C w = l.
Proof.
  intros Hs Hl.
  apply (StronglySorted_unique_strong (fun x y : Z * Book => y.1 < x.1)).
  - intros x1 x2 _ _ H1 H2. lia.
  - apply get_queryset_sorted.
  - exact Hs.
  - apply NoDup_Permutation.
    + apply strictly_sorted_NoDup, get_queryset_sorted.
    + by apply strictly_sorted_NoDup.
    + intros [i b]. by rewrite elem_of_get_queryset, Hl.
Qed.

Lemma get_queryset_owned_by C w1 w2 :
  owned_by C w1 = owned_by C w2 -> get_queryset C w1 = get_queryset C w2.
Proof.
  intros H. apply get_queryset_unique; [apply get_queryset_sorted|].
  intros i b. rewrite elem_of_get_queryset.
  assert (G : forall w, books w !! i = Some b /\ user_id b = C
                        <-> owned_by C w !! i = Some b).
  { intros w. unfold owned_by. by rewrite map_lookup_filter_Some. }
  by rewrite !G, H.
Qed.

Lemma get_queryset_insert_new C w b :
  book_keys_in_seq w -> user_id b = C ->
  forall w', books w' = <[book_seq w + 1 := b]> (books w) ->
  get_queryset C w' = (book_seq w + 1, b) :: get_queryset C w.
Proof.
  intros Hseq Hu w' Hb. apply get_queryset_unique.
  - constructor; [apply get_queryset_sorted|].
    apply Forall_forall. intros [i x] Hin.
    apply elem_of_get_queryset in Hin as [Hi _].
    specialize (Hseq _ _ Hi). simpl. lia.
  - intros i x. rewrite elem_of_cons, elem_of_get_queryset, Hb.
    destruct (decide (book_seq w + 1 = i)) as [<-|Hne].
    + rewrite lookup_insert_eq. split.
      * intros [[= ->]|[Hi _]]; [done|].
        specialize (Hseq _ _ Hi). lia.
      * intros [[= ->] _]. by left.
    + rewrite lookup_insert_ne by done. split.
      * intros [[= E _]|H]; [congruence|done].
      * intros H. by right.
Qed.

End Views.

(** X7.  After a successful create, the caller's list shows the new book
    first, as the create response showed it, followed by the list as it
    was before. *)
Theorem create_then_list (C : Z) (d d' : RequestData) (w : World)
    (vd : pydict) :
  book_keys_in_seq w ->
  is_valid w BookSerializer false d = inr vd ->
  let created := api_create {| user := Some C; data := d |} w in
  exists o,
    created.1 = {| status_code := 201; body := Object o |}
    /\ response_objects
         (api_list {| user := Some C; data := d' |} created.2).1
       = o :: response_objects
                (api_list {| user := Some C; data := d' |} w).1.
Proof.
  intros Hseq Hvalid. cbv zeta. unfold api_create, api_list, dispatch.
  cbn [user data].
  destruct (create_outcome C d w vd Hvalid)
    as (b & w' & -> & Hb & _ & (_ & _ & Henv & _) & Hu & _).
  eexists. split; [reflexivity|]. cbn.
  rewrite (get_queryset_insert_new C w b Hseq Hu w' Hb). cbn. f_equal.
  apply map_ext. intros [i x]. by apply to_representation_env.
Qed.

(** A witness for X7: the scenario of the tests, on the sample
    database. *)
Lemma create_then_list_witness :
  length (response_objects
            (api_list {| user := Some 1; data := json [] |}
               (api_create {| user := Some 1; data := test_create_payload |}
                  sample_world).2).1) = 2%nat.
Proof.
  destruct (create_then_list 1 test_create_payload (json []) sample_world _
              sample_world_keys_in_seq eq_refl) as (o & _ & ->).
  reflexivity.
Defined.

(** X8.  The book a create made can be retrieved under the key of the
    response by its creator, with the very object the create response
    carried; for every other user that key is not found. *)
Theorem create_then_retrieve (C : Z) (d d' : RequestData) (w : World)
    (vd : pydict) :
  is_valid w BookSerializer false d = inr vd ->
  let created := api_create {| user := Some C; data := d |} w in
  dict_get "id" (default [] (head (response_objects created.1)))
    = Some (PInt (book_seq w + 1))
  /\ (api_retrieve (book_seq w + 1) {| user := Some C; data := d' |}
        created.2).1
     = {| status_code := 200; body := body created.1 |}
  /\ (forall C', C' <> C ->
        (api_retrieve (book_seq w + 1) {| user := Some C'; data := d' |}
           created.2).1 = not_found).
Proof.
  intros Hvalid. cbv zeta.
  destruct (create_outcome C d w vd Hvalid)
    as (b & w' & Hc & Hb & _ & _ & Hu & _).
  assert (E : api_create {| user := Some C; data := d |} w
              = ({| status_code := 201;
                    body := Object (to_representation w' BookSerializer
                                      (book_seq w + 1) b) |}, w')).
  { unfold api_create, dispatch. cbn [user data]. by rewrite Hc. }
  rewrite E. cbn [fst snd]. split; [reflexivity|].
  assert (Hk : books w' !! (book_seq w + 1) = Some b).
  { rewrite Hb. apply lookup_insert_eq. }
  split.
  - unfold api_retrieve, dispatch. cbn [user data].
    by rewrite retrieve_steps, (get_object_owned _ _ _ _ Hk Hu).
  - intros C' Hne.
    pose proof (serve_not_owned (GetItem (book_seq w + 1)) C' _ d' w'
                  eq_refl) as H404.
    cbn [serve] in H404. rewrite H404; [done|].
    intros b' Hb'. congruence.
Qed.

(** A witness for X8 on the sample database. *)
Lemma create_then_retrieve_witness :
  status_code
    (api_retrieve 3 {| user := Some 1; data := json [] |}
       (api_create {| user := Some 1; data := test_create_payload |}
          sample_world).2).1 = 200.
Proof.
  destruct (create_then_retrieve 1 test_create_payload (json [])
              sample_world _ eq_refl) as (_ & H & _).
  change (book_seq sample_world + 1) with 3 in H. by rewrite H.
Defined.

(** X9.  What a user sees depends on that user's rows only: two
    databases with the same rows of [C] (and the same configuration)
    give [C] the same list and the same answer to every retrieve.  So,
    with X5, no request of another user changes what [C] sees. *)
Theorem views_depend_on_own_rows (C : Z) (d : RequestData) (w1 w2 : World) :
  owned_by C w1 = owned_by C w2 -> env w1 = env w2 ->
  (api_list {| user := Some C; data := d |} w1).1
  = (api_list {| user := Some C; data := d |} w2).1
  /\ (forall id,
        (api_retrieve id {| user := Some C; data := d |} w1).1
        = (api_retrieve id {| user := Some C; data := d |} w2).1)
  /\ (forall route C' d', C' <> C -> book_keys_in_seq w1 ->
        owned_by C (serve route {| user := Some C'; data := d' |} w1).2
        = owned_by C w1).
Proof.
  intros Hown Henv. pose proof (get_queryset_owned_by C w1 w2 Hown) as Hq.
  split; [|split].
  - unfold api_list, dispatch, list_books. cbv [bind get ret]. cbn.
    rewrite Hq. f_equal. f_equal.
    apply map_ext. intros [i b]. by apply to_representation_env.
  - intros id. unfold api_retrieve, dispatch. cbn [user data].
    rewrite !retrieve_steps. unfold get_object. cbv [bind get ret raise].
    rewrite Hq.
    destruct (filter _ (get_queryset C w2)) as [|r [|r' l]]; cbn; try done.
    f_equal. f_equal. by apply to_representation_env.
  - intros route C' d' Hne Hseq.
    destruct (serve_facts route C' d' w1) as (_ & He & _).
    apply map_eq. intros k. unfold owned_by.
    apply option_eq. intros b. rewrite !map_lookup_filter_Some. cbn.
    split.
    + intros [Hk Hu].
      destruct He as [Hb _|b0 Hb _ Hu0|id b0 b' H0 Hu0 Hu' Hb _
                     |id b0 H0 Hu0 Hb _]; rewrite Hb in Hk.
      * done.
      * destruct (decide (book_seq w1 + 1 = k)) as [<-|?].
        { rewrite lookup_insert_eq in Hk. congruence. }
        by rewrite lookup_insert_ne in Hk.
      * destruct (decide (id = k)) as [<-|?].
        { rewrite lookup_insert_eq in Hk. congruence. }
        by rewrite lookup_insert_ne in Hk.
      * destruct (decide (id = k)) as [<-|?].
        { by rewrite lookup_delete_eq in Hk. }
        by rewrite lookup_delete_ne in Hk.
    + intros [Hk Hu]. split; [|done].
      eapply book_effect_foreign; eauto. congruence.
Qed.

(** A witness for X9: account 1 creates a book; the list of account 2
    is what it was. *)
Lemma views_depend_on_own_rows_witness :
  (api_list {| user := Some 2; data := json [] |}
     (serve PostList {| user := Some 1; data := test_create_payload |}
        sample_world).2).1
  = (api_list {| user := Some 2; data := json [] |} sample_world).1.
Proof.
  destruct (views_depend_on_own_rows 2 (json []) sample_world sample_world
              eq_refl eq_refl) as (_ & _ & H).
  destruct (views_depend_on_own_rows 2 (json [])
              (serve PostList
                 {| user := Some 1; data := test_create_payload |}
                 sample_world).2 sample_world) as (Hl & _).
  - apply (H PostList 1 test_create_payload); [lia|].
    apply sample_world_keys_in_seq.
  - reflexivity.
  - exact Hl.
Defined.

(** ** Rejected payloads *)

Section Rejections.

Lemma validate_fields_errors w p fs d errors vd f c :
  validate_fields w p fs d = (errors, vd) -> f ∈ fs ->
  run_validation w p f (get_value f d) = Invalid c ->
  (field_name f, c) ∈ errors.
Proof.
  revert errors vd. induction fs as [|g fs IH]; intros errors vd H Hf R.
  - by apply elem_of_nil in Hf.
  - simpl in H. destruct (validate_fields w p fs d) as [errors' ret] eqn:E.
    apply elem_of_cons in Hf as [->|Hf].
    + rewrite R in H. injection H as <- <-. left.
    + specialize (IH _ _ eq_refl Hf R).
      destruct (run_validation w p g (get_value g d));
        injection H as <- <-; [done|done|by right].
Qed.

Lemma is_valid_invalid w meta p d f c :
  f ∈ writable_fields meta ->
  run_validation w p f (get_value f d) = Invalid c ->
  exists errors, is_valid w meta p d = inl errors
                 /\ (field_name f, c) ∈ errors.
Proof.
  intros Hf R. unfold is_valid.
  destruct (validate_fields _ _ _ _) as [errors vd] eqn:E.
  pose proof (validate_fields_errors _ _ _ _ _ _ _ _ E Hf R) as Hin.
  destruct errors; [by apply elem_of_nil in Hin|]. eauto.
Qed.

(** A route that validates with the full serializer answers 400 with
    the field's error, and changes nothing, when a field is invalid. *)
Lemma invalid_field_rejected route p C d w f c :
  route_partial route = Some p -> route_allowed route C w ->
  f ∈ writable_fields BookSerializer ->
  run_validation w p f (get_value f d) = Invalid c ->
  let res := serve route {| user := Some C; data := d |} w in
  status_code res.1 = 400 /\ (field_name f, c) ∈ response_errors res.1
  /\ res.2 = w.
Proof.
  intros Hp Hallowed Hf R.
  destruct (is_valid_invalid w BookSerializer p d f c Hf R)
    as (errors & V & Hin).
  destruct route as [| |id|id|id|id|id]; try discriminate Hp;
    injection Hp as <-; cbv zeta;
    unfold serve, api_create, api_update, api_partial_update, update,
      partial_update, dispatch; cbn [user data].
  - by rewrite create_steps, V.
  - destruct Hallowed as (b & Hb & Hu).
    by rewrite (update_with_steps update_action _ _ _ _ _ eq_refl),
      (get_object_owned _ _ _ _ Hb Hu), V.
  - destruct Hallowed as (b & Hb & Hu).
    by rewrite (update_with_steps partial_update_action _ _ _ _ _ eq_refl),
      (get_object_owned _ _ _ _ Hb Hu), V.
Qed.

Lemma writable_field_by_name k :
  k ∈ required_columns ->
  exists f, f ∈ writable_fields BookSerializer /\ field_name f = k
            /\ required f = true /\ allow_null f = false
            /\ (k ∈ bounded_columns ->
                field_type_of f = CharField (Some 255)).
Proof.
  intros Hk. rewrite writable_BookSerializer. unfold required_columns in Hk.
  assert (Hnot : forall x : string,
             x <> "title"%string -> x <> "author"%string ->
             x <> "genre"%string -> x ∉ bounded_columns).
  { intros x ? ? ? H. unfold bounded_columns in H.
    repeat (apply elem_of_cons in H as [H|H]; [done|]).
    by apply elem_of_nil in H. }
  repeat (apply elem_of_cons in Hk as [->|Hk]);
    [exists (char_field "title" (Some 255))
    |exists (char_field "author" (Some 255))
    |exists date_field
    |exists (char_field "genre" (Some 255))
    |exists (char_field "description" None)
    |by apply elem_of_nil in Hk];
    (split; [repeat (apply elem_of_cons; first [by left|right])|]);
    repeat (split; [reflexivity|]);
    first [reflexivity | intros H; by apply Hnot in H].
Qed.

End Rejections.

(** X10.  Create and full update need all five columns [title],
    [author], [release_date], [genre] and [description]: when the
    payload lacks one, or holds null for it, the answer is 400 with the
    error [required] (or [null]) for that column, and nothing is
    stored.  (A partial update does not need them, see X12.) *)
Theorem required_columns_enforced (route : Route) (k : string) (C : Z)
    (d : RequestData) (w : World) :
  route_partial route = Some false -> route_allowed route C w ->
  k ∈ required_columns ->
  let res := serve route {| user := Some C; data := d |} w in
  (items d !! k = None ->
   status_code res.1 = 400 /\ (k, "required"%string) ∈ response_errors res.1
   /\ res.2 = w)
  /\ (items d !! k = Some PNone ->
      status_code res.1 = 400 /\ (k, "null"%string) ∈ response_errors res.1
      /\ res.2 = w).
Proof.
  intros Hp Hallowed Hk.
  destruct (writable_field_by_name k Hk) as (f & Hf & <- & Hreq & Hnull & _).
  split.
  - intros Habs.
    apply (invalid_field_rejected route false C d w f "required" Hp Hallowed Hf).
    unfold get_value. rewrite Habs. destruct (html d);
      unfold run_validation; by rewrite Hreq.
  - intros Hn.
    apply (invalid_field_rejected route false C d w f "null" Hp Hallowed Hf).
    unfold get_value. rewrite Hn. destruct (html d);
      unfold run_validation; by rewrite Hnull.
Qed.

(** A witness for X10: a create without [genre]. *)
Lemma required_columns_enforced_witness :
  status_code
    (serve PostList
       {| user := Some 1;
          data := json [("title"%string, PStr "T");
                        ("author"%string, PStr "A");
                        ("release_date"%string, PStr "2030-09-12");
                        ("description"%string, PStr "D")] |}
       sample_world).1 = 400.
Proof.
  destruct (required_columns_enforced PostList "genre" 1
              (json [("title"%string, PStr "T");
                     ("author"%string, PStr "A");
                     ("release_date"%string, PStr "2030-09-12");
                     ("description"%string, PStr "D")]) sample_world
              eq_refl I) as [H _].
  - unfold required_columns. do 3 right. left.
  - apply H. reflexivity.
Defined.

(** X11.  [title], [author] and [genre] are limited to 255 characters,
    counted after trimming: create, update and partial update answer a
    longer text with 400 and the error [max_length] and store nothing,
    and a blank text with the error [blank]. *)
Theorem text_columns_bounded (route : Route) (p : bool) (k : string)
    (s : str) (C : Z) (d : RequestData) (w : World) :
  route_partial route = Some p -> route_allowed route C w ->
  k ∈ bounded_columns -> items d !! k = Some (PStr s) ->
  let res := serve route {| user := Some C; data := d |} w in
  (255 < Z.of_nat (length (strip s)) ->
   status_code res.1 = 400
   /\ (k, "max_length"%string) ∈ response_errors res.1 /\ res.2 = w)
  /\ (strip s = [] ->
      status_code res.1 = 400
      /\ (k, "blank"%string) ∈ response_errors res.1 /\ res.2 = w).
Proof.
  intros Hp Hallowed Hk Hs.
  assert (Hk' : k ∈ required_columns).
  { unfold bounded_columns in Hk. unfold required_columns.
    repeat (apply elem_of_cons in Hk as [->|Hk]);
      [left|right; left|do 3 right; left|by apply elem_of_nil in Hk]. }
  destruct (writable_field_by_name k Hk')
    as (f & Hf & <- & Hreq & Hnull & Hty).
  specialize (Hty Hk).
  assert (Hget : get_value f d = Some (PStr s)).
  { unfold get_value. rewrite Hs. destruct (html d); [|done].
    destruct s; [|done]. by rewrite Hnull, Hreq. }
  split.
  - intros Hlong.
    apply (invalid_field_rejected route p C d w f "max_length" Hp Hallowed Hf).
    rewrite Hget. unfold run_validation. rewrite Hty.
    cbn [to_internal_value]. unfold char_to_internal.
    destruct (strip s) eqn:E; [simpl in Hlong; lia|]. cbn [is_empty].
    destruct (Z.ltb_spec 255 (Z.of_nat (length (a :: l)))); [done|lia].
  - intros Hblank.
    apply (invalid_field_rejected route p C d w f "blank" Hp Hallowed Hf).
    rewrite Hget. unfold run_validation. rewrite Hty.
    cbn [to_internal_value]. by rewrite Hblank.
Qed.

(** A witness for X11: a partial update of book 1 with a title of 256
    characters. *)
Lemma text_columns_bounded_witness :
  status_code
    (serve (PatchItem 1)
       {| user := Some 1;
          data := json [("title"%string, PStr (repeat "a"%char 256))] |}
       sample_world).1 = 400.
Proof.
  destruct (text_columns_bounded (PatchItem 1) true "title"
              (repeat "a"%char 256) 1
              (json [("title"%string, PStr (repeat "a"%char 256))])
              sample_world eq_refl) as [H _].
  - exists (sample_book 1 None). split; reflexivity.
  - left.
  - reflexivity.
  - apply H. vm_compute. reflexivity.
Defined.

(** ** Accepted updates and uploads *)

Section AcceptedWrites.

Lemma Book_eq_columns id b b' :
  (forall name, name ∈ plain_columns ->
                Book_getattr id b' name = Book_getattr id b name) ->
  image b' = image b -> b' = b.
Proof.
  intros H Hi. destruct b as [u t a rd g ds im], b' as [u' t' a' rd' g' ds' im'].
  simpl in Hi. subst im'.
  assert (Hin : forall name, name ∈ plain_columns -> name ∈ plain_columns)
    by done.
  pose proof (H "user"%string ltac:(unfold plain_columns; left)) as H1.
  pose proof (H "title"%string
                ltac:(unfold plain_columns; right; left)) as H2.
  pose proof (H "author"%string
                ltac:(unfold plain_columns; do 2 right; left)) as H3.
  pose proof (H "release_date"%string
                ltac:(unfold plain_columns; do 3 right; left)) as H4.
  pose proof (H "genre"%string
                ltac:(unfold plain_columns; do 4 right; left)) as H5.
  pose proof (H "description"%string
                ltac:(unfold plain_columns; do 5 right; left)) as H6.
  cbn in H1, H2, H3, H4, H5, H6. congruence.
Qed.

Lemma update_route_steps route p id C d w b :
  (route = PutItem id /\ p = false) \/ (route = PatchItem id /\ p = true) ->
  books w !! id = Some b -> user_id b = C ->
  serve route {| user := Some C; data := d |} w
  = match is_valid w BookSerializer p d with
    | inl errors => ({| status_code := 400; body := Errors errors |}, w)
    | inr vd =>
        match save_existing {| pk := Some id; row := b; upload := None |}
                vd [] w with
        | (inl e, w2) => (exception_response e, w2)
        | (inr i', w2) =>
            ({| status_code := 200;
                body := Object (to_representation w2 BookSerializer
                                  (default 0 (pk i')) (row i')) |}, w2)
        end
    end.
Proof.
  intros [[-> ->]|[-> ->]] Hb Hu;
    unfold serve, api_update, api_partial_update, update, partial_update,
      dispatch; cbn [user data].
  - rewrite (update_with_steps update_action _ _ _ _ _ eq_refl),
      (get_object_owned _ _ _ _ Hb Hu).
    destruct (is_valid w BookSerializer false d); [done|].
    by destruct (save_existing _ _ _ _) as [[e|i'] w2].
  - rewrite (update_with_steps partial_update_action _ _ _ _ _ eq_refl),
      (get_object_owned _ _ _ _ Hb Hu).
    destruct (is_valid w BookSerializer true d); [done|].
    by destruct (save_existing _ _ _ _) as [[e|i'] w2].
Qed.

End AcceptedWrites.

(** X12.  A full or partial update of a book of the caller's with an
    accepted payload answers 200 with the projection of the new row and
    replaces that row only.  The new row has the old owner; each column
    holds its validated value when the validated data names it and its
    old value otherwise, and a key the payload lacks is never named; the
    image is replaced by an upload, cleared by null and kept otherwise.
    A full update always names the five required columns; a partial
    update that names nothing leaves the row as it is. *)
Theorem update_sets_named_columns (route : Route) (p : bool) (C id : Z)
    (d : RequestData) (w : World) (b : Book) (vd : pydict) :
  (route = PutItem id /\ p = false) \/ (route = PatchItem id /\ p = true) ->
  books w !! id = Some b -> user_id b = C ->
  is_valid w BookSerializer p d = inr vd ->
  let res := serve route {| user := Some C; data := d |} w in
  exists b',
    res.1 = {| status_code := 200;
               body := Object (to_representation res.2 BookSerializer id b') |}
    /\ books res.2 = <[id := b']> (books w)
    /\ user_id b' = user_id b
    /\ (forall name, name ∈ plain_columns ->
          Book_getattr id b' name
          = match dict_get name vd with
            | Some v => v
            | None => Book_getattr id b name
            end)
    /\ image b' = saved_image w vd (image b)
    /\ (forall name, items d !! name = None -> dict_get name vd = None)
    /\ (p = false -> forall name, name ∈ required_columns ->
          is_Some (dict_get name vd))
    /\ (vd = [] -> b' = b).
Proof.
  intros Hroute Hb Hu Hvalid. cbv zeta.
  rewrite (update_route_steps route p id C d w b Hroute Hb Hu), Hvalid.
  destruct (save_existing_outcome w BookSerializer p d vd id b w
              (or_introl eq_refl) Hvalid)
    as (b' & w' & -> & Hbooks & _ & _ & Hu' & Hcols & Him & _).
  exists b'. cbn. split; [reflexivity|]. split; [exact Hbooks|].
  split; [exact Hu'|]. split; [exact Hcols|]. split; [exact Him|].
  split; [|split].
  - intros name Habs. apply dict_get_absent.
    by eapply absent_key_not_validated.
  - intros -> name Hname.
    destruct (is_valid_BookSerializer _ _ _ Hvalid)
      as (t & a & rd & g & ds & img & -> & _).
    unfold required_columns in Hname.
    repeat (apply elem_of_cons in Hname as [->|Hname]);
      [..|by apply elem_of_nil in Hname]; cbn; eauto.
  - intros ->. apply (Book_eq_columns id).
    + intros name Hname. by rewrite (Hcols name Hname).
    + by rewrite Him.
Qed.

(** A witness for X12: account 1 renames its book 1 and names account 2
    as [user] in the same payload. *)
Lemma update_sets_named_columns_witness :
  exists b',
    books (serve (PatchItem 1)
             {| user := Some 1;
                data := json [("title"%string, PStr " New ");
                              ("user"%string, PInt 2)] |} sample_world).2 !! 1
    = Some b'
    /\ user_id b' = 1 /\ title b' = ("New" : str)
    /\ author b' = ("Au" : str).
Proof.
  destruct (update_sets_named_columns (PatchItem 1) true 1 1
              (json [("title"%string, PStr " New "); ("user"%string, PInt 2)])
              sample_world (sample_book 1 None)
              [("title"%string, PStr "New")])
    as (b' & _ & -> & Hu & Hcols & _); [by right|reflexivity..|].
  exists b'. split; [apply lookup_insert_eq|]. split; [exact Hu|].
  pose proof (Hcols "title"%string
                ltac:(unfold plain_columns; right; left)) as Ht.
  pose proof (Hcols "author"%string
                ltac:(unfold plain_columns; do 2 right; left)) as Ha.
  cbn in Ht, Ha. injection Ht as Ht. injection Ha as Ha.
  split; [exact Ht|exact Ha].
Defined.



(** ** What the serializer stores *)

Section CleanText.

Lemma lstrip_head s :
  lstrip s = [] \/ exists c t, lstrip s = c :: t /\ is_space c = false.
Proof.
  induction s as [|x s IH]; simpl; [by left|].
  destruct (is_space x) eqn:E; [exact IH|]. right. eauto.
Qed.

Lemma lstrip_fixed c t : is_space c = false -> lstrip (c :: t) = c :: t.
Proof. intros H. simpl. by rewrite H. Qed.

Lemma lstrip_lstrip s : lstrip (lstrip s) = lstrip s.
Proof.
  destruct (lstrip_head s) as [->|(c & t & -> & Hc)]; [done|].
  by apply lstrip_fixed.
Qed.

Lemma rstrip_rstrip s : rstrip (rstrip s) = rstrip s.
Proof. unfold rstrip. by rewrite rev_involutive, lstrip_lstrip. Qed.

Lemma rstrip_cons_nonspace c t :
  is_space c = false -> rstrip (c :: t) = c :: rstrip t.
Proof. intros H. by apply (rstrip_app_nonspace [] c t). Qed.

(** Trimming twice is trimming once. *)
Lemma strip_strip s : strip (strip s) = strip s.
Proof.
  unfold strip.
  destruct (lstrip_head s) as [->|(c & t & -> & Hc)]; [reflexivity|].
  rewrite (rstrip_cons_nonspace c t Hc), (lstrip_fixed _ _ Hc).
  rewrite <- (rstrip_cons_nonspace c t Hc). apply rstrip_rstrip.
Qed.

Lemma lstrip_no_space s :
  forallb (fun c => negb (is_space c)) s = true -> lstrip s = s.
Proof.
  destruct s as [|c s]; [done|]. simpl. intros H.
  apply andb_true_iff in H as [H _]. apply negb_true_iff in H.
  by rewrite H.
Qed.

Lemma strip_no_space s :
  forallb (fun c => negb (is_space c)) s = true -> strip s = s.
Proof.
  intros H. unfold strip, rstrip. rewrite (lstrip_no_space s H).
  rewrite lstrip_no_space; [apply rev_involutive|].
  rewrite forallb_forall in H. apply forallb_forall.
  intros c Hc. apply H. by apply in_rev.
Qed.

Lemma char_to_internal_clean max s x :
  strip s <> [] -> char_to_internal max s = Valid x ->
  x = PStr (strip s) /\ clean_text max (strip s) = true.
Proof.
  intros Hne. unfold char_to_internal, clean_text, str_eqb.
  rewrite strip_strip, bool_decide_eq_true_2 by done.
  destruct (strip s) as [|c t] eqn:E; [done|]. cbn [is_empty negb andb].
  destruct max as [n|].
  - destruct (Z.ltb_spec n (Z.of_nat (length (c :: t)))); [discriminate|].
    destruct (existsb _ (c :: t)); [discriminate|]. intros [= <-].
    split; [done|]. destruct (Z.leb_spec (Z.of_nat (length (c :: t))) n);
      [done|lia].
  - destruct (existsb _ (c :: t)); [discriminate|]. by intros [= <-].
Qed.

Lemma dec_char_plain c :
  dec_char c = true -> is_space c = false /\ ch_eqb c "000" = false.
Proof.
  destruct c as [[] [] [] [] [] [] [] []]; try discriminate; by split.
Qed.

Lemma string_of_uint_chars d :
  forallb dec_char (NilEmpty.string_of_uint d : str) = true.
Proof. induction d; simpl; [done|exact IHd..]. Qed.

(** A printed integer is not empty and has digits and a sign only. *)
Lemma str_of_int_chars k :
  str_of_int k <> [] /\ forallb dec_char (str_of_int k) = true.
Proof.
  unfold str_of_int, NilZero.string_of_int, NilZero.string_of_uint.
  pose proof string_of_uint_chars as H.
  destruct (Z.to_int k) as [d|d]; destruct d; simpl;
    split; try discriminate; try reflexivity;
    match goal with
    | |- forallb dec_char (list_ascii_of_string (NilEmpty.string_of_uint ?d))
         = true => apply (H d)
    end.
Qed.

Lemma str_of_int_strip k : strip (str_of_int k) = str_of_int k.
Proof.
  apply strip_no_space. destruct (str_of_int_chars k) as [_ H].
  rewrite forallb_forall in H. apply forallb_forall. intros c Hc.
  destruct (dec_char_plain c (H c Hc)) as [-> _]. done.
Qed.

Lemma make_date_valid y m dd dt :
  make_date y m dd = Some dt -> valid_date dt = true.
Proof.
  unfold make_date. destruct (valid_date (Date y m dd)) eqn:E; [|done].
  by intros [= <-].
Qed.

Lemma parse_date_valid fromisoformat s dt :
  parse_date fromisoformat s = Some dt -> valid_date dt = true.
Proof.
  unfold parse_date. intros H.
  destruct (date_re_match s) as [[[y m] d]|].
  - by apply make_date_valid in H.
  - destruct (fromisoformat s) as [r|]; [|discriminate].
    destruct (valid_date r) eqn:E; [|discriminate]. by injection H as <-.
Qed.

End CleanText.

Section StoredRows.

Lemma get_value_wire f d v :
  wire_payload d -> get_value f d = Some v -> wire_value v = true.
Proof.
  intros Hd. unfold get_value.
  destruct (html d); [|apply Hd].
  destruct (items d !! field_name f) as [v0|] eqn:E; [|done].
  pose proof (Hd _ _ E) as Hw.
  destruct v0 as [| | |s| | |]; try (by intros [= <-]).
  destruct s; [|by intros [= <-]].
  repeat case_match; by intros [= <-].
Qed.

Lemma dict_get_elem k (vd : pydict) v :
  dict_get k vd = Some v -> (k, v) ∈ vd.
Proof.
  induction vd as [|[k' v'] vd IH]; [done|]. cbn [dict_get].
  destruct (String.eqb_spec k k') as [->|_].
  - intros [= ->]. left.
  - intros H. right. by apply IH.
Qed.

Lemma run_validation_clean w p f v x :
  f ∈ writable_fields BookSerializer -> wire_value v = true ->
  run_validation w p f (Some v) = Valid x -> clean_value (field_name f) x.
Proof.
  intros Hf Hv H. apply list_elem_of_In in Hf. vm_compute in Hf.
  assert (Hchar : forall max, run_validation w p
            {| field_name := field_name f; field_type_of := CharField max;
               read_only := false; required := true; allow_null := false |}
            (Some v) = Valid x ->
            exists s, x = PStr s /\ clean_text max s = true).
  { clear H Hf. intros max H. unfold run_validation, to_internal_value in H.
    cbn [field_type_of allow_null] in H.
    destruct v as [|b|k|s|dt|file|u]; try discriminate.
    - destruct (str_of_int_chars k) as [Hne _].
      rewrite <- str_of_int_strip in Hne.
      destruct (char_to_internal_clean _ _ _ Hne H) as [-> Hc]. eauto.
    - destruct (strip s) as [|c t] eqn:E; [discriminate|].
      cbn [is_empty] in H.
      assert (Hne : strip s <> []) by (by rewrite E).
      destruct (char_to_internal_clean _ _ _ Hne H) as [-> Hc]. eauto.
    - by destruct (is_empty (strip (file_name file))). }
  destruct Hf as [<-|[<-|[<-|[<-|[<-|[<-|[]]]]]]];
    try (by apply (Hchar _ H)); [|done].
  unfold run_validation, to_internal_value in H.
  cbn [field_type_of allow_null] in H.
  destruct v as [|b|k|s|dt|file|u]; try discriminate.
  destruct (parse_date (date_fromisoformat (env w)) s) as [dt|] eqn:E;
    [|discriminate].
  injection H as <-. exists dt. split; [done|]. by eapply parse_date_valid.
Qed.

(** Whatever the full serializer validates from a parsed request body
    is clean text within the column's limit, or a calendar date. *)
Lemma validated_clean w p d vd k v :
  wire_payload d -> is_valid w BookSerializer p d = inr vd ->
  dict_get k vd = Some v -> clean_value k v.
Proof.
  intros Hd V Hk. apply dict_get_elem in Hk.
  pose proof (is_valid_entries _ _ _ _ _ V) as Hall.
  rewrite Forall_forall in Hall.
  destruct (Hall _ Hk) as (f & Hf & Hname & Hrun). cbn in Hname, Hrun.
  destruct (get_value f d) as [v0|] eqn:G.
  - rewrite Hname. eapply run_validation_clean; [exact Hf| |exact Hrun].
    by eapply get_value_wire.
  - unfold run_validation in Hrun. by repeat case_match.
Qed.

Lemma clean_book_columns id b :
  clean_value "title" (Book_getattr id b "title") ->
  clean_value "author" (Book_getattr id b "author") ->
  clean_value "genre" (Book_getattr id b "genre") ->
  clean_value "description" (Book_getattr id b "description") ->
  clean_value "release_date" (Book_getattr id b "release_date") ->
  clean_book b = true.
Proof.
  cbn. intros (? & [= <-] & Ht) (? & [= <-] & Ha) (? & [= <-] & Hg)
    (? & [= <-] & Hd) (? & [= <-] & Hr).
  unfold clean_book. by rewrite Ht, Ha, Hg, Hd, Hr.
Qed.

Lemma clean_book_values id b name :
  clean_book b = true -> name ∈ required_columns ->
  clean_value name (Book_getattr id b name).
Proof.
  unfold clean_book. intros H Hn.
  apply andb_true_iff in H as [H Hr]. apply andb_true_iff in H as [H Hd].
  apply andb_true_iff in H as [H Hg]. apply andb_true_iff in H as [Ht Ha].
  repeat (apply elem_of_cons in Hn as [->|Hn]);
    [exact (ex_intro _ _ (conj eq_refl Ht))
    |exact (ex_intro _ _ (conj eq_refl Ha))
    |exact (ex_intro _ _ (conj eq_refl Hr))
    |exact (ex_intro _ _ (conj eq_refl Hg))
    |exact (ex_intro _ _ (conj eq_refl Hd))
    |by apply elem_of_nil in Hn].
Qed.

End StoredRows.

(** X14.  The routes keep the book table clean: if every stored book
    has non-blank, trimmed text without null characters in its text
    columns, at most 255 characters in [title], [author] and [genre],
    and a calendar date as its release date, then so has every stored
    book after any request whose body is a parsed one (JSON values,
    form strings, uploaded files). *)
Theorem stored_books_stay_clean (route : Route) (request : Request)
    (w : World) :
  wire_payload (data request) -> books_clean w ->
  books_clean (serve route request w).2.
Proof.
  intros Hd Hclean. destruct request as [[C|] d]; cbn [data] in Hd;
    [|by destruct route].
  assert (Hput : forall w' k b',
             books w' = <[k := b']> (books w) -> clean_book b' = true ->
             books_clean w').
  { intros w' k b' Hb Hc k' b0. rewrite Hb.
    destruct (decide (k = k')) as [->|Hne].
    - rewrite lookup_insert_eq. by intros [= <-].
    - rewrite lookup_insert_ne by done. apply Hclean. }
  assert (Hsave : forall meta p vd id b,
             meta = BookSerializer \/ meta = BookImageSerializer ->
             books w !! id = Some b ->
             is_valid w meta p d = inr vd ->
             (forall name v, name ∈ required_columns ->
                dict_get name vd = Some v -> clean_value name v) ->
             books_clean
               (save_existing {| pk := Some id; row := b; upload := None |}
                  vd [] w).2).
  { intros meta p vd id b Hmeta Hb V Hvd.
    destruct (save_existing_outcome w meta p d vd id b w Hmeta V)
      as (b' & w' & -> & Hbooks & _ & _ & _ & Hcols & _).
    apply (Hput w' id b' Hbooks).
    assert (Hcol : forall name, name ∈ required_columns ->
               clean_value name (Book_getattr id b' name)).
    { intros name Hn. rewrite Hcols.
      - destruct (dict_get name vd) as [v|] eqn:G; [by apply Hvd|].
        apply clean_book_values; [by eapply Hclean|done].
      - unfold plain_columns. right. exact Hn. }
    apply (clean_book_columns id); apply Hcol; unfold required_columns;
      repeat first [by left|right]. }
  assert (Hitem : forall id,
             (forall b, books w !! id = Some b -> user_id b = C ->
                books_clean
                  (serve route {| user := Some C; data := d |} w).2) ->
             route_item route = Some id ->
             books_clean (serve route {| user := Some C; data := d |} w).2).
  { intros id Hown Hr.
    destruct (owned_cases C id w) as [(b & Hb & Hu)|Hno]; [by eapply Hown|].
    by rewrite (serve_not_owned _ _ _ _ _ Hr Hno). }
  destruct route as [| |id|id|id|id|id].
  - exact Hclean.
  - unfold serve, api_create, dispatch. cbn [user data].
    destruct (is_valid w BookSerializer false d) as [errors|vd] eqn:V.
    + by rewrite create_steps, V.
    + destruct (create_outcome C d w vd V)
        as (b & w' & -> & Hb & _ & _ & _ & Ht & Ha & Hr & Hg & Hds & _).
      apply (Hput w' _ b Hb). apply (clean_book_columns 0); cbn [Book_getattr];
        eapply (validated_clean w false d vd); eauto.
  - apply (Hitem id); [|done]. intros b Hb Hu.
    unfold serve, api_retrieve, dispatch. cbn [user data].
    by rewrite retrieve_steps, (get_object_owned _ _ _ _ Hb Hu).
  - apply (Hitem id); [|done]. intros b Hb Hu.
    rewrite (update_route_steps (PutItem id) false id C d w b); auto.
    destruct (is_valid w BookSerializer false d) as [errors|vd] eqn:V;
      [done|].
    pose proof (Hsave BookSerializer false vd id b (or_introl eq_refl) Hb V)
      as H.
    destruct (save_existing _ vd [] w) as [[e|i'] w2]; apply H;
      intros name v _; by apply (validated_clean w false d vd).
  - apply (Hitem id); [|done]. intros b Hb Hu.
    rewrite (update_route_steps (PatchItem id) true id C d w b); auto.
    destruct (is_valid w BookSerializer true d) as [errors|vd] eqn:V;
      [done|].
    pose proof (Hsave BookSerializer true vd id b (or_introl eq_refl) Hb V)
      as H.
    destruct (save_existing _ vd [] w) as [[e|i'] w2]; apply H;
      intros name v _; by apply (validated_clean w true d vd).
  - apply (Hitem id); [|done]. intros b Hb Hu.
    unfold serve, api_destroy, dispatch. cbn [user data].
    rewrite destroy_steps, (get_object_owned _ _ _ _ Hb Hu). cbn.
    intros k b0 Hk. cbn [books] in Hk.
    apply lookup_delete_Some in Hk as [_ Hk].
    by eapply Hclean.
  - apply (Hitem id); [|done]. intros b Hb Hu.
    unfold serve, api_upload_image, dispatch. cbn [user data].
    rewrite upload_image_steps, (get_object_owned _ _ _ _ Hb Hu).
    destruct (is_valid w BookImageSerializer false d) as [errors|vd] eqn:V;
      [done|].
    pose proof (Hsave BookImageSerializer false vd id b
                  (or_intror eq_refl) Hb V) as H.
    assert (Hvd : forall name v, name ∈ required_columns ->
               dict_get name vd = Some v -> clean_value name v).
    { intros name v Hn. rewrite is_valid_BookImageSerializer in V.
      repeat case_match; simplify_eq;
        repeat (apply elem_of_cons in Hn as [->|Hn]);
        try (by apply elem_of_nil in Hn); discriminate. }
    destruct (save_existing _ vd [] w) as [[e|i'] w2]; by apply H.
Qed.

(** A witness for X14: the sample table is clean, and stays so when
    account 1 creates a book from a JSON body. *)
Lemma stored_books_stay_clean_witness :
  books_clean
    (serve PostList {| user := Some 1; data := test_create_payload |}
       sample_world).2.
Proof.
  apply (stored_books_stay_clean PostList
           {| user := Some 1; data := test_create_payload |} sample_world).
  - intros k v Hk. cbn [data] in Hk. unfold test_create_payload, json in Hk.
    cbn [items] in Hk. apply elem_of_list_to_map_2 in Hk.
    repeat (apply elem_of_cons in Hk as [[= -> ->]|Hk]; [reflexivity|]).
    by apply elem_of_nil in Hk.
  - intros k b Hk. unfold sample_world in Hk. cbn [books] in Hk.
    destruct (decide (k = 1)) as [->|H1].
    + rewrite lookup_insert_eq in Hk. by injection Hk as <-.
    + rewrite lookup_insert_ne in Hk by done.
      destruct (decide (k = 2)) as [->|H2].
      * rewrite lookup_singleton_eq in Hk. by injection Hk as <-.
      * by rewrite lookup_singleton_ne in Hk.
Defined.

(** ** Accounts *)

Section AccountTable.

Lemma User_setattr_email u kv u' :
  User_setattr u kv = inr u' -> email u' = email u.
Proof.
  destruct kv as [k v]. unfold User_setattr. intros Hset.
  repeat case_match; simplify_eq; reflexivity.
Qed.

Lemma User_setattrs_email extra : forall u u',
  User_setattrs u extra = inr u' -> email u' = email u.
Proof.
  induction extra as [|kv extra IH]; intros u u'; cbn [User_setattrs].
  - by intros [= <-].
  - destruct (User_setattr u kv) as [x|u1] eqn:E; [done|].
    intros H. rewrite (IH _ _ H). by eapply User_setattr_email.
Qed.

(** What a call of [create_user] does to the tables: nothing on an
    error, and otherwise one new row under the next key, with an
    address no other row has. *)
Lemma create_user_cases e pw extra w :
  let r := create_user e pw extra w in
  books r.2 = books w /\ book_seq r.2 = book_seq w /\ media r.2 = media w
  /\ env r.2 = env w
  /\ (((exists x, r.1 = inl x)
       /\ users r.2 = users w /\ user_seq r.2 = user_seq w)
      \/ (exists u, r.1 = inr (user_seq w + 1, u)
            /\ users r.2 = <[user_seq w + 1 := u]> (users w)
            /\ user_seq r.2 = user_seq w + 1
            /\ email_taken (email u) None (users w) = false
            /\ email u = normalize_email e)).
Proof.
  cbv zeta. unfold create_user.
  destruct e as [[|c e]|]; cbn [is_empty];
    try (cbn; repeat split; left; eauto).
  destruct (User_init (normalize_email (Some (c :: e))) extra)
    as [x|u0] eqn:Hinit; [cbn; repeat split; left; eauto|].
  apply User_setattrs_email in Hinit. cbn [email] in Hinit.
  unfold make_password, User_save.
  cbv [bind get draw set_users ret raise].
  destruct pw as [raw|]; cbn [email User_set_password users];
    destruct (email_taken (email u0) None (users w)) eqn:T; cbn;
    repeat split; first [left; by eauto|right; eexists; by eauto].
Qed.

Lemma create_superuser_cases e pw w :
  let r := create_superuser e pw w in
  books r.2 = books w /\ book_seq r.2 = book_seq w /\ media r.2 = media w
  /\ env r.2 = env w
  /\ (((exists x, r.1 = inl x)
       /\ users r.2 = users w /\ user_seq r.2 = user_seq w)
      \/ (exists u, r.1 = inr (user_seq w + 1, u)
            /\ users r.2 = <[user_seq w + 1 := u]> (users w)
            /\ user_seq r.2 = user_seq w + 1
            /\ email_taken (email u) None (users w) = false
            /\ email u = normalize_email e
            /\ is_staff u = true /\ is_superuser u = true)).
Proof.
  cbv zeta. unfold create_superuser. cbv [bind].
  destruct (create_user_cases e pw [] w)
    as (Hb & Hbs & Hm & Henv & [((x & Hx) & Hu & Hs)
                               |(u & Hr & Hu & Hs & Hfree & He)]);
    destruct (create_user e pw [] w) as [[x0|[id u0]] w0];
    cbn [fst snd] in *; try discriminate.
  - repeat split; try done. left. eauto.
  - injection Hr as -> ->.
    unfold User_save. cbv [bind get set_users ret raise].
    cbn [email User_set_super]. rewrite Hu.
    rewrite (email_free_for_own_row _ _ _ _ Hfree). cbn.
    repeat split; try done. right. exists (User_set_super u).
    rewrite insert_insert_eq. by repeat split.
Qed.

Lemma insert_keeps_accounts w w' u :
  emails_unique w -> user_keys_in_seq w ->
  users w' = <[user_seq w + 1 := u]> (users w) ->
  user_seq w' = user_seq w + 1 ->
  email_taken (email u) None (users w) = false ->
  emails_unique w' /\ user_keys_in_seq w'
  /\ (forall k u0, users w !! k = Some u0 -> users w' !! k = Some u0).
Proof.
  intros Huniq Hseq Hu Hs Hfree.
  assert (Hnew : users w !! (user_seq w + 1) = None).
  { destruct (users w !! (user_seq w + 1)) as [u0|] eqn:E; [|done].
    apply Hseq in E. lia. }
  rewrite email_taken_false in Hfree.
  split; [|split].
  - intros k1 k2 u1 u2. rewrite Hu. intros H1 H2 He.
    apply lookup_insert_Some in H1 as [[<- <-]|[Hn1 H1]];
      apply lookup_insert_Some in H2 as [[<- <-]|[Hn2 H2]].
    + done.
    + by specialize (Hfree _ _ H2 (eq_sym He)).
    + by specialize (Hfree _ _ H1 He).
    + by eapply Huniq.
  - intros k u0. rewrite Hu, Hs. intros H.
    apply lookup_insert_Some in H as [[<- _]|[_ H]]; [lia|].
    apply Hseq in H. lia.
  - intros k u0 H. rewrite Hu, lookup_insert_ne; [done|].
    intros <-. by rewrite Hnew in H.
Qed.

End AccountTable.

(** X15.  [create_user] and [create_superuser] keep the user table
    sound, for every address and password and for keyword arguments
    that give a text for [name] and booleans for [is_active],
    [is_staff] and [is_superuser] and nothing else: addresses stay
    unique, keys stay within the key sequence, the accounts there were
    stay as they were, books and stored files are not touched, and a
    call that raises leaves no row behind. *)
Theorem accounts_stay_unique (e pw : option str) (extra : pydict)
    (w : World) :
  valid_extra_fields extra = true ->
  emails_unique w -> user_keys_in_seq w ->
  forall r, r = create_user e pw extra w \/ r = create_superuser e pw w ->
  emails_unique r.2 /\ user_keys_in_seq r.2
  /\ (forall k u, users w !! k = Some u -> users r.2 !! k = Some u)
  /\ books r.2 = books w /\ media r.2 = media w
  /\ (forall x, r.1 = inl x -> users r.2 = users w).
Proof.
  intros _ Huniq Hseq r Hr.
  assert (H : books r.2 = books w /\ media r.2 = media w
              /\ (((exists x, r.1 = inl x)
                   /\ users r.2 = users w /\ user_seq r.2 = user_seq w)
                  \/ (exists u, (exists id, r.1 = inr (id, u))
                        /\ users r.2 = <[user_seq w + 1 := u]> (users w)
                        /\ user_seq r.2 = user_seq w + 1
                        /\ email_taken (email u) None (users w) = false))).
  { destruct Hr as [-> | ->].
    - destruct (create_user_cases e pw extra w)
        as (Hb & _ & Hm & _ & [H|(u & H1 & H2 & H3 & H4 & _)]);
        (split; [done|]); (split; [done|]); [by left|right]. eauto 10.
    - destruct (create_superuser_cases e pw w)
        as (Hb & _ & Hm & _ & [H|(u & H1 & H2 & H3 & H4 & _)]);
        (split; [done|]); (split; [done|]); [by left|right]. eauto 10. }
  destruct H as (Hb & Hm & [(_ & Hu & Hs)|(u & (id & Hid) & Hu & Hs & Hfree)]).
  - split; [|split; [|split; [|by repeat split]]].
    + intros k1 k2 u1 u2. rewrite Hu. apply Huniq.
    + intros k u. rewrite Hu, Hs. apply Hseq.
    + intros k u. by rewrite Hu.
  - destruct (insert_keeps_accounts w r.2 u Huniq Hseq Hu Hs Hfree)
      as (H1 & H2 & H3).
    repeat split; try done. intros x Hx. rewrite Hx in Hid. discriminate.
Qed.

(** A witness for X15: the sample accounts after a second account is
    asked for under the address of the first. *)
Lemma accounts_stay_unique_witness :
  emails_unique
    (create_user (Some ("a@example.com" : str)) None [] sample_world).2.
Proof.
  assert (Hseq : user_keys_in_seq sample_world).
  { intros k u Hk. unfold sample_world in *. cbn [users user_seq] in *.
    destruct (decide (k = 1)) as [->|H1]; [lia|].
    destruct (decide (k = 2)) as [->|H2]; [lia|].
    rewrite lookup_insert_ne, lookup_singleton_ne in Hk by done. done. }
  assert (Huniq : emails_unique sample_world).
  { intros k1 k2 u1 u2 H1 H2. unfold sample_world in *. cbn [users] in *.
    apply lookup_insert_Some in H1 as [[<- <-]|[Hn1 H1]];
      apply lookup_insert_Some in H2 as [[<- <-]|[Hn2 H2]];
      try apply lookup_singleton_Some in H1 as [<- <-];
      try apply lookup_singleton_Some in H2 as [<- <-];
      try done. }
  apply (accounts_stay_unique (Some ("a@example.com" : str)) None []
           sample_world eq_refl Huniq Hseq _ (or_introl eq_refl)).
Defined.

(** ** Stored file names *)

Section StoredNames.

Lemma dirname_uploads_book (x : str) :
  "/"%char ∉ x -> dirname ("uploads/book/" ++ x) = "uploads/book".
Proof.
  intros Hx. unfold dirname. rewrite (rfind_app_absent _ _ _ Hx).
  change (rfind "/" "uploads/book/") with 12. unfold upto.
  change (Z.to_nat (12 + 1)) with (length ("uploads/book/" : str)).
  rewrite take_app_length. reflexivity.
Qed.

Lemma splitext_no_dot p : "."%char ∉ p -> splitext p = (p, []).
Proof.
  intros Hp. unfold splitext. rewrite (rfind_absent "." p Hp).
  pose proof (rfind_bounds "/" p).
  by destruct (Z.ltb_spec (rfind "/" p) (-1)); [lia|].
Qed.

End StoredNames.

(** X16.  Whatever file name the client sends and whatever the random
    draw, the stored path lies directly in [uploads/book]: its
    directory part is exactly that, its name part holds no separator,
    and the client's name contributes its extension only, so at most
    its own length, and nothing at all when it has no dot. *)
Theorem image_path_confined (r : Z) (F : str) :
  let path := book_image_file_path r F in
  dirname path = "uploads/book"
  /\ ("/"%char ∉ basename path)
  /\ path = "uploads/book/" ++ basename path
  /\ (length (basename path) <= 36 + length F)%nat
  /\ ("."%char ∉ F -> basename path = to_str (uuid4 r)).
Proof.
  cbv zeta.
  assert (Hsep : "/"%char ∉ to_str (uuid4 r) ++ (splitext F).2).
  { rewrite not_elem_of_app. split;
      [apply to_str_no_sep|apply splitext_ext_no_sep]. }
  assert (Hpath : book_image_file_path r F
                  = "uploads/book/" ++ to_str (uuid4 r) ++ (splitext F).2).
  { unfold book_image_file_path. apply join_uploads_book.
    pose proof (to_str_length (uuid4 r)) as Hl.
    pose proof (to_str_no_sep (uuid4 r)) as Hs.
    destruct (to_str (uuid4 r)) as [|c t]; [discriminate Hl|].
    simpl. apply ch_eqb_neq. intros ->. apply Hs. left. }
  rewrite Hpath, (basename_uploads_book _ Hsep).
  split; [by apply dirname_uploads_book|]. split; [exact Hsep|].
  split; [reflexivity|]. split.
  - rewrite length_app, to_str_length.
    pose proof (f_equal length (splitext_app F)) as Hl.
    rewrite length_app in Hl. lia.
  - intros Hdot. rewrite (splitext_no_dot F Hdot). apply app_nil_r.
Qed.

(** ** What a response shows *)

Section Bodies.

Lemma representation_shape w meta id b :
  meta = BookSerializer \/ meta = BookImageSerializer ->
  dict_keys (to_representation w meta id b) = fields meta
  /\ dict_get "id" (to_representation w meta id b) = Some (PInt id).
Proof. intros [-> | ->]; split; reflexivity. Qed.

Lemma route_meta route :
  get_serializer_class (route_action route) = BookSerializer
  \/ get_serializer_class (route_action route) = BookImageSerializer.
Proof. destruct route; cbn; auto. Qed.

End Bodies.

(** X17.  Every object in the body of a response to an authenticated
    request shows a book of the caller's as it is stored once the
    request is done: it is the representation of that row, under that
    row's key as [id], with exactly the fields of the serializer the
    action selects (all seven for the book routes, [id] and [image]
    for the image upload). *)
Theorem responses_show_stored_rows (route : Route) (C : Z)
    (d : RequestData) (w : World) :
  let res := serve route {| user := Some C; data := d |} w in
  let meta := get_serializer_class (route_action route) in
  forall o, o ∈ response_objects res.1 ->
    dict_keys o = fields meta
    /\ exists id b, books res.2 !! id = Some b /\ user_id b = C
                    /\ o = to_representation res.2 meta id b
                    /\ dict_get "id" o = Some (PInt id).
Proof.
  cbv zeta.
  assert (Hshow : forall w' id b o,
             books w' !! id = Some b -> user_id b = C ->
             o = to_representation w'
                   (get_serializer_class (route_action route)) id b ->
             dict_keys o = fields (get_serializer_class (route_action route))
             /\ exists id b, books w' !! id = Some b /\ user_id b = C
                  /\ o = to_representation w'
                           (get_serializer_class (route_action route)) id b
                  /\ dict_get "id" o = Some (PInt id)).
  { intros w' id b o Hb Hu ->.
    destruct (representation_shape w' _ id b (route_meta route)) as [Hk Hid].
    split; [exact Hk|]. exists id, b. by repeat split. }
  assert (Hnone : forall r o, response_objects r = [] -> o ∈ response_objects r
             -> False).
  { intros r o -> Ho. by apply elem_of_nil in Ho. }
  assert (Hsave : forall meta p id b res,
             meta = get_serializer_class (route_action route) ->
             books w !! id = Some b -> user_id b = C ->
             res = match is_valid w meta p d with
                   | inl errors =>
                       ({| status_code := 400; body := Errors errors |}, w)
                   | inr vd =>
                       match save_existing
                               {| pk := Some id; row := b; upload := None |}
                               vd [] w with
                       | (inl e, w2) => (exception_response e, w2)
                       | (inr i', w2) =>
                           ({| status_code := 200;
                               body := Object (to_representation w2 meta
                                         (default 0 (pk i')) (row i')) |}, w2)
                       end
                   end ->
             forall o, o ∈ response_objects res.1 ->
             dict_keys o = fields meta
             /\ exists id b, books res.2 !! id = Some b /\ user_id b = C
                  /\ o = to_representation res.2 meta id b
                  /\ dict_get "id" o = Some (PInt id)).
  { intros meta p id b res Hmeta Hb Hu -> o.
    destruct (is_valid w meta p d) as [errors|vd] eqn:V;
      [intros Ho; by apply elem_of_nil in Ho|].
    assert (Hm : meta = BookSerializer \/ meta = BookImageSerializer)
      by (rewrite Hmeta; apply route_meta).
    destruct (save_existing_outcome w meta p d vd id b w Hm V)
      as (b' & w' & -> & Hbooks & _ & _ & Hu' & _).
    cbn. intros Ho. apply list_elem_of_singleton in Ho. rewrite Hmeta.
    apply (Hshow w' id b').
    - rewrite Hbooks. apply lookup_insert_eq.
    - congruence.
    - by rewrite <- Hmeta. }
  assert (Hitem : forall id,
             route_item route = Some id ->
             (forall b, books w !! id = Some b -> user_id b = C ->
                forall o,
                  o ∈ response_objects
                        (serve route {| user := Some C; data := d |} w).1 ->
                  dict_keys o
                  = fields (get_serializer_class (route_action route))
                  /\ exists id b,
                       books (serve route {| user := Some C; data := d |} w).2
                         !! id = Some b /\ user_id b = C
                       /\ o = to_representation
                                (serve route {| user := Some C; data := d |}
                                   w).2
                                (get_serializer_class (route_action route))
                                id b
                       /\ dict_get "id" o = Some (PInt id)) ->
             forall o,
               o ∈ response_objects
                     (serve route {| user := Some C; data := d |} w).1 ->
               dict_keys o
               = fields (get_serializer_class (route_action route))
               /\ exists id b,
                    books (serve route {| user := Some C; data := d |} w).2
                      !! id = Some b /\ user_id b = C
                    /\ o = to_representation
                             (serve route {| user := Some C; data := d |} w).2
                             (get_serializer_class (route_action route))
                             id b
                    /\ dict_get "id" o = Some (PInt id)).
  { intros id Hr Hown.
    destruct (owned_cases C id w) as [(b & Hb & Hu)|Hno]; [by eapply Hown|].
    rewrite (serve_not_owned _ _ _ _ _ Hr Hno). intros o Ho.
    by apply elem_of_nil in Ho. }
  destruct route as [| |id|id|id|id|id].
  - intros o Ho. cbn in Ho. apply list_elem_of_fmap in Ho as ([id b] & -> & Hr).
    apply elem_of_get_queryset in Hr as [Hb Hu]. by apply (Hshow w id b).
  - unfold serve, api_create, dispatch. cbn [user data].
    destruct (is_valid w BookSerializer false d) as [errors|vd] eqn:V.
    + rewrite create_steps, V. intros o Ho. by apply elem_of_nil in Ho.
    + destruct (create_outcome C d w vd V)
        as (b & w' & -> & Hb & _ & _ & Hu & _).
      intros o Ho. cbn in Ho. apply list_elem_of_singleton in Ho.
      apply (Hshow w' (book_seq w + 1) b); [|done..].
      rewrite Hb. apply lookup_insert_eq.
  - apply (Hitem id eq_refl). intros b Hb Hu.
    unfold serve, api_retrieve, dispatch. cbn [user data].
    rewrite retrieve_steps, (get_object_owned _ _ _ _ Hb Hu).
    intros o Ho. cbn in Ho. apply list_elem_of_singleton in Ho.
    by apply (Hshow w id b).
  - apply (Hitem id eq_refl). intros b Hb Hu.
    rewrite (update_route_steps (PutItem id) false id C d w b); auto.
    by apply (Hsave BookSerializer false id b).
  - apply (Hitem id eq_refl). intros b Hb Hu.
    rewrite (update_route_steps (PatchItem id) true id C d w b); auto.
    by apply (Hsave BookSerializer true id b).
  - apply (Hitem id eq_refl). intros b Hb Hu.
    unfold serve, api_destroy, dispatch. cbn [user data].
    rewrite destroy_steps, (get_object_owned _ _ _ _ Hb Hu).
    intros o Ho. by apply elem_of_nil in Ho.
  - apply (Hitem id eq_refl). intros b Hb Hu.
    unfold serve, api_upload_image, dispatch. cbn [user data].
    rewrite upload_image_steps, (get_object_owned _ _ _ _ Hb Hu).
    apply (Hsave BookImageSerializer false id b); auto.
    destruct (is_valid w BookImageSerializer false d); [done|].
    by destruct (save_existing _ _ _ _) as [[e|i'] w2].
Qed.

(** A witness for X17: account 1 retrieves its book 1. *)
Lemma responses_show_stored_rows_witness :
  dict_keys (to_representation sample_world BookSerializer 1
               (sample_book 1 None))
  = ["id"; "title"; "author"; "release_date"; "genre"; "description";
     "image"]%string.
Proof.
  destruct (responses_show_stored_rows (GetItem 1) 1 (json []) sample_world
              (to_representation sample_world BookSerializer 1
                 (sample_book 1 None))) as [H _].
  - vm_compute. left.
  - exact H.
Defined.

(** ** What of a request body counts *)

Section Payloads.

Lemma validate_fields_ext w p fs d d' :
  html d = html d' ->
  (forall f, f ∈ fs -> items d !! field_name f = items d' !! field_name f) ->
  validate_fields w p fs d = validate_fields w p fs d'.
Proof.
  intros Hhtml. induction fs as [|f fs IH]; intros Hfs; [done|].
  cbn [validate_fields]. rewrite IH by (intros g Hg; apply Hfs; by right).
  assert (G : get_value f d = get_value f d').
  { unfold get_value. rewrite Hhtml, (Hfs f) by left. done. }
  by rewrite G.
Qed.

Lemma is_valid_ext w meta p d d' :
  html d = html d' ->
  (forall k, k ∈ map field_name (writable_fields meta) ->
             items d !! k = items d' !! k) ->
  is_valid w meta p d = is_valid w meta p d'.
Proof.
  intros Hhtml Hk. unfold is_valid.
  rewrite (validate_fields_ext w p _ d d' Hhtml); [done|].
  intros f Hf. apply Hk. apply list_elem_of_fmap. by exists f.
Qed.

Lemma validate_fields_partial w fs d :
  (forall f, f ∈ fs -> required f = true -> is_Some (get_value f d)) ->
  validate_fields w true fs d = validate_fields w false fs d.
Proof.
  induction fs as [|f fs IH]; intros Hfs; [done|].
  cbn [validate_fields]. rewrite IH by (intros g Hg; apply Hfs; by right).
  assert (R : run_validation w true f (get_value f d)
              = run_validation w false f (get_value f d)).
  { destruct (get_value f d) as [v|] eqn:G; [done|]. cbn.
    destruct (required f) eqn:Hreq; [|done].
    destruct (Hfs f ltac:(left) Hreq) as [v Hv]. congruence. }
  by rewrite R.
Qed.

Lemma get_value_present f d :
  required f = true -> allow_null f = false ->
  is_Some (items d !! field_name f) -> is_Some (get_value f d).
Proof.
  intros Hreq Hnull [v Hv]. unfold get_value. rewrite Hv, Hreq, Hnull.
  destruct (html d); [|by eexists].
  destruct v as [| | |[|c s]| | |]; by eexists.
Qed.

Lemma update_routes_unfold id C d w :
  serve (PutItem id) {| user := Some C; data := d |} w
  = (let r := update_with update_action false C id d w in
     (match r.1 with inr resp => resp | inl e => exception_response e end,
      r.2))
  /\ serve (PatchItem id) {| user := Some C; data := d |} w
     = (let r := update_with partial_update_action true C id d w in
        (match r.1 with inr resp => resp | inl e => exception_response e end,
         r.2)).
Proof.
  split; cbv zeta;
    unfold serve, api_update, api_partial_update, update, partial_update,
      dispatch; cbn [user data];
    by destruct (update_with _ _ C id d w) as [[e|r] w'].
Qed.

End Payloads.

(** X18.  A route reads from the request body only the keys of its
    serializer's writable fields: the six book columns other than
    [id] for the book routes, [image] alone for the image upload.  Two
    bodies of the same kind that agree on those keys get the same
    answer and leave the same state; an [id] or a [user] in the body
    changes nothing. *)
Theorem other_keys_ignored (route : Route) (C : Z) (d d' : RequestData)
    (w : World) :
  html d = html d' ->
  (forall k, k ∈ payload_keys route -> items d !! k = items d' !! k) ->
  serve route {| user := Some C; data := d |} w
  = serve route {| user := Some C; data := d' |} w
  /\ payload_keys route
     = match route with
       | PostUploadImage _ => ["image"]
       | _ => ["title"; "author"; "release_date"; "genre"; "description";
               "image"]
       end%string.
Proof.
  intros Hhtml Hk. split; [|by destruct route].
  destruct route as [| |id|id|id|id|id]; try reflexivity.
  - unfold serve, api_create, dispatch. cbn [user data].
    rewrite !create_steps.
    by rewrite (is_valid_ext w BookSerializer false d d' Hhtml Hk).
  - destruct (update_routes_unfold id C d w) as [-> _].
    destruct (update_routes_unfold id C d' w) as [-> _]. cbv zeta.
    rewrite !(update_with_steps update_action) by reflexivity.
    destruct (get_object C id w) as [[e|i] w1]; [done|].
    by rewrite (is_valid_ext w1 BookSerializer false d d' Hhtml Hk).
  - destruct (update_routes_unfold id C d w) as [_ ->].
    destruct (update_routes_unfold id C d' w) as [_ ->]. cbv zeta.
    rewrite !(update_with_steps partial_update_action) by reflexivity.
    destruct (get_object C id w) as [[e|i] w1]; [done|].
    by rewrite (is_valid_ext w1 BookSerializer true d d' Hhtml Hk).
  - unfold serve, api_upload_image, dispatch. cbn [user data].
    rewrite !upload_image_steps.
    destruct (get_object C id w) as [[e|i] w1]; [done|].
    by rewrite (is_valid_ext w1 BookImageSerializer false d d' Hhtml Hk).
Qed.

(** A witness for X18: a create request that also names an [id] and a
    [user]. *)
Lemma other_keys_ignored_witness :
  serve PostList
    {| user := Some 1;
       data := json (("id"%string, PInt 99) :: ("user"%string, PInt 2)
                     :: [("title"%string, PStr "Sample book title");
                         ("author"%string, PStr "sample author name");
                         ("release_date"%string, PStr "2000-08-14");
                         ("genre"%string, PStr "sample genre");
                         ("description"%string, PStr "sample desc")]) |}
    sample_world
  = serve PostList {| user := Some 1; data := test_create_payload |}
      sample_world.
Proof.
  apply (other_keys_ignored PostList 1); [reflexivity|].
  intros k Hk. vm_compute in Hk.
  repeat (apply elem_of_cons in Hk as [->|Hk]; [reflexivity|]).
  by apply elem_of_nil in Hk.
Defined.

(** X19.  A partial update whose body holds all five required columns
    is the full update: the same answer and the same state, for every
    caller, key and state. *)
Theorem patch_of_all_columns_is_put (id C : Z) (d : RequestData)
    (w : World) :
  (forall k, k ∈ required_columns -> is_Some (items d !! k)) ->
  serve (PatchItem id) {| user := Some C; data := d |} w
  = serve (PutItem id) {| user := Some C; data := d |} w.
Proof.
  intros Hall.
  destruct (update_routes_unfold id C d w) as [-> ->]. cbv zeta.
  rewrite (update_with_steps update_action) by reflexivity.
  rewrite (update_with_steps partial_update_action) by reflexivity.
  destruct (get_object C id w) as [[e|i] w1]; [done|].
  assert (V : is_valid w1 BookSerializer true d
              = is_valid w1 BookSerializer false d).
  { unfold is_valid. rewrite validate_fields_partial; [done|].
    intros f Hf Hreq. rewrite writable_BookSerializer in Hf.
    repeat (apply elem_of_cons in Hf as [->|Hf]);
      [..|by apply elem_of_nil in Hf]; try discriminate Hreq;
      (apply get_value_present; [done|done|]); apply Hall;
      unfold required_columns; cbn [field_name char_field date_field];
      repeat first [by left|right]. }
  by rewrite V.
Qed.

(** A witness for X19: the body of the create test sent to book 1. *)
Lemma patch_of_all_columns_is_put_witness :
  serve (PatchItem 1) {| user := Some 1; data := test_create_payload |}
    sample_world
  = serve (PutItem 1) {| user := Some 1; data := test_create_payload |}
      sample_world.
Proof.
  apply patch_of_all_columns_is_put. intros k Hk.
  repeat (apply elem_of_cons in Hk as [->|Hk]; [by eexists|]).
  by apply elem_of_nil in Hk.
Defined.

(** ** Repeated updates *)

Section Repeats.

Lemma to_internal_value_world w w' t v :
  env w' = env w -> users w' = users w ->
  to_internal_value w' t v = to_internal_value w t v.
Proof. intros He Hu. unfold to_internal_value. by rewrite He, Hu. Qed.

Lemma validate_fields_world w w' p fs d :
  env w' = env w -> users w' = users w ->
  validate_fields w' p fs d = validate_fields w p fs d.
Proof.
  intros He Hu. induction fs as [|f fs IH]; [done|].
  cbn [validate_fields]. rewrite IH.
  assert (R : run_validation w' p f (get_value f d)
              = run_validation w p f (get_value f d)).
  { unfold run_validation.
    destruct (get_value f d) as [[]|]; try done;
      apply (to_internal_value_world w w' _ _ He Hu). }
  by rewrite R.
Qed.

Lemma is_valid_world w w' meta p d :
  env w' = env w -> users w' = users w ->
  is_valid w' meta p d = is_valid w meta p d.
Proof.
  intros He Hu. unfold is_valid.
  by rewrite (validate_fields_world w w' p _ d He Hu).
Qed.

Lemma no_file_validated w p d vd :
  is_valid w BookSerializer p d = inr vd ->
  (forall f, items d !! "image"%string <> Some (PFile f)) ->
  forall f, dict_get "image" vd <> Some (PFile f).
Proof.
  intros V Hd f Hk. apply dict_get_elem in Hk.
  pose proof (is_valid_entries _ _ _ _ _ V) as Hall.
  rewrite Forall_forall in Hall.
  destruct (Hall _ Hk) as (g & Hg & Hname & Hrun). cbn in Hname, Hrun.
  rewrite writable_BookSerializer in Hg.
  repeat (apply elem_of_cons in Hg as [->|Hg]);
    [..|by apply elem_of_nil in Hg]; try discriminate Hname.
  unfold get_value in Hrun. cbn [field_name image_field allow_null] in Hrun.
  specialize (Hd f).
  destruct (html d), (items d !! "image"%string) as [[| | |[|c s]| |f'|]|];
    cbn in Hrun; repeat case_match; simplify_eq.
Qed.

Lemma save_existing_plain w0 meta p d vd id b w :
  meta = BookSerializer \/ meta = BookImageSerializer ->
  is_valid w0 meta p d = inr vd ->
  (forall f, dict_get "image" vd <> Some (PFile f)) ->
  exists b',
    save_existing {| pk := Some id; row := b; upload := None |} vd [] w
    = (inr {| pk := Some id; row := b'; upload := None |},
       (set_books (<[id := b']> (books w)) (book_seq w) w).2).
Proof.
  intros Hmeta Hvalid Hfile. unfold save_existing. rewrite dict_merge_nil.
  destruct (Book_setattrs_validated_any w0 meta p d vd
              {| pk := Some id; row := b; upload := None |} Hmeta Hvalid)
    as [i' Hi'].
  rewrite Hi'.
  pose proof (is_valid_keys_NoDup _ _ _ _ _ (meta_names_NoDup _ Hmeta) Hvalid)
    as Hnd.
  pose proof (Book_setattrs_keeps_pk _ _ _ Hi') as Hpk. cbn in Hpk.
  pose proof (Book_setattrs_image _ _ _ Hnd Hi') as Him. cbn in Him.
  destruct i' as [pk' b' up']. cbn in Hpk, Him. subst pk'.
  assert (Hup : up' = None).
  { destruct (dict_get "image" vd) as [[| | | | |f|]|];
      try (by injection Him as -> _).
    by destruct (Hfile f). }
  subst up'. exists b'. reflexivity.
Qed.

End Repeats.

(** X20.  An update or partial update whose body uploads no file is
    idempotent: sent a second time to the state the first one left, it
    gets the same answer and leaves that state as it is. *)
Theorem update_idempotent (route : Route) (C id : Z) (d : RequestData)
    (w : World) :
  route = PutItem id \/ route = PatchItem id ->
  (forall f, items d !! "image"%string <> Some (PFile f)) ->
  let res := serve route {| user := Some C; data := d |} w in
  serve route {| user := Some C; data := d |} res.2 = res.
Proof.
  intros Hroute Hd. cbv zeta.
  assert (Hp : exists p, (route = PutItem id /\ p = false)
                         \/ (route = PatchItem id /\ p = true)).
  { destruct Hroute; [exists false|exists true]; auto. }
  destruct Hp as [p Hp].
  assert (Hitem : route_item route = Some id) by (by destruct Hroute; subst).
  destruct (owned_cases C id w) as [(b & Hb & Hu)|Hno].
  2: { rewrite (serve_not_owned _ _ _ _ _ Hitem Hno). cbn [snd].
       apply (serve_not_owned _ _ _ _ _ Hitem Hno). }
  rewrite (update_route_steps route p id C d w b Hp Hb Hu).
  destruct (is_valid w BookSerializer p d) as [errors|vd] eqn:V.
  { cbn [snd]. by rewrite (update_route_steps route p id C d w b Hp Hb Hu), V. }
  pose proof (no_file_validated w p d vd V Hd) as Hfile.
  destruct (save_existing_plain w BookSerializer p d vd id b w
              (or_introl eq_refl) V Hfile) as [b1 E1].
  destruct (save_existing_outcome w BookSerializer p d vd id b w
              (or_introl eq_refl) V)
    as (b1' & w1 & E1' & _ & _ & _ & Hu1 & Hcols1 & Him1 & _).
  rewrite E1 in E1'. injection E1' as <- <-. rewrite E1. cbn [snd].
  set (w1 := (set_books (<[id := b1]> (books w)) (book_seq w) w).2).
  assert (Hb1 : books w1 !! id = Some b1) by apply lookup_insert_eq.
  assert (HuC : user_id b1 = C) by congruence.
  rewrite (update_route_steps route p id C d w1 b1 Hp Hb1 HuC).
  assert (V1 : is_valid w1 BookSerializer p d = inr vd).
  { by rewrite (is_valid_world w w1). }
  rewrite V1.
  destruct (save_existing_plain w1 BookSerializer p d vd id b1 w1
              (or_introl eq_refl) V1 Hfile) as [b2 E2].
  destruct (save_existing_outcome w1 BookSerializer p d vd id b1 w1
              (or_introl eq_refl) V1)
    as (b2' & w2 & E2' & _ & _ & _ & _ & Hcols2 & Him2 & _).
  rewrite E2 in E2'. injection E2' as <- <-. rewrite E2.
  assert (Hsame : b2 = b1).
  { apply (Book_eq_columns id).
    - intros name Hname. rewrite (Hcols2 name Hname), (Hcols1 name Hname).
      by destruct (dict_get name vd).
    - rewrite Him2, Him1. unfold saved_image.
      by destruct (dict_get "image" vd) as [[]|]. }
  rewrite Hsame.
  assert (Hw : (set_books (<[id := b1]> (books w1)) (book_seq w1) w1).2 = w1).
  { unfold w1, set_books. cbn. by rewrite insert_insert_eq. }
  by rewrite Hw.
Qed.

(** A witness for X20: account 1 renames its book 1 twice. *)
Lemma update_idempotent_witness :
  serve (PatchItem 1)
    {| user := Some 1; data := json [("title"%string, PStr "New")] |}
    (serve (PatchItem 1)
       {| user := Some 1; data := json [("title"%string, PStr "New")] |}
       sample_world).2
  = serve (PatchItem 1)
      {| user := Some 1; data := json [("title"%string, PStr "New")] |}
      sample_world.
Proof.
  apply (update_idempotent (PatchItem 1) 1 1
           (json [("title"%string, PStr "New")]) sample_world).
  - by right.
  - intros f. vm_compute. discriminate.
Defined.

(** ** New accounts *)

Section Defaults.

Lemma User_setattr_others u k v u' :
  User_setattr u (k, v) = inr u' ->
  (k <> "name"%string -> name u' = name u)
  /\ (k <> "is_active"%string -> is_active u' = is_active u)
  /\ (k <> "is_staff"%string -> is_staff u' = is_staff u)
  /\ (k <> "is_superuser"%string -> is_superuser u' = is_superuser u).
Proof.
  unfold User_setattr. intros Hset.
  destruct (String.eqb_spec k "name") as [->|?];
    [|destruct (String.eqb_spec k "is_active") as [->|?];
      [|destruct (String.eqb_spec k "is_staff") as [->|?];
        [|destruct (String.eqb_spec k "is_superuser") as [->|?]]]];
    try discriminate Hset;
    destruct v; try discriminate Hset; injection Hset as <-;
    repeat split; intros; done.
Qed.

Lemma User_setattrs_others extra : forall u u',
  User_setattrs u extra = inr u' ->
  ("name"%string ∉ dict_keys extra -> name u' = name u)
  /\ ("is_active"%string ∉ dict_keys extra -> is_active u' = is_active u)
  /\ ("is_staff"%string ∉ dict_keys extra -> is_staff u' = is_staff u)
  /\ ("is_superuser"%string ∉ dict_keys extra ->
      is_superuser u' = is_superuser u).
Proof.
  induction extra as [|[k v] extra IH]; intros u u'; cbn [User_setattrs].
  - by intros [= <-].
  - destruct (User_setattr u (k, v)) as [x|u1] eqn:E; [done|].
    intros H. destruct (IH _ _ H) as (H1 & H2 & H3 & H4).
    destruct (User_setattr_others _ _ _ _ E) as (K1 & K2 & K3 & K4).
    cbn [dict_keys map fst].
    repeat split; intros Hk; apply not_elem_of_cons in Hk as [Hne Hk].
    + rewrite (H1 Hk). by apply K1.
    + rewrite (H2 Hk). by apply K2.
    + rewrite (H3 Hk). by apply K3.
    + rewrite (H4 Hk). by apply K4.
Qed.

End Defaults.

(** X21.  For keyword arguments that give a text for [name] and
    booleans for [is_active], [is_staff] and [is_superuser] and nothing
    else, an account that [create_user] returns has the column
    defaults wherever the keyword arguments are silent: it is active,
    it is neither staff nor superuser, and its name is empty, unless
    the call names the column.  It is stored under the next key, with
    the normalized address. *)
Theorem create_user_defaults (e pw : option str) (extra : pydict)
    (w w' : World) (id : Z) (u : User) :
  valid_extra_fields extra = true ->
  create_user e pw extra w = (inr (id, u), w') ->
  ("is_staff"%string ∉ dict_keys extra -> is_staff u = false)
  /\ ("is_superuser"%string ∉ dict_keys extra -> is_superuser u = false)
  /\ ("is_active"%string ∉ dict_keys extra -> is_active u = true)
  /\ ("name"%string ∉ dict_keys extra -> name u = [])
  /\ id = user_seq w + 1 /\ users w' !! id = Some u
  /\ email u = normalize_email e.
Proof.
  intros _ H.
  assert (Hfields : exists u0,
             User_init (normalize_email e) extra = inr u0
             /\ name u = name u0 /\ is_active u = is_active u0
             /\ is_staff u = is_staff u0
             /\ is_superuser u = is_superuser u0).
  { revert H. unfold create_user.
    destruct (match e with Some e0 => is_empty e0 | None => true end);
      [discriminate|].
    destruct (User_init (normalize_email e) extra) as [x|u0]; [discriminate|].
    unfold make_password, User_save.
    cbv [bind get draw set_users ret raise].
    destruct pw as [raw|]; cbn [email User_set_password users];
      destruct (email_taken (email u0) None (users w)); cbn;
      intros [= <- <- <-]; exists u0; by repeat split. }
  destruct Hfields as (u0 & Hinit & Hn & Ha & Hs & Hsu).
  destruct (User_setattrs_others _ _ _ Hinit) as (K1 & K2 & K3 & K4).
  cbn in K1, K2, K3, K4.
  destruct (create_user_cases e pw extra w)
    as (_ & _ & _ & _ & [((x & Hx) & _)|(u1 & H1 & Hus & _ & _ & Hem)]);
    rewrite H in *; cbn [fst snd] in *; [discriminate|].
  injection H1 as -> ->.
  split; [intros Hk; by rewrite Hs, K3|].
  split; [intros Hk; by rewrite Hsu, K4|].
  split; [intros Hk; by rewrite Ha, K2|].
  split; [intros Hk; by rewrite Hn, K1|].
  split; [done|]. split; [|done]. rewrite Hus. apply lookup_insert_eq.
Qed.

(** A witness for X21: an account made with a name only. *)
Lemma create_user_defaults_witness :
  exists u w',
    create_user (Some ("New@Example.COM" : str)) (Some ("secret" : str))
      [("name"%string, PStr "N")] sample_world = (inr (3, u), w')
    /\ is_staff u = false /\ is_superuser u = false /\ is_active u = true.
Proof.
  eexists _, _. split; [vm_compute; reflexivity|].
  destruct (create_user_defaults (Some ("New@Example.COM" : str))
              (Some ("secret" : str)) [("name"%string, PStr "N")]
              sample_world _ _ _ eq_refl eq_refl) as (H1 & H2 & H3 & _).
  assert (Hno : forall k : string, k <> "name"%string ->
                  k ∉ dict_keys [("name"%string, PStr "N")]).
  { intros k Hk Hin. cbn in Hin. apply list_elem_of_singleton in Hin. done. }
  split; [apply H1; by apply Hno|]. split; [apply H2; by apply Hno|].
  apply H3; by apply Hno.
Defined.

(** ** Normal forms of addresses *)

Section NormalForms.

Lemma rsplit1_Some c s p q :
  rsplit1 c s = Some (p, q) -> s = p ++ c :: q /\ c ∉ q.
Proof.
  unfold rsplit1. destruct (Z.leb_spec 0 (rfind c s)) as [Hr|]; [|done].
  intros [= <- <-]. destruct (rfind_found c s Hr) as (t & Ht & Hn).
  unfold upto, from in *.
  replace (Z.to_nat (rfind c s + 1)) with (Z.to_nat (rfind c s) + 1)%nat
    by lia.
  rewrite <- drop_drop, Ht. cbn [drop]. rewrite drop_0. split; [|done].
  rewrite <- Ht. by rewrite take_drop.
Qed.

Lemma lower_char_at c : lower_char c = "@"%char -> c = "@"%char.
Proof.
  destruct c as [[] [] [] [] [] [] [] []]; vm_compute; congruence.
Qed.

Lemma lower_absent_at d : "@"%char ∉ d -> "@"%char ∉ lower d.
Proof.
  intros Hd Hin. apply Hd. unfold lower in Hin.
  apply list_elem_of_fmap in Hin as (c & Hc & Hin).
  symmetry in Hc. apply lower_char_at in Hc. by subst c.
Qed.

Lemma lower_char_lower c : lower_char (lower_char c) = lower_char c.
Proof. destruct c as [[] [] [] [] [] [] [] []]; reflexivity. Qed.

Lemma lower_lower s : lower (lower s) = lower s.
Proof.
  unfold lower. rewrite map_map. apply map_ext. intros c.
  apply lower_char_lower.
Qed.

(** The two sides of the last [@] of a trimmed address carry no white
    space at the outer ends. *)
Lemma strip_split_fixed e n d :
  strip e = n ++ "@"%char :: d -> "@"%char ∉ d ->
  lstrip n = n /\ rstrip d = d.
Proof.
  intros He Hd. pose proof (strip_strip e) as Hs. rewrite He in Hs.
  unfold strip in Hs.
  rewrite lstrip_app_nonspace in Hs by reflexivity.
  rewrite rstrip_app_nonspace in Hs by reflexivity.
  apply (f_equal (rsplit1 "@")) in Hs.
  rewrite !rsplit1_app_cons in Hs by (done || by apply rstrip_absent).
  by injection Hs as -> ->.
Qed.

End NormalForms.

(** X22.  [normalize_email] is idempotent: an address it returns is
    returned unchanged when normalized again, so the address
    [create_user] stores is its own normal form. *)
Theorem normalize_email_idempotent (e : option str) :
  normalize_email (Some (normalize_email e)) = normalize_email e
  /\ forall pw extra w w' id u,
       create_user e pw extra w = (inr (id, u), w') ->
       normalize_email (Some (email u)) = email u.
Proof.
  assert (Hidem : normalize_email (Some (normalize_email e))
                  = normalize_email e).
  { unfold normalize_email at 2 3.
    destruct (rsplit1 "@" (strip (default [] e))) as [[n d]|] eqn:E.
    - replace (match e with Some e0 => e0 | None => [] end)
        with (default [] e) in * by (by destruct e).
      destruct (rsplit1 "@" (strip (default [] e))) as [[n' d']|] eqn:E';
        [|discriminate]. injection E as -> ->.
      apply rsplit1_Some in E' as [Hs Hd].
      destruct (strip_split_fixed _ _ _ Hs Hd) as [Hn Hr].
      change (n ++ "@" ++ lower d) with (n ++ "@" ++ lower d)%list.
      rewrite (normalize_email_at n (lower d) (lower_absent_at d Hd)).
      by rewrite Hn, <- lower_rstrip, Hr, lower_lower.
    - replace (match e with Some e0 => e0 | None => [] end)
        with (default [] e) in * by (by destruct e).
      destruct (rsplit1 "@" (strip (default [] e))) as [[n' d']|] eqn:E';
        [discriminate|].
      unfold normalize_email. by rewrite E'. }
  split; [exact Hidem|].
  intros pw extra w w' id u H.
  destruct (create_user_cases e pw extra w)
    as (_ & _ & _ & _ & [((x & Hx) & _)|(u1 & H1 & _ & _ & _ & Hem)]);
    rewrite H in *; cbn [fst snd] in *; [discriminate|].
  injection H1 as _ ->. by rewrite Hem.
Qed.

(** ** Release dates *)

Section ReleaseDates.

Lemma validate_fields_value w p fs d errors vd f x :
  NoDup (map field_name fs) ->
  validate_fields w p fs d = (errors, vd) -> f ∈ fs ->
  run_validation w p f (get_value f d) = Valid x ->
  dict_get (field_name f) vd = Some x.
Proof.
  revert errors vd. induction fs as [|g fs IH]; intros errors vd Hnd E Hf Hx.
  { by apply elem_of_nil in Hf. }
  cbn [validate_fields] in E. cbn [map] in Hnd.
  apply NoDup_cons in Hnd as [Hg Hnd].
  destruct (validate_fields w p fs d) as [errors' vd'] eqn:E'.
  apply elem_of_cons in Hf as [->|Hf].
  - rewrite Hx in E. injection E as <- <-. cbn [dict_get].
    by rewrite String.eqb_refl.
  - specialize (IH _ _ Hnd eq_refl Hf Hx).
    assert (Hne : field_name f <> field_name g).
    { intros Heq. apply Hg. rewrite <- Heq. apply list_elem_of_fmap.
      by exists f. }
    destruct (run_validation w p g (get_value g d)); injection E as <- <-;
      try exact IH.
    cbn [dict_get]. by destruct (String.eqb_spec (field_name f) (field_name g)).
Qed.

Lemma is_valid_value w meta p d vd f x :
  meta = BookSerializer \/ meta = BookImageSerializer ->
  is_valid w meta p d = inr vd -> f ∈ writable_fields meta ->
  run_validation w p f (get_value f d) = Valid x ->
  dict_get (field_name f) vd = Some x.
Proof.
  intros Hmeta. unfold is_valid.
  destruct (validate_fields w p (writable_fields meta) d)
    as [errors vd0] eqn:E.
  destruct errors; [|discriminate]. intros [= <-] Hf Hx.
  by apply (validate_fields_value w p _ d [] vd0 f x
              (meta_names_NoDup meta Hmeta) E).
Qed.

Lemma get_value_release_date d s :
  items d !! "release_date"%string = Some (PStr s) ->
  get_value date_field d = Some (PStr s).
Proof.
  intros H. unfold get_value. cbn [field_name date_field]. rewrite H.
  by destruct (html d), s.
Qed.

Lemma representation_release_date w id b :
  dict_get "release_date" (to_representation w BookSerializer id b)
  = Some (PStr (isoformat (release_date b)))
  /\ dict_get "id" (to_representation w BookSerializer id b)
     = Some (PInt id).
Proof. split; reflexivity. Qed.

End ReleaseDates.

(** X23.  A release date sent as text to the create, update or partial
    update route is checked and brought to one form.  The text is read
    by Django's [parse_date]: by its year-month-day pattern and the
    [date] constructor, and, where the pattern does not match, by the
    interpreter's [date.fromisoformat].  Text that this does not read
    as a calendar date is answered with 400 and the error [invalid]
    under [release_date], and nothing changes; text that it reads is
    stored as that date, and the response shows it zero-padded, in the
    form that reads back as the same date under every interpreter. *)
Theorem release_date_checked (route : Route) (p : bool) (C : Z)
    (d : RequestData) (w : World) (s : str) :
  route_partial route = Some p -> route_allowed route C w ->
  items d !! "release_date"%string = Some (PStr s) ->
  let res := serve route {| user := Some C; data := d |} w in
  let parsed := parse_date (date_fromisoformat (env w)) s in
  (parsed = None ->
   status_code res.1 = 400
   /\ ("release_date"%string, "invalid"%string) ∈ response_errors res.1
   /\ res.2 = w)
  /\ (forall dt, parsed = Some dt ->
        (forall fromisoformat,
           parse_date fromisoformat (isoformat dt) = Some dt)
        /\ forall o, o ∈ response_objects res.1 ->
             dict_get "release_date" o = Some (PStr (isoformat dt))
             /\ exists id b, dict_get "id" o = Some (PInt id)
                  /\ books res.2 !! id = Some b /\ release_date b = dt)
  /\ (forall y m dd, date_re_match s = Some (y, m, dd) ->
        parsed = make_date y m dd).
Proof.
  intros Hp Hallowed Hs. cbv zeta.
  assert (Hf : date_field ∈ writable_fields BookSerializer).
  { rewrite writable_BookSerializer. do 2 right. left. }
  split; [|split].
  3: { intros y m dd Hm. unfold parse_date. by rewrite Hm. }
  { intros Hnone.
    apply (invalid_field_rejected route p C d w date_field "invalid" Hp
             Hallowed Hf).
    rewrite (get_value_release_date d s Hs). cbn. by rewrite Hnone. }
  intros dt Hdt. split.
  { intros fromisoformat. apply parse_date_isoformat.
    by eapply parse_date_valid. }
  assert (Hx : run_validation w p date_field (get_value date_field d)
               = Valid (PDate dt)).
  { rewrite (get_value_release_date d s Hs). cbn. by rewrite Hdt. }
  assert (Hshow : forall w' id b o,
             o = to_representation w' BookSerializer id b ->
             books w' !! id = Some b -> release_date b = dt ->
             dict_get "release_date" o = Some (PStr (isoformat dt))
             /\ exists id b, dict_get "id" o = Some (PInt id)
                  /\ books w' !! id = Some b /\ release_date b = dt).
  { intros w' id b o -> Hb <-.
    destruct (representation_release_date w' id b) as [-> Hid].
    split; [done|]. by exists id, b. }
  assert (Hupdate : forall id,
             (route = PutItem id /\ p = false)
             \/ (route = PatchItem id /\ p = true) ->
             forall o,
               o ∈ response_objects
                     (serve route {| user := Some C; data := d |} w).1 ->
               dict_get "release_date" o = Some (PStr (isoformat dt))
               /\ exists id b, dict_get "id" o = Some (PInt id)
                    /\ books (serve route {| user := Some C; data := d |} w).2
                         !! id = Some b /\ release_date b = dt).
  { intros id Hr.
    assert (Hitem : route_item route = Some id)
      by (by destruct Hr as [[-> _]|[-> _]]).
    unfold route_allowed in Hallowed. rewrite Hitem in Hallowed.
    destruct Hallowed as (b & Hb & Hu).
    rewrite (update_route_steps route p id C d w b Hr Hb Hu).
    destruct (is_valid w BookSerializer p d) as [errors|vd] eqn:V;
      [intros o Ho; by apply elem_of_nil in Ho|].
    destruct (save_existing_outcome w BookSerializer p d vd id b w
                (or_introl eq_refl) V)
      as (b' & w' & -> & Hbooks & _ & _ & _ & Hcols & _).
    intros o Ho. cbn in Ho. apply list_elem_of_singleton in Ho.
    apply (Hshow w' id b' o Ho).
    - rewrite Hbooks. apply lookup_insert_eq.
    - pose proof (Hcols "release_date"%string
                    ltac:(unfold plain_columns; do 3 right; left)) as Hc.
      pose proof (is_valid_value w BookSerializer p d vd date_field
                    (PDate dt) (or_introl eq_refl) V Hf Hx) as Hv.
      cbn [field_name date_field] in Hv. rewrite Hv in Hc.
      cbn in Hc. by injection Hc. }
  destruct route as [| |id|id|id|id|id]; try discriminate Hp;
    injection Hp as <-.
  - unfold serve, api_create, dispatch. cbn [user data].
    destruct (is_valid w BookSerializer false d) as [errors|vd] eqn:V.
    + rewrite create_steps, V. intros o Ho. by apply elem_of_nil in Ho.
    + destruct (create_outcome C d w vd V)
        as (b & w' & -> & Hb & _ & _ & _ & _ & _ & Hr & _).
      intros o Ho. cbn in Ho. apply list_elem_of_singleton in Ho.
      apply (Hshow w' (book_seq w + 1) b o Ho).
      * rewrite Hb. apply lookup_insert_eq.
      * pose proof (is_valid_value w BookSerializer false d vd date_field
                      (PDate dt) (or_introl eq_refl) V Hf Hx) as Hv.
        cbn [field_name date_field] in Hv. rewrite Hv in Hr.
        by injection Hr.
  - apply (Hupdate id). by left.
  - apply (Hupdate id). by right.
Qed.

(** A witness for X23: a date sent without padding comes back padded. *)
Lemma release_date_checked_witness :
  dict_get "release_date"
    (default []
       (head (response_objects
                (serve (PatchItem 1)
                   {| user := Some 1;
                      data := json [("release_date"%string,
                                     PStr "2031-2-3")] |}
                   sample_world).1)))
  = Some (PStr "2031-02-03").
Proof.
  destruct (release_date_checked (PatchItem 1) true 1
              (json [("release_date"%string, PStr "2031-2-3")])
              sample_world "2031-2-3" eq_refl
              (ex_intro _ (sample_book 1 None) (conj eq_refl eq_refl))
              eq_refl) as (_ & H & _).
  destruct (H (Date 2031 2 3) eq_refl) as [_ Ho].
  destruct (response_objects _) as [|o os] eqn:E; [discriminate E|].
  destruct (Ho o ltac:(left)) as [Hd _]. exact Hd.
Defined.
